(** * SNEngine code editor: script graph builder, fold ranges, autocomplete

    A shallow embedding of the text-processing core of the SNIL editor:

    - [ScriptGraphWindow.parse_script_content] and
      [ScriptGraphWindow._parse_conditional_block]
      (src/views/graph/script_graph.py),
    - [ScriptGraphCanvas._arrange_horizontal] and
      [ScriptGraphCanvas._draw_link] (src/views/graph/script_graph.py),
    - [NodeRendererFactory] (src/views/graph/node_renderer_factory.py),
    - [CodeEditor.compute_fold_ranges], [CodeEditor.toggle_fold_at_line],
      [CodeEditor._apply_fold], [CodeEditor._show_autocomplete] and
      [CodeEditor._insert_autocomplete_item] (src/views/code_editor.py),
    - [AutocompletePopup.update_items] and [AutocompletePopup.keyPressEvent]
      (src/views/autocomplete_popup.py).

    Python strings are modelled as [string]; a character is a code point
    below 256.  Index accesses that Python checks ([xs[i]]) return in the
    [result] monad, and [while] loops driven by an index carry an explicit
    bound on their iterations, so that "does not raise" and "terminates"
    are statements about the model and not built into it. *)

From Stdlib Require Import String Ascii List Arith Lia Bool.
From Stdlib Require Import DecimalString DecimalNat.
From stdpp Require Import gmap strings list.
Import ListNotations.
Local Open Scope string_scope.
Local Open Scope list_scope.
Local Open Scope nat_scope.

(* ================================================================== *)
(** ** Python [str] primitives used by the sources                     *)
(* ================================================================== *)

Module Text.

(** The line feed, [chr(10)]. *)
Definition NL : ascii := ascii_of_nat 10.

Definition nl : string := String NL "".

(** [c.isspace()], which is also what [str.strip()] removes and what the
    [re] escape [\s] matches on [str] patterns. *)
Definition is_space (c : ascii) : bool :=
  let n := nat_of_ascii c in
  ((9 <=? n) && (n <=? 13)) || ((28 <=? n) && (n <=? 32))
  || (n =? 133) || (n =? 160).

(** [c.isupper()]. *)
Definition is_upper (c : ascii) : bool :=
  let n := nat_of_ascii c in
  ((65 <=? n) && (n <=? 90))
  || ((192 <=? n) && (n <=? 222) && negb (n =? 215)).

(** [c.isalpha()]. *)
Definition is_alpha (c : ascii) : bool :=
  let n := nat_of_ascii c in
  is_upper c
  || ((97 <=? n) && (n <=? 122)) || (n =? 170) || (n =? 181) || (n =? 186)
  || ((223 <=? n) && (n <=? 255) && negb (n =? 247)).

(** The [re] escape [\w] on [str] patterns: alphanumerics and [_]. *)
Definition is_word (c : ascii) : bool :=
  let n := nat_of_ascii c in
  is_alpha c || ((48 <=? n) && (n <=? 57)) || (n =? 95)
  || (n =? 178) || (n =? 179) || (n =? 185)
  || ((188 <=? n) && (n <=? 190)).

(** [c.lower()] for one character. *)
Definition lower_char (c : ascii) : ascii :=
  if is_upper c then ascii_of_nat (nat_of_ascii c + 32) else c.

(** [s.lower()]. *)
Fixpoint lower (s : string) : string :=
  match s with
  | "" => ""
  | String c s' => String (lower_char c) (lower s')
  end.

(** [s.lstrip()]. *)
Fixpoint lstrip (s : string) : string :=
  match s with
  | "" => ""
  | String c s' => if is_space c then lstrip s' else s
  end.

(** [s.rstrip()]. *)
Fixpoint rstrip (s : string) : string :=
  match s with
  | "" => ""
  | String c s' =>
      match rstrip s' with
      | "" => if is_space c then "" else String c ""
      | r => String c r
      end
  end.

(** [s.strip()]. *)
Definition strip (s : string) : string := rstrip (lstrip s).

(** [s[:n]] and [s[n:]] for [0 <= n]. *)
Fixpoint take (n : nat) (s : string) : string :=
  match n, s with
  | S n', String c s' => String c (take n' s')
  | _, _ => ""
  end.

Fixpoint drop (n : nat) (s : string) : string :=
  match n, s with
  | S n', String _ s' => drop n' s'
  | _, _ => s
  end.

(** [s.startswith(p)]. *)
Definition startswith (s p : string) : bool := String.prefix p s.

(** [s.endswith(suf)]: some tail of [s] is [suf]. *)
Fixpoint endswith (s suf : string) : bool :=
  String.eqb s suf
  || match s with
     | "" => false
     | String _ s' => endswith s' suf
     end.

(** [sub in s]. *)
Fixpoint contains (sub s : string) : bool :=
  String.prefix sub s
  || match s with
     | "" => false
     | String _ s' => contains sub s'
     end.

(** [s.rfind(sub)]: the highest index at which [sub] occurs, [None] for
    Python's [-1]. *)
Fixpoint rfind (s sub : string) : option nat :=
  match s with
  | "" => if String.prefix sub "" then Some 0 else None
  | String _ s' =>
      match rfind s' sub with
      | Some k => Some (S k)
      | None => if String.prefix sub s then Some 0 else None
      end
  end.

(** [s.split(sep)] for a non-empty [sep]: [split_go] returns the block in
    progress and the blocks after it; [skip] counts the characters of an
    already matched separator that are still to be passed over. *)
Fixpoint split_go (sep : string) (skip : nat) (s : string)
  : string * list string :=
  match s with
  | "" => ("", [])
  | String c s' =>
      match skip with
      | S k => split_go sep k s'
      | 0 =>
          if String.prefix sep s
          then let '(b, bs) := split_go sep (String.length sep - 1) s' in
               ("", b :: bs)
          else let '(b, bs) := split_go sep 0 s' in
               (String c b, bs)
      end
  end.

Definition split (s sep : string) : list string :=
  let '(b, bs) := split_go sep 0 s in b :: bs.

(** [str(n)], as the f-strings [f"n_{counter}"] and [f"Section {i+1}"]
    print it. *)
Definition decimal (n : nat) : string :=
  NilEmpty.string_of_uint (Nat.to_uint n).

End Text.

(* ================================================================== *)
(** ** The regular expressions of the sources                          *)
(* ================================================================== *)

Module Re.
Import Text.

(** The fragment of Python's [re] syntax that the patterns written in the
    sources use.  Every literal compares case-insensitively: all calls but
    one pass [re.IGNORECASE], and the pattern of the remaining call
    ([^\s*---\s*$]) has no letter. *)
Inductive regex : Type :=
| Void                        (* matches nothing *)
| Eps                         (* the empty pattern *)
| Lit (c : ascii)             (* a literal character *)
| Space                       (* \s *)
| Dot                         (* .  (no DOTALL: anything but a line feed) *)
| Cat (r1 r2 : regex)
| Alt (r1 r2 : regex)
| Star (r : regex)
| Bol                         (* ^  (no MULTILINE: start of the string) *)
| Eol                         (* $  (end, or before a final line feed) *)
| Wb.                         (* \b *)

Definition word_at (o : option ascii) : bool :=
  match o with
  | Some c => is_word c
  | None => false
  end.

Definition next_char (s : string) : option ascii :=
  match s with
  | String c _ => Some c
  | "" => None
  end.

(** [nullable prev rest r]: [r] matches the empty string at the position
    whose previous character is [prev] and whose remaining input is
    [rest]. *)
Fixpoint nullable (prev : option ascii) (rest : string) (r : regex) : bool :=
  match r with
  | Void | Lit _ | Space | Dot => false
  | Eps | Star _ => true
  | Cat r1 r2 => nullable prev rest r1 && nullable prev rest r2
  | Alt r1 r2 => nullable prev rest r1 || nullable prev rest r2
  | Bol => match prev with None => true | Some _ => false end
  | Eol =>
      match rest with
      | "" => true
      | String c "" => Ascii.eqb c NL
      | _ => false
      end
  | Wb => xorb (word_at prev) (word_at (next_char rest))
  end.

Definition cat (r1 r2 : regex) : regex :=
  match r1 with
  | Void => Void
  | Eps => r2
  | _ => Cat r1 r2
  end.

Definition alt (r1 r2 : regex) : regex :=
  match r1, r2 with
  | Void, _ => r2
  | _, Void => r1
  | _, _ => Alt r1 r2
  end.

(** Brzozowski derivative of [r] by the character [c] read at the position
    described by [prev] and [rest] ([rest] starts with [c]). *)
Fixpoint deriv (prev : option ascii) (rest : string) (r : regex) (c : ascii)
  : regex :=
  match r with
  | Void | Eps | Bol | Eol | Wb => Void
  | Lit a => if Ascii.eqb (lower_char a) (lower_char c) then Eps else Void
  | Space => if is_space c then Eps else Void
  | Dot => if Ascii.eqb c NL then Void else Eps
  | Cat r1 r2 =>
      alt (cat (deriv prev rest r1 c) r2)
          (if nullable prev rest r1 then deriv prev rest r2 c else Void)
  | Alt r1 r2 => alt (deriv prev rest r1 c) (deriv prev rest r2 c)
  | Star r1 => cat (deriv prev rest r1 c) (Star r1)
  end.

Fixpoint match_from (prev : option ascii) (r : regex) (s : string) : bool :=
  nullable prev s r
  || match s with
     | "" => false
     | String c s' => match_from (Some c) (deriv prev s r c) s'
     end.

(** [re.match(r, s, re.IGNORECASE) is not None]: some prefix of [s]
    matches [r]. *)
Definition re_match (r : regex) (s : string) : bool := match_from None r s.

(** A literal word, and [r+]. *)
Fixpoint lit (s : string) : regex :=
  match s with
  | "" => Eps
  | String c s' => Cat (Lit c) (lit s')
  end.

Definition plus (r : regex) : regex := Cat r (Star r).

Fixpoint cats (rs : list regex) : regex :=
  match rs with
  | [] => Eps
  | r :: rs' => Cat r (cats rs')
  end.

End Re.

(* ================================================================== *)
(** ** Outcomes of Python code                                         *)
(* ================================================================== *)

Module Py.

(** What running a piece of the program yields: a value, the [IndexError]
    of an index out of range, or [OutOfFuel] when a [while] loop was cut
    off at its iteration bound. *)
Inductive result (A : Type) : Type :=
| Ok (a : A)
| IndexError
| OutOfFuel.

Arguments Ok {A} a.
Arguments IndexError {A}.
Arguments OutOfFuel {A}.

#[export] Instance result_ret : MRet result := fun A a => Ok a.

#[export] Instance result_bind : MBind result := fun A B f m =>
  match m with
  | Ok a => f a
  | IndexError => IndexError
  | OutOfFuel => OutOfFuel
  end.

(** [xs[i]] for [0 <= i]. *)
Definition index {A : Type} (xs : list A) (i : nat) : result A :=
  match nth_error xs i with
  | Some x => Ok x
  | None => IndexError
  end.

(** [xs[-1]]. *)
Definition index_last {A : Type} (xs : list A) : result A :=
  match xs with
  | [] => IndexError
  | _ => index xs (length xs - 1)
  end.

(** [for x in xs: st = body(st, x)] for a body that may raise. *)
Fixpoint for_each {A S : Type} (body : S -> A -> result S) (xs : list A)
  (st : S) : result S :=
  match xs with
  | [] => Ok st
  | x :: xs' => st' ← body st x; for_each body xs' st'
  end.

End Py.

(* ================================================================== *)
(** ** The script graph builder (script_graph.py)                      *)
(* ================================================================== *)

Module ScriptGraph.
Import Text Re Py.

(** The fields of [ScriptGraphNode] that the builder sets; the layout
    fields belong to the renderer. *)
Record ScriptGraphNode : Type := mkNode {
  node_id : string;
  node_type : string;
  content : string
}.

(** A connection [(from_id, to_id)]. *)
Definition edge : Type := string * string.

(** Patterns that come from the configuration file are kept abstract:
    [pattern_match p line] stands for
    [re.match(p, line, re.IGNORECASE)] being a match. *)
Class Pattern (P : Type) : Type := pattern_match : P -> string -> bool.

#[export] Instance regex_pattern : Pattern regex := re_match.

(** One entry of ["node_types"]: a JSON object read with
    [nc.get("name", default_node_type)] and [nc.get("pattern", "")]. *)
Record node_type_config (P : Type) : Type := mkConfig {
  nc_name : option string;
  nc_pattern : option P
}.

Arguments mkConfig {P} nc_name nc_pattern.
Arguments nc_name {P} n.
Arguments nc_pattern {P} n.

(** An element of [processed_lines]. *)
Inductive item : Type :=
| Conditional (conditional_block : list string)
| Normal (item_lines : list string).

(** What the local [current_block] of [_parse_conditional_block] is bound
    to: [None], the list [true_block] or the list [false_block]. *)
Inductive block_ref : Type :=
| NoBlock
| TrueBlock
| FalseBlock.

(** The variables of the section loop of [parse_script_content]. *)
Record builder : Type := mkBuilder {
  nodes : list ScriptGraphNode;
  connections : list edge;
  node_id_counter : nat;
  prev_node : option ScriptGraphNode;
  conditional_end_nodes : list ScriptGraphNode
}.

(** A tab handed to the tab widget: the section name and the data given to
    [graph_canvas.set_data]. *)
Record tab : Type := mkTab {
  section_name : string;
  tab_nodes : list ScriptGraphNode;
  tab_connections : list edge
}.

(** [r'^\s*if\s+.*'], the pattern of line 195. *)
Definition if_pattern : regex :=
  cats [Bol; Star Space; lit "if"; plus Space; Star Dot].

(** The test that opens a conditional block (line 195). *)
Definition is_conditional_start (line : string) : bool :=
  re_match if_pattern line || contains "If Show Variant" line.

(** [f"n_{counter}"]. *)
Definition fresh_id (counter : nat) : string := "n_" +:+ decimal counter.

(** The inner [while] of the pre-scan (lines 198-202): append stripped
    lines to the block up to and including the first [endif]. *)
Fixpoint collect_block (fuel : nat) (lines : list string) (line_idx : nat)
  (conditional_block : list string) : result (list string * nat) :=
  match fuel with
  | 0 => OutOfFuel
  | S fuel' =>
      if line_idx <? length lines then
        l ← index lines line_idx;
        let next_line := strip l in
        let conditional_block := conditional_block ++ [next_line] in
        let line_idx := line_idx + 1 in
        if String.eqb (lower next_line) "endif"
        then Ok (conditional_block, line_idx)
        else collect_block fuel' lines line_idx conditional_block
      else Ok (conditional_block, line_idx)
  end.

(** The outer [while] of the pre-scan (lines 193-206). *)
Fixpoint group_lines (fuel : nat) (lines : list string) (line_idx : nat)
  (processed_lines : list item) : result (list item) :=
  match fuel with
  | 0 => OutOfFuel
  | S fuel' =>
      if line_idx <? length lines then
        l ← index lines line_idx;
        let line := strip l in
        if is_conditional_start line then
          '(conditional_block, line_idx) ←
            collect_block (S (length lines)) lines (line_idx + 1) [line];
          group_lines fuel' lines line_idx
            (processed_lines ++ [Conditional conditional_block])
        else
          group_lines fuel' lines (line_idx + 1)
            (processed_lines ++ [Normal [line]])
      else Ok processed_lines
  end.

(** The [while] of [_parse_conditional_block] (lines 247-254). *)
Fixpoint route_lines (fuel : nat) (lines : list string) (i : nat)
  (condition_node : ScriptGraphNode) (true_block false_block : list string)
  (current_block : block_ref)
  : result (ScriptGraphNode * list string * list string) :=
  match fuel with
  | 0 => OutOfFuel
  | S fuel' =>
      if i <? length lines then
        l ← index lines i;
        let line := strip l in
        if String.eqb (lower line) "true:" then
          route_lines fuel' lines (i + 1) condition_node
            true_block false_block TrueBlock
        else if String.eqb (lower line) "false:" then
          route_lines fuel' lines (i + 1) condition_node
            true_block false_block FalseBlock
        else if String.eqb (lower line) "endif" then
          Ok (condition_node, true_block, false_block)
        else
          match current_block with
          | TrueBlock =>
              route_lines fuel' lines (i + 1) condition_node
                (true_block ++ [line]) false_block current_block
          | FalseBlock =>
              route_lines fuel' lines (i + 1) condition_node
                true_block (false_block ++ [line]) current_block
          | NoBlock =>
              route_lines fuel' lines (i + 1)
                (mkNode (node_id condition_node) (node_type condition_node)
                   (content condition_node +:+ nl +:+ line))
                true_block false_block current_block
          end
      else Ok (condition_node, true_block, false_block)
  end.

(** [for j in range(len(ns)-1): conns.append((ns[j].id, ns[j+1].id))]. *)
Definition chain_edges (ns : list ScriptGraphNode) (conns : list edge)
  : result (list edge) :=
  for_each
    (fun conns j =>
       a ← index ns j;
       b ← index ns (j + 1);
       Ok (conns ++ [(node_id a, node_id b)]))
    (seq 0 (length ns - 1)) conns.

(** Lines 274-276 and 277-279: the edges of one branch. *)
Definition branch_edges (condition_node : ScriptGraphNode)
  (ns : list ScriptGraphNode) (conns : list edge) : result (list edge) :=
  match ns with
  | [] => Ok conns
  | _ =>
      n0 ← index ns 0;
      chain_edges ns (conns ++ [(node_id condition_node, node_id n0)])
  end.

(** [ns[-1] if ns else condition_node] (line 281). *)
Definition branch_tail (condition_node : ScriptGraphNode)
  (ns : list ScriptGraphNode) : result ScriptGraphNode :=
  match ns with
  | [] => Ok condition_node
  | _ => index_last ns
  end.

(** *** Closed forms of the index-driven loops

    The functions below recurse on the list of lines instead of counting
    an index up; the loops above are proved equal to them
    ([group_lines_closed], [route_lines_closed], [chain_edges_closed]). *)

(** The pre-scan: [groups] is the outer loop between two blocks,
    [groups_in] the inner loop with the block collected so far. *)
Fixpoint groups (lines : list string) : list item :=
  match lines with
  | [] => []
  | l :: lines' =>
      if is_conditional_start (strip l)
      then groups_in [strip l] lines'
      else Normal [strip l] :: groups lines'
  end
with groups_in (conditional_block : list string) (lines : list string)
  : list item :=
  match lines with
  | [] => [Conditional conditional_block]
  | l :: lines' =>
      if String.eqb (lower (strip l)) "endif"
      then Conditional (conditional_block ++ [strip l]) :: groups lines'
      else groups_in (conditional_block ++ [strip l]) lines'
  end.

(** [route_lines] from the lines that are left. *)
Fixpoint route (lines : list string) (condition_node : ScriptGraphNode)
  (true_block false_block : list string) (current_block : block_ref)
  : ScriptGraphNode * list string * list string :=
  match lines with
  | [] => (condition_node, true_block, false_block)
  | l :: lines' =>
      let line := strip l in
      if String.eqb (lower line) "true:" then
        route lines' condition_node true_block false_block TrueBlock
      else if String.eqb (lower line) "false:" then
        route lines' condition_node true_block false_block FalseBlock
      else if String.eqb (lower line) "endif" then
        (condition_node, true_block, false_block)
      else
        match current_block with
        | TrueBlock =>
            route lines' condition_node (true_block ++ [line]) false_block
              current_block
        | FalseBlock =>
            route lines' condition_node true_block (false_block ++ [line])
              current_block
        | NoBlock =>
            route lines'
              (mkNode (node_id condition_node) (node_type condition_node)
                 (content condition_node +:+ nl +:+ line))
              true_block false_block current_block
        end
  end.

(** The edges between consecutive nodes of a branch. *)
Fixpoint chain (ns : list ScriptGraphNode) : list edge :=
  match ns with
  | a :: (b :: _) as ns' => (node_id a, node_id b) :: chain ns'
  | _ => []
  end.

(** The edges of a branch: from the condition to its first node, then the
    chain. *)
Definition branch_conns (condition_node : ScriptGraphNode)
  (ns : list ScriptGraphNode) : list edge :=
  match ns with
  | [] => []
  | n0 :: _ => (node_id condition_node, node_id n0) :: chain ns
  end.

Section Builder.

Context {P : Type} `{Pattern P}.
Variable node_types : list (node_type_config P).
Variable default_node_type : string.
Variable ignore_patterns : list P.

(** [re.match(nc.get("pattern", ""), line, re.IGNORECASE)]: the empty
    pattern matches every line. *)
Definition nc_matches (nc : node_type_config P) (line : string) : bool :=
  match nc_pattern nc with
  | Some p => pattern_match p line
  | None => true
  end.

(** The first entry of [node_types] whose pattern matches, where the
    [for nc in node_types] loops [break]. *)
Fixpoint first_match (ncs : list (node_type_config P)) (line : string)
  : option (node_type_config P) :=
  match ncs with
  | [] => None
  | nc :: ncs' => if nc_matches nc line then Some nc else first_match ncs' line
  end.

(** [nc.get("name", default_node_type)]. *)
Definition nc_get_name (nc : node_type_config P) : string :=
  match nc_name nc with
  | Some n => n
  | None => default_node_type
  end.

(** Lines 225-230: the type of a node on the main line. *)
Definition main_line_type (line : string) : string :=
  match first_match node_types line with
  | None => default_node_type
  | Some nc =>
      let node_type := nc_get_name nc in
      if String.eqb node_type "function_call" then "function" else node_type
  end.

(** Lines 260-264: the type of a node inside a branch. *)
Definition branch_line_type (line : string) : string :=
  match first_match node_types line with
  | None => default_node_type
  | Some nc => nc_get_name nc
  end.

(** [any(re.match(p, line, re.IGNORECASE) for p in ignore_patterns)]. *)
Definition is_ignored (line : string) : bool :=
  existsb (fun p => pattern_match p line) ignore_patterns.

(** The body of the loop of [process_branch] (lines 258-266). *)
Definition branch_step (acc : list ScriptGraphNode * nat) (line : string)
  : list ScriptGraphNode * nat :=
  let '(branch_nodes, counter) := acc in
  if String.eqb (strip line) "" then acc
  else (branch_nodes ++ [mkNode (fresh_id counter) (branch_line_type line) line],
        counter + 1).

Definition process_branch (block : list string) (counter : nat)
  : list ScriptGraphNode * nat :=
  fold_left branch_step block ([], counter).

(** [_parse_conditional_block] (lines 241-281); the unused parameter
    [existing_nodes] is left out. *)
Definition parse_conditional_block (lines : list string) (start_id : nat)
  : result (list ScriptGraphNode * list edge
            * option ScriptGraphNode * option ScriptGraphNode) :=
  match lines with
  | [] => Ok ([], [], None, None)
  | _ =>
      l0 ← index lines 0;
      let condition_node :=
        mkNode (fresh_id start_id) "if_show_variant" (strip l0) in
      let node_id_counter := start_id + 1 in
      '(condition_node, true_block, false_block) ←
        route_lines (S (length lines)) lines 1 condition_node [] [] NoBlock;
      let '(t_nodes, node_id_counter) :=
        process_branch true_block node_id_counter in
      let '(f_nodes, node_id_counter) :=
        process_branch false_block node_id_counter in
      let all_c_nodes := [condition_node] ++ t_nodes ++ f_nodes in
      all_c_conns ← branch_edges condition_node t_nodes [];
      all_c_conns ← branch_edges condition_node f_nodes all_c_conns;
      l_true ← branch_tail condition_node t_nodes;
      l_false ← branch_tail condition_node f_nodes;
      Ok (all_c_nodes, all_c_conns, Some l_true, Some l_false)
  end.

(** The body of [for line in item_lines] (lines 224-237). *)
Definition add_line (st : builder) (line : string) : builder :=
  if is_ignored line then st
  else
    let node := mkNode (fresh_id (node_id_counter st)) (main_line_type line) line in
    let conns :=
      connections st
      ++ map (fun ce => (node_id ce, node_id node)) (conditional_end_nodes st) in
    let conns :=
      match prev_node st, conditional_end_nodes st with
      | Some p, [] => conns ++ [(node_id p, node_id node)]
      | _, _ => conns
      end in
    mkBuilder (nodes st ++ [node]) conns (node_id_counter st + 1)
      (Some node) [].

(** [if l: conditional_end_nodes.append(l)]. *)
Definition append_if_set (ends : list ScriptGraphNode)
  (l : option ScriptGraphNode) : list ScriptGraphNode :=
  match l with
  | Some n => ends ++ [n]
  | None => ends
  end.

(** The body of [for item_type, item_lines in processed_lines]
    (lines 210-237). *)
Definition add_item (st : builder) (it : item) : result builder :=
  match it with
  | Conditional item_lines =>
      '(c_nodes, c_conns, l_true, l_false) ←
        parse_conditional_block item_lines (node_id_counter st);
      let conns := connections st ++ c_conns in
      conns ←
        match prev_node st, c_nodes with
        | Some p, _ :: _ =>
            c0 ← index c_nodes 0;
            Ok (conns ++ [(node_id p, node_id c0)])
        | _, _ => Ok conns
        end;
      let ends := append_if_set (conditional_end_nodes st) l_true in
      let ends := append_if_set ends l_false in
      Ok (mkBuilder (nodes st ++ c_nodes) conns
            (node_id_counter st + length c_nodes) None ends)
  | Normal item_lines => Ok (fold_left add_line item_lines st)
  end.

(** The state at lines 188-191 and 208. *)
Definition initial : builder := mkBuilder [] [] 0 None [].

(** Lines 187-238 for one section: the nodes and connections given to
    [set_data]. *)
Definition build_graph (lines : list string)
  : result (list ScriptGraphNode * list edge) :=
  processed_lines ← group_lines (S (length lines)) lines 0 [];
  st ← for_each add_item processed_lines initial;
  Ok (nodes st, connections st).

(** *** Closed forms of the block parser and of the section loop *)

(** The condition node and the nodes of the two branches of the block
    [l0 :: ls]. *)
Definition branches (l0 : string) (ls : list string) (start_id : nat)
  : ScriptGraphNode * list ScriptGraphNode * list ScriptGraphNode :=
  let '(condition_node, true_block, false_block) :=
    route ls (mkNode (fresh_id start_id) "if_show_variant" (strip l0))
      [] [] NoBlock in
  let '(t_nodes, counter) := process_branch true_block (start_id + 1) in
  let '(f_nodes, _) := process_branch false_block counter in
  (condition_node, t_nodes, f_nodes).

(** What [parse_conditional_block] returns ([parse_conditional_block_closed]). *)
Definition conditional_result (lines : list string) (start_id : nat)
  : list ScriptGraphNode * list edge
    * option ScriptGraphNode * option ScriptGraphNode :=
  match lines with
  | [] => ([], [], None, None)
  | l0 :: ls =>
      let '(condition_node, t_nodes, f_nodes) := branches l0 ls start_id in
      (condition_node :: t_nodes ++ f_nodes,
       branch_conns condition_node t_nodes ++ branch_conns condition_node f_nodes,
       Some (List.last t_nodes condition_node),
       Some (List.last f_nodes condition_node))
  end.

(** The edge from the node before a block to its condition node. *)
Definition entry_edge (prev : option ScriptGraphNode)
  (c_nodes : list ScriptGraphNode) : list edge :=
  match prev, c_nodes with
  | Some p, c0 :: _ => [(node_id p, node_id c0)]
  | _, _ => []
  end.

(** What [add_item] returns ([add_item_closed]). *)
Definition step (st : builder) (it : item) : builder :=
  match it with
  | Conditional item_lines =>
      let '(c_nodes, c_conns, l_true, l_false) :=
        conditional_result item_lines (node_id_counter st) in
      mkBuilder (nodes st ++ c_nodes)
        (connections st ++ c_conns ++ entry_edge (prev_node st) c_nodes)
        (node_id_counter st + length c_nodes) None
        (append_if_set (append_if_set (conditional_end_nodes st) l_true) l_false)
  | Normal item_lines => fold_left add_line item_lines st
  end.

(** A normal item all of whose lines are ignored: the loop passes over
    it without a node. *)
Definition is_blank_item (it : item) : bool :=
  match it with
  | Conditional _ => false
  | Normal item_lines => forallb is_ignored item_lines
  end.

(** An item at which the main line gets no node: a conditional block, or
    a normal item all of whose lines are ignored. *)
Definition is_quiet_item (it : item) : bool :=
  match it with
  | Conditional _ => true
  | Normal item_lines => forallb is_ignored item_lines
  end.

(** The nodes a conditional block leaves in [conditional_end_nodes]
    (lines 218-219): its join sources. *)
Definition join_sources
  (r : list ScriptGraphNode * list edge
       * option ScriptGraphNode * option ScriptGraphNode)
  : list ScriptGraphNode :=
  let '(_, _, l_true, l_false) := r in
  append_if_set (append_if_set [] l_true) l_false.

(** The builder after the items [items], from the state [st]. *)
Definition steps (items : list item) (st : builder) : builder :=
  fold_left step items st.

(** What [build_graph] returns ([build_graph_closed]). *)
Definition graph_of (lines : list string)
  : list ScriptGraphNode * list edge :=
  let st := steps (groups lines) initial in
  (nodes st, connections st).

(** Group 1 of a match of [name:\s*(.+)] that starts at the beginning of
    [s].  [\s*] is greedy; when it has eaten the rest of the string it
    gives characters back until [.+] finds one that is not a line feed. *)
Fixpoint last_on_line (s : string) : option ascii :=
  match s with
  | "" => None
  | String c s' =>
      match last_on_line s' with
      | Some d => Some d
      | None => if Ascii.eqb c NL then None else Some c
      end
  end.

Fixpoint line_head (s : string) : string :=
  match s with
  | "" => ""
  | String c s' => if Ascii.eqb c NL then "" else String c (line_head s')
  end.

Definition name_group_at (s : string) : option string :=
  if String.prefix "name:" (lower s) then
    match lstrip (drop 5 s) with
    | "" =>
        match last_on_line (drop 5 s) with
        | Some c => Some (String c "")
        | None => None
        end
    | rest => Some (line_head rest)
    end
  else None.

(** [re.search(r'^name:\s*(.+)', section, re.MULTILINE | re.IGNORECASE)]
    (line 184): group 1 of the leftmost match that starts a line. *)
Fixpoint search_name (line_start : bool) (section : string) : option string :=
  match (if line_start then name_group_at section else None) with
  | Some g => Some g
  | None =>
      match section with
      | "" => None
      | String c s' => search_name (Ascii.eqb c NL) s'
      end
  end.

(** The separator of line 172. *)
Definition separator : string := nl +:+ "---" +:+ nl.

(** Line 185. *)
Definition name_of (i : nat) (section : string) : string :=
  match search_name true section with
  | Some g => strip g
  | None => "Section " +:+ decimal (i + 1)
  end.

(** [for i, section in enumerate(sections)] (lines 181-239); [tabs] are
    the tabs added so far. *)
Fixpoint section_loop (i : nat) (sections : list string) (tabs : list tab)
  : result (list tab) :=
  match sections with
  | [] => Ok tabs
  | section :: sections' =>
      let section := strip section in
      if String.eqb section "" then section_loop (i + 1) sections' tabs
      else
        let section_name := name_of i section in
        let lines := split section nl in
        '(nodes, connections) ← build_graph lines;
        section_loop (i + 1) sections'
          (tabs ++ [mkTab section_name nodes connections])
  end.

(** [parse_script_content] (lines 171-239): the tabs of the tab widget
    after the call. *)
Definition parse_script_content (content : string) : result (list tab) :=
  section_loop 0 (split content separator) [].

End Builder.

(** The blocks of a document that get a tab: the stripped blocks that are
    not empty, each with its index in [content.split(separator)]. *)
Fixpoint enumerate_from {A : Type} (i : nat) (xs : list A) : list (nat * A) :=
  match xs with
  | [] => []
  | x :: xs' => (i, x) :: enumerate_from (S i) xs'
  end.

Definition emitted_blocks (content : string) : list (nat * string) :=
  List.filter (fun ib => negb (String.eqb (snd ib) ""))
    (enumerate_from 0 (map strip (split content separator))).

(** *** Well-formedness of a graph under construction *)

(** Every edge of [es] starts and ends at the id of a node of [ns]. *)
Definition edges_within (ns : list ScriptGraphNode) (es : list edge) : Prop :=
  Forall (fun e => In (fst e) (map node_id ns) /\ In (snd e) (map node_id ns))
         es.

(** The invariant of the section loop: the ids handed out so far are
    [n_0 .. n_(counter-1)] in the order of the node list, and the edges,
    the previous node and the pending branch ends refer to nodes of the
    list. *)
Record well_formed (st : builder) : Prop := mkWellFormed {
  wf_ids : map node_id (nodes st) = map fresh_id (seq 0 (node_id_counter st));
  wf_connections : edges_within (nodes st) (connections st);
  wf_prev : forall p, prev_node st = Some p -> In p (nodes st);
  wf_ends : Forall (fun n => In n (nodes st)) (conditional_end_nodes st)
}.

(** Every edge of [es] ends at an id [n_j] with [lo <= j]. *)
Definition targets_from (lo : nat) (es : list edge) : Prop :=
  Forall (fun e => exists j, lo <= j /\ snd e = fresh_id j) es.

(** The configuration [_load_node_types_config] falls back to
    (lines 156-169). *)
Definition default_node_types : list (node_type_config regex) :=
  [ mkConfig (Some "start") (Some (cats [Bol; lit "START"]));
    mkConfig (Some "end") (Some (cats [Bol; lit "END"]));
    mkConfig (Some "function")
      (Some (cats [Bol; Star Space; lit "function"; plus Space]));
    mkConfig (Some "function_call")
      (Some (cats [Bol; Star Space; lit "call"; plus Space]));
    mkConfig (Some "jump")
      (Some (cats [Bol; Star Space; lit "jump"; plus Space; lit "to";
                   plus Space]));
    mkConfig (Some "wait") (Some (cats [Bol; Star Space; lit "wait"; plus Space]));
    mkConfig (Some "show") (Some (cats [Bol; Star Space; lit "show"; plus Space]));
    mkConfig (Some "condition") (Some if_pattern) ].

Definition default_default_node_type : string := "dialogue".

Definition default_ignore_patterns : list regex :=
  [ cats [Bol; Star Space; lit "name"; Star Space; lit ":"];
    cats [Bol; Star Space; Eol] ].

End ScriptGraph.

(* ================================================================== *)
(** ** Fold ranges (code_editor.py, lines 442-527)                     *)
(* ================================================================== *)

Module Folding.
Import Text Re.

(** [r'^\s*(function|call)\b'] *)
Definition function_start : regex :=
  cats [Bol; Star Space; Alt (lit "function") (lit "call"); Wb].

(** [r'^\s*end\b'] *)
Definition function_end : regex := cats [Bol; Star Space; lit "end"; Wb].

(** [r'^\s*If\s+Show\s+Variant\b'] *)
Definition variant_start : regex :=
  cats [Bol; Star Space; lit "If"; plus Space; lit "Show"; plus Space;
        lit "Variant"; Wb].

(** [r'^\s*endif\b'] *)
Definition variant_end : regex := cats [Bol; Star Space; lit "endif"; Wb].

(** The pattern of lines 471 and 480, [^\s*name\s*:\s*.*] with its first
    [\s*] in a group. *)
Definition name_header : regex :=
  cats [Bol; Star Space; lit "name"; Star Space; lit ":"; Star Space; Star Dot].

(** [r'^\s*---\s*$'] *)
Definition separator_line : regex :=
  cats [Bol; Star Space; lit "---"; Star Space; Eol].

(** The locals of [compute_fold_ranges]: the mapping being built and the
    two stacks (the head of the list is the top of the stack, where
    [append] pushes and [pop] pops). *)
Record scan : Type := mkScan {
  ranges : gmap nat nat;
  func_stack : list (nat * string);
  if_stack : list (nat * string)
}.

(** The inner [while search_block.isValid()] (lines 477-484): [following]
    are the blocks after the header, [i] the number of the first of
    them. *)
Fixpoint name_block_end (following : list string) (i end_line : nat) : nat :=
  match following with
  | [] => end_line
  | next_text :: following' =>
      if re_match separator_line next_text || re_match name_header next_text
      then end_line
      else name_block_end following' (i + 1) i
  end.

(** The body of [while block.isValid()] (lines 453-487) for the block
    [text] with number [line_no]. *)
Definition scan_block (line_no : nat) (text : string)
  (following : list string) (st : scan) : scan :=
  let st :=
    if re_match function_start text
    then mkScan (ranges st) ((line_no, text) :: func_stack st) (if_stack st)
    else st in
  let st :=
    if re_match function_end text then
      match func_stack st with
      | (start, _) :: stack' =>
          mkScan (<[start := line_no]> (ranges st)) stack' (if_stack st)
      | [] => st
      end
    else st in
  let st :=
    if re_match variant_start text
    then mkScan (ranges st) (func_stack st) ((line_no, text) :: if_stack st)
    else st in
  let st :=
    if re_match variant_end text then
      match if_stack st with
      | (start, _) :: stack' =>
          mkScan (<[start := line_no]> (ranges st)) (func_stack st) stack'
      | [] => st
      end
    else st in
  if re_match name_header text then
    let end_line := name_block_end following (line_no + 1) line_no in
    if line_no <? end_line
    then mkScan (<[line_no := end_line]> (ranges st)) (func_stack st) (if_stack st)
    else st
  else st.

(** The loop over the blocks of the document (lines 452-489). *)
Fixpoint scan_blocks (line_no : nat) (blocks : list string) (st : scan) : scan :=
  match blocks with
  | [] => st
  | text :: following =>
      scan_blocks (line_no + 1) following (scan_block line_no text following st)
  end.

(** The folding attributes of the editor: [_fold_ranges] and [_folded]. *)
Record editor : Type := mkEditor {
  fold_ranges : gmap nat nat;
  folded : gset nat
}.

(** The state set up by [CodeEditor.__init__] (lines 123-124). *)
Definition new_editor : editor := mkEditor ∅ ∅.

(** [compute_fold_ranges] on a document whose blocks have the texts
    [doc]. *)
Definition compute_fold_ranges (doc : list string) (ed : editor) : editor :=
  let fold_ranges := ranges (scan_blocks 0 doc (mkScan ∅ [] [])) in
  mkEditor fold_ranges (filter (fun s => s ∈ dom fold_ranges) (folded ed)).

(** [toggle_fold_at_line] on the folding attributes; the visibility of
    the blocks, which [_apply_fold] changes, is added in [Visibility]. *)
Definition toggle_fold_at_line (block_number : nat) (ed : editor) : editor :=
  if decide (block_number ∈ dom (fold_ranges ed)) then
    if decide (block_number ∈ folded ed)
    then mkEditor (fold_ranges ed) (folded ed ∖ {[block_number]})
    else mkEditor (fold_ranges ed) ({[block_number]} ∪ folded ed)
  else ed.

(** What happens to an editor: its text changes to [doc] (the signals
    [textChanged] and [blockCountChanged] call [compute_fold_ranges]), or
    the gutter is clicked at a line. *)
Inductive event : Type :=
| TextChanged (doc : list string)
| GutterClicked (block_number : nat).

Definition handle (ed : editor) (e : event) : editor :=
  match e with
  | TextChanged doc => compute_fold_ranges doc ed
  | GutterClicked n => toggle_fold_at_line n ed
  end.

Definition run (events : list event) : editor :=
  fold_left handle events new_editor.

End Folding.

(* ================================================================== *)
(** ** Autocomplete (code_editor.py, lines 568-678)                    *)
(* ================================================================== *)

Module Autocomplete.
Import Text Py.

(** The candidate lists read off the parent window with
    [getattr(self.parent_window, name, [])]. *)
Record parent_window : Type := mkParent {
  dialog_cache : list string;
  snil_commands : list string;
  character_cache : list string
}.

(** The autocomplete state of the editor: the flag
    [is_autocomplete_active], the items of the popup and whether it is
    shown. *)
Record popup_state : Type := mkPopup {
  is_autocomplete_active : bool;
  popup_items : list string;
  popup_visible : bool
}.

(** A [QTextCursor] inside the current block: its anchor and position. *)
Record text_cursor : Type := mkCursor {
  anchor : nat;
  position : nat
}.

(** [cursor.insertText(text)]: the text between anchor and position is
    replaced. *)
Definition insert_text (cursor : text_cursor) (text line : string) : string :=
  take (Nat.min (anchor cursor) (position cursor)) line
  +:+ text
  +:+ drop (Nat.max (anchor cursor) (position cursor)) line.

(** [s[i]]. *)
Definition char_at (s : string) (i : nat) : result ascii :=
  match String.get i s with
  | Some c => Ok c
  | None => IndexError
  end.

(** [s[a:b]] for [0 <= a] and [0 <= b]. *)
Definition slice (a b : nat) (s : string) : string := drop a (take b s).

(** [c in [' ', ':', '\t', '\n', '\r']]. *)
Definition is_delimiter (c : ascii) : bool :=
  let n := nat_of_ascii c in
  (n =? 32) || (n =? 58) || (n =? 9) || (n =? 10) || (n =? 13).

(** Lines 594-598 and 665-669: [start_pos] after
    [for i in range(n - 1, -1, -1)]. *)
Fixpoint word_start (current_line : string) (n : nat) : result nat :=
  match n with
  | 0 => Ok 0
  | S i =>
      c ← char_at current_line i;
      if is_delimiter c then Ok (i + 1) else word_start current_line i
  end.

(** [popup.update_items(items)] followed by [popup.show_popup(pos)], which
    shows the popup when it has an item; then the flag is set. *)
Definition show_items (items : list string) (st : popup_state) : popup_state :=
  mkPopup true items
    (match items with [] => popup_visible st | _ => true end).

(** [[x for x in xs if x.lower().startswith(word.lower())]]. *)
Definition filter_prefix (word : string) (xs : list string) : list string :=
  List.filter (fun x => startswith (lower x) (lower word)) xs.

Section Editor.

(** [self.jump_to_prefix], ["Jump To "] unless reassigned. *)
Variable jump_to_prefix : string.

(** [cursor.movePosition(QTextCursor.EndOfLine)] (line 656) moves the
    cursor to the end of the visual line it is on: [QPlainTextEdit] wraps
    long blocks, and the editor leaves this on, so a block is laid out in
    one or more visual lines. [end_of_line current_line cursor_pos] is
    the position in the block at which the visual line of the cursor
    ends. The layout is Qt's; it depends on the width of the editor and
    on the font, and is a parameter here. *)
Variable end_of_line : string -> nat -> nat.

(** [_show_autocomplete] (lines 568-642) with the text of the current
    block and the cursor's position in it. *)
Definition show_autocomplete (parent : option parent_window)
  (current_line : string) (cursor_pos : nat) (st : popup_state)
  : result popup_state :=
  match parent with
  | None => Ok st
  | Some w =>
      let prefix := take cursor_pos current_line in
      if endswith (lower prefix) (lower jump_to_prefix) then
        match dialog_cache w with
        | [] => Ok st
        | dialog_names => Ok (show_items dialog_names st)
        end
      else if (0 <? cursor_pos) && (cursor_pos <=? String.length current_line)
      then
        start_pos ← word_start current_line cursor_pos;
        let current_word := slice start_pos cursor_pos current_line in
        match current_word with
        | String c0 _ =>
            if is_alpha c0 && (2 <=? String.length current_word) then
              let line_before_cursor := strip (take start_pos current_line) in
              let is_empty_line := String.length line_before_cursor =? 0 in
              let st :=
                if is_empty_line then
                  match filter_prefix current_word (snil_commands w) with
                  | [] => st
                  | filtered_commands => show_items filtered_commands st
                  end
                else st in
              match filter_prefix current_word (character_cache w) with
              | [] => Ok st
              | filtered_chars =>
                  if is_autocomplete_active st
                  then Ok (mkPopup (is_autocomplete_active st)
                             (popup_items st ++ filtered_chars)
                             (popup_visible st))
                  else Ok (show_items filtered_chars st)
              end
            else Ok st
        | "" => Ok st
        end
      else Ok st
  end.

(** The selection made on the "Jump To" path (lines 656-659): the cursor
    is moved to the end of its visual line and then, keeping the anchor,
    to the end of the last occurrence of the prefix. *)
Definition jump_selection (current_line : string)
  (cursor_pos prefix_pos : nat) : text_cursor :=
  mkCursor (end_of_line current_line cursor_pos)
           (prefix_pos + String.length jump_to_prefix).

(** The selection made on the word path (lines 672-674). *)
Definition word_selection (start_pos cursor_pos : nat) : text_cursor :=
  mkCursor start_pos (start_pos + (cursor_pos - start_pos)).

(** [_insert_autocomplete_item] (lines 644-678): the text of the current
    block afterwards, and the autocomplete state. *)
Definition insert_autocomplete_item (item_text : string)
  (current_line : string) (cursor_pos : nat) (st : popup_state)
  : result (string * popup_state) :=
  if is_autocomplete_active st then
    line ←
      match rfind (lower current_line) (lower jump_to_prefix) with
      | Some prefix_pos =>
          Ok (insert_text (jump_selection current_line cursor_pos prefix_pos)
                item_text current_line)
      | None =>
          start_pos ← word_start current_line cursor_pos;
          Ok (insert_text (word_selection start_pos cursor_pos)
                item_text current_line)
      end;
    Ok (line, mkPopup false (popup_items st) false)
  else Ok (current_line, st).

End Editor.

(** The prefix set in [CodeEditor.__init__] (line 106). *)
Definition default_jump_to_prefix : string := "Jump To ".

(** The layout of a block that fits in one visual line: the line ends
    where the block ends. *)
Definition one_visual_line (current_line : string) (cursor_pos : nat) : nat :=
  String.length current_line.

(** The layout of a block whose visual lines end at the positions [ends],
    in increasing order, and the last one at the end of the block: the
    cursor is on the first of them that ends at or after it. *)
Fixpoint visual_lines (ends : list nat) (current_line : string)
  (cursor_pos : nat) : nat :=
  match ends with
  | [] => String.length current_line
  | e :: ends' =>
      if cursor_pos <=? e then e
      else visual_lines ends' current_line cursor_pos
  end.

End Autocomplete.

(* ================================================================== *)
(** ** Shapes of the pre-scan's groups and of the graph                *)
(* ================================================================== *)

Module GraphShape.
Import Text Re Py ScriptGraph.

(** The lines an element of [processed_lines] holds. *)
Definition item_lines (it : item) : list string :=
  match it with
  | Conditional conditional_block => conditional_block
  | Normal item_lines => item_lines
  end.

(** [line.lower() == 'endif'] *)
Definition is_endif (line : string) : bool := String.eqb (lower line) "endif".

(** What the pre-scan makes: a normal item is one line that does not open
    a block; a block starts with a line that opens one and has no [endif]
    before its last line. *)
Definition well_grouped (it : item) : bool :=
  match it with
  | Normal [line] => negb (is_conditional_start line)
  | Normal _ => false
  | Conditional [] => false
  | Conditional (l0 :: ls) =>
      is_conditional_start l0
      && forallb (fun l => negb (is_endif l)) (removelast ls)
  end.

(** The lines [true:], [false:] and [endif] of
    [_parse_conditional_block]. *)
Definition is_marker (line : string) : bool :=
  String.eqb (lower line) "true:" || String.eqb (lower line) "false:"
  || String.eqb (lower line) "endif".

(** The stripped lines of a block's tail before its first marker. *)
Fixpoint preamble (ls : list string) : list string :=
  match ls with
  | [] => []
  | l :: ls' => if is_marker (strip l) then [] else strip l :: preamble ls'
  end.

(** [content += f"\n{line}"] for each of [more] in turn. *)
Definition join_content (first : string) (more : list string) : string :=
  fold_left (fun acc line => acc +:+ nl +:+ line) more first.

(** The edge [e] goes from [n_i] to [n_j] with [lo <= i < j < hi]. *)
Definition between (lo hi : nat) (e : edge) : Prop :=
  exists i j,
    lo <= i /\ i < j /\ j < hi /\ fst e = fresh_id i /\ snd e = fresh_id j.

Section Builder.

Context {P : Type} `{Pattern P}.
Variable node_types : list (node_type_config P).
Variable default_node_type : string.

(** The nodes [process_branch] makes for lines that are not blank, the
    first of them with the id [n_k]. *)
Definition branch_nodes_of (k : nat) (block : list string)
  : list ScriptGraphNode :=
  map (fun il =>
         mkNode (fresh_id (fst il))
           (branch_line_type node_types default_node_type (snd il)) (snd il))
      (enumerate_from k
         (List.filter (fun l => negb (String.eqb (strip l) "")) block)).

(** The state of the section loop while no block has been met: the edges
    chain the nodes, the previous node is the last one, nothing is
    pending, and every node has the type of the first matching rule. *)
Definition straight (st : builder) : Prop :=
  conditional_end_nodes st = []
  /\ connections st = chain (nodes st)
  /\ prev_node st = last (nodes st)
  /\ Forall
       (fun n =>
          node_type n = main_line_type node_types default_node_type (content n))
       (nodes st).

End Builder.

(** [all(c.isspace() for c in w)] *)
Fixpoint all_space (w : string) : bool :=
  match w with
  | "" => true
  | String c w' => is_space c && all_space w'
  end.

End GraphShape.

(* ================================================================== *)
(** ** Folding and the visibility of blocks (code_editor.py, 496-527)  *)
(* ================================================================== *)

Module Visibility.
Import Text Re Folding.

(** The first character of a line that is not white space. *)
Definition first_char (s : string) : option ascii :=
  match lstrip s with
  | String c _ => Some c
  | "" => None
  end.

(** The letters with which the lines that the fold patterns match begin,
    case ignored. *)
Definition starts_e (c : ascii) : bool := Ascii.eqb (lower_char "e") (lower_char c).

Definition starts_i (c : ascii) : bool := Ascii.eqb (lower_char "I") (lower_char c).

Definition starts_f_or_c (c : ascii) : bool :=
  Ascii.eqb (lower_char "f") (lower_char c)
  || Ascii.eqb (lower_char "c") (lower_char c).

(** What the loop of [compute_fold_ranges] keeps true on a document of [n]
    lines: every range ends after its start and inside the document, and
    the lines on the two stacks come before the bounds [bf] and [bi]. *)
Definition scan_ok (n bf bi : nat) (st : scan) : Prop :=
  map_Forall (fun s e => s < e /\ e < n) (ranges st)
  /\ Forall (fun p => fst p < bf) (func_stack st)
  /\ Forall (fun p => fst p < bi) (if_stack st).

(** A range from [s] to [e] in the document [doc] is the range of a
    function block, which starts at a line the function pattern matches
    and ends at an [end] line, or of a variant block, from an
    [If Show Variant] line to an [endif] line, or starts at a [name:]
    line. *)
Definition range_kind (doc : list string) (s e : nat) : Prop :=
  exists t,
    doc !! s = Some t
    /\ ((re_match function_start t = true
         /\ exists te, doc !! e = Some te /\ re_match function_end te = true)
        \/ (re_match variant_start t = true
            /\ exists te, doc !! e = Some te
                          /\ re_match variant_end te = true)
        \/ re_match name_header t = true).

(** What the loop of [compute_fold_ranges] keeps true of the kinds: every
    range has a kind, and the stacks hold lines of the document with
    their numbers, matched by the pattern of the stack. *)
Definition scan_kinds (doc : list string) (st : scan) : Prop :=
  map_Forall (range_kind doc) (ranges st)
  /\ Forall (fun p => doc !! fst p = Some (snd p)
                      /\ re_match function_start (snd p) = true)
       (func_stack st)
  /\ Forall (fun p => doc !! fst p = Some (snd p)
                      /\ re_match variant_start (snd p) = true)
       (if_stack st).

(** The body of the loop of [_apply_fold] for the block number [n]: the
    block is skipped when [findBlockByNumber(n)] is not valid, and
    otherwise [block.setVisible(unfold)]. [hidden] are the numbers of the
    blocks that are not visible. *)
Definition set_visible (block_count : nat) (unfold : bool)
  (hidden : gset nat) (n : nat) : gset nat :=
  if n <? block_count then
    if unfold then hidden ∖ {[n]} else {[n]} ∪ hidden
  else hidden.

(** [_apply_fold(start, unfold)] on a document of [block_count] blocks. *)
Definition apply_fold (ed : editor) (block_count start : nat) (unfold : bool)
  (hidden : gset nat) : gset nat :=
  match fold_ranges ed !! start with
  | None => hidden
  | Some end_line =>
      if end_line <=? start then hidden
      else fold_left (set_visible block_count unfold)
             (seq (start + 1) (end_line - start)) hidden
  end.

(** The folding attributes together with the visibility of the blocks. *)
Record view : Type := mkView {
  view_editor : editor;
  hidden : gset nat
}.

(** [toggle_fold_at_line] with what [_apply_fold] does to the blocks. *)
Definition toggle_fold (block_count block_number : nat) (v : view) : view :=
  let ed := view_editor v in
  if decide (block_number ∈ dom (fold_ranges ed)) then
    if decide (block_number ∈ folded ed)
    then mkView (mkEditor (fold_ranges ed) (folded ed ∖ {[block_number]}))
                (apply_fold ed block_count block_number true (hidden v))
    else mkView (mkEditor (fold_ranges ed) ({[block_number]} ∪ folded ed))
                (apply_fold ed block_count block_number false (hidden v))
  else v.

End Visibility.

(* ================================================================== *)
(** ** The rows of the completion popup (autocomplete_popup.py)        *)
(* ================================================================== *)

Module Popup.

(** The list widget: its items and [currentRow()], which is [-1] when no
    item is current. *)
Record list_widget : Type := mkList {
  items : list string;
  current_row : Z
}.

(** [self.count()]. *)
Definition count (p : list_widget) : Z := Z.of_nat (length (items p)).

(** [self.setCurrentRow(row)]: a row outside the list leaves no item
    current. *)
Definition set_current_row (row : Z) (p : list_widget) : list_widget :=
  mkList (items p)
    (if (0 <=? row)%Z && (row <? count p)%Z then row else (-1)%Z).

(** [update_items] (lines 69-79): [clear()], one [addItem] per text, and
    the first row is selected when there is one. *)
Definition update_items (texts : list string) (p : list_widget)
  : list_widget :=
  let p := mkList texts (-1)%Z in
  if (0 <? count p)%Z then set_current_row 0%Z p else p.

(** The branch of [keyPressEvent] for [Qt.Key_Up] (lines 122-127). *)
Definition key_up (p : list_widget) : list_widget :=
  let row := current_row p in
  if (0 <? row)%Z then set_current_row (row - 1)%Z p
  else set_current_row (count p - 1)%Z p.

(** The branch of [keyPressEvent] for [Qt.Key_Down] (lines 128-133). *)
Definition key_down (p : list_widget) : list_widget :=
  let row := current_row p in
  if (row <? count p - 1)%Z then set_current_row (row + 1)%Z p
  else set_current_row 0%Z p.

(** The key pressed [k] times. *)
Definition press (key : list_widget -> list_widget) (k : nat)
  (p : list_widget) : list_widget :=
  Nat.iter k key p.

(** [self.currentItem()]. *)
Definition current_item (p : list_widget) : option string :=
  if (0 <=? current_row p)%Z then List.nth_error (items p) (Z.to_nat (current_row p))
  else None.

End Popup.

(* ================================================================== *)
(** ** The renderer factory (graph/node_renderer_factory.py)           *)
(* ================================================================== *)

Module Renderers.
Import Text.

Section Factory.

(** The renderer objects. *)
Variable renderer : Type.

(** [self.renderers], a dict from names to renderers. *)
Definition factory : Type := gmap string renderer.

(** [NodeRendererFactory.__init__] (lines 13-18) with the three renderers
    it creates. *)
Definition init (standard condition if_show_variant : renderer) : factory :=
  <["standard" := standard]>
    (<["condition" := condition]>
       (<["if_show_variant" := if_show_variant]> ∅)).

(** The key that [get_renderer] (lines 20-30) looks up. *)
Definition renderer_key (node_type node_content : string) : string :=
  let low_content := lower node_content in
  let low_type := lower node_type in
  if contains "if show variant" low_content
     || contains "variants:" low_content
     || contains "variant" low_type
  then "if_show_variant"
  else if String.eqb low_type "condition"
          || String.eqb low_type "conditional"
          || String.eqb low_type "if"
  then "condition"
  else "standard".

(** [get_renderer]: [None] stands for the [KeyError] of a missing key. *)
Definition get_renderer (f : factory) (node_type node_content : string)
  : option renderer :=
  f !! renderer_key node_type node_content.

(** [register_renderer] (lines 32-33). *)
Definition register_renderer (node_type : string) (r : renderer)
  (f : factory) : factory :=
  <[node_type := r]> f.

(** A sequence of [register_renderer] calls. *)
Definition register_all (regs : list (string * renderer)) (f : factory)
  : factory :=
  fold_left (fun f p => register_renderer (fst p) (snd p) f) regs f.

(** The names [get_renderer] can look up. *)
Definition built_in (name : string) : bool :=
  String.eqb name "standard" || String.eqb name "condition"
  || String.eqb name "if_show_variant".

End Factory.

End Renderers.
(* ================================================================== *)
(** ** The layout of the canvas (script_graph.py, 326-332, 381-397)    *)
(* ================================================================== *)

Module Layout.
Import ScriptGraph.

(** [self.width] of a node, set to [260.0] when the node is made and not
    assigned again. The horizontal coordinates are floats in the code;
    they are sums of the whole numbers [100.0], [260.0] and [120.0], which
    floats keep exactly (up to [2^53]), and are whole numbers here. *)
Definition node_width : Z := 260.

(** A node with the [x] it is given. *)
Record placed : Type := mkPlaced {
  placed_node : ScriptGraphNode;
  node_x : Z
}.

(** The loop of [_arrange_horizontal] (lines 327-332) from the value [x]
    of its variable. *)
Fixpoint arrange_from (x : Z) (nodes : list ScriptGraphNode) : list placed :=
  match nodes with
  | [] => []
  | node :: rest =>
      mkPlaced node x :: arrange_from (x + (node_width + 120))%Z rest
  end.

(** [_arrange_horizontal]. *)
Definition arrange_horizontal (nodes : list ScriptGraphNode) : list placed :=
  arrange_from 100%Z nodes.

(** The horizontal coordinate of [exit_port] and of [enter_port]. *)
Definition exit_port_x (p : placed) : Z := (node_x p + node_width)%Z.

Definition enter_port_x (p : placed) : Z := node_x p.

(** [next((n for n in self.nodes if n.id == id), None)] of
    [_draw_link]. *)
Definition find_node (id : string) (ps : list placed) : option placed :=
  List.find (fun p => String.eqb (node_id (placed_node p)) id) ps.

End Layout.
(* ================================================================== *)
(** * Properties                                                       *)
(* ================================================================== *)

(** ** Facts about the string primitives *)

Module TextFacts.
Import Text.

Lemma decimal_inj (n m : nat) : decimal n = decimal m -> n = m.
Proof.
  unfold decimal. intros E.
  apply (f_equal NilEmpty.uint_of_string) in E.
  rewrite !NilEmpty.usu in E.
  injection E as E.
  apply (f_equal Nat.of_uint) in E.
  now rewrite !Unsigned.of_to in E.
Qed.

Lemma length_lower (s : string) : String.length (lower s) = String.length s.
Proof. induction s as [|c s IH]; simpl; congruence. Qed.

Lemma lower_take (n : nat) (s : string) : lower (take n s) = take n (lower s).
Proof.
  revert n. induction s as [|c s IH]; intros [|n]; simpl; try reflexivity.
  now rewrite IH.
Qed.

Lemma lower_drop (n : nat) (s : string) : lower (drop n s) = drop n (lower s).
Proof.
  revert n. induction s as [|c s IH]; intros [|n]; simpl; try reflexivity.
  apply IH.
Qed.

Lemma take_drop (n : nat) (s : string) : take n s +:+ drop n s = s.
Proof.
  revert n. induction s as [|c s IH]; intros [|n]; try reflexivity.
  change (String c (take n s +:+ drop n s) = String c s).
  now rewrite IH.
Qed.

Lemma take_all (n : nat) (s : string) : String.length s <= n -> take n s = s.
Proof.
  revert n. induction s as [|c s IH]; intros [|n]; simpl; intros L;
    try reflexivity; try lia.
  rewrite IH by lia. reflexivity.
Qed.

Lemma drop_all (n : nat) (s : string) : String.length s <= n -> drop n s = "".
Proof.
  revert n. induction s as [|c s IH]; intros [|n]; simpl; intros L;
    try reflexivity; try lia.
  apply IH. lia.
Qed.

Lemma length_take (n : nat) (s : string) :
  String.length (take n s) = Nat.min n (String.length s).
Proof.
  revert n. induction s as [|c s IH]; intros [|n]; simpl; try reflexivity.
  now rewrite IH.
Qed.

Lemma length_drop (n : nat) (s : string) :
  String.length (drop n s) = String.length s - n.
Proof.
  revert n. induction s as [|c s IH]; intros [|n]; simpl; try reflexivity.
  apply IH.
Qed.

End TextFacts.

(** ** Facts about outcomes *)

Module PyFacts.
Import Py.

Lemma bind_Ok {A B : Type} (a : A) (f : A -> result B) : (Ok a ≫= f) = f a.
Proof. reflexivity. Qed.

Lemma skipn_nth_error {A : Type} (xs : list A) (i : nat) (x : A) :
  nth_error xs i = Some x -> skipn i xs = x :: skipn (S i) xs.
Proof.
  revert i. induction xs as [|y xs IH]; intros [|i]; simpl; intros E;
    try discriminate.
  - now injection E as ->.
  - now apply IH.
Qed.

Lemma index_lt {A : Type} (xs : list A) (i : nat) :
  i < length xs ->
  exists x, index xs i = Ok x /\ skipn i xs = x :: skipn (S i) xs.
Proof.
  intros L. unfold index.
  destruct (nth_error xs i) as [x|] eqn:E.
  - exists x. split; [reflexivity|]. now apply skipn_nth_error.
  - apply nth_error_None in E. lia.
Qed.

Lemma for_each_app {A S : Type} (body : S -> A -> result S) (xs ys : list A)
  (st : S) :
  for_each body (xs ++ ys) st = (for_each body xs st ≫= for_each body ys).
Proof.
  revert st. induction xs as [|x xs IH]; intros st; simpl; [reflexivity|].
  destruct (body st x) as [st'| |]; simpl; [apply IH|reflexivity..].
Qed.

Lemma for_each_total {A S : Type} (body : S -> A -> result S) (f : S -> A -> S)
  (xs : list A) (st : S) :
  (forall st x, body st x = Ok (f st x)) ->
  for_each body xs st = Ok (fold_left f xs st).
Proof.
  intros E. revert st. induction xs as [|x xs IH]; intros st; simpl;
    [reflexivity|].
  rewrite E. simpl. apply IH.
Qed.

End PyFacts.

(** ** The loops of the graph builder and their closed forms *)

Module ScriptGraphFacts.
Import Text Re Py ScriptGraph TextFacts PyFacts.

Lemma fresh_id_inj (n m : nat) : fresh_id n = fresh_id m -> n = m.
Proof.
  unfold fresh_id. simpl. intros E. injection E as E. now apply decimal_inj.
Qed.

Lemma collect_block_closed (fuel : nat) (lines : list string) :
  forall (idx : nat) (block : list string),
    length lines - idx < fuel ->
    exists block' idx',
      collect_block fuel lines idx block = Ok (block', idx')
      /\ idx <= idx'
      /\ groups_in block (skipn idx lines)
         = Conditional block' :: groups (skipn idx' lines).
Proof.
  induction fuel as [|fuel IH]; intros idx block L; [lia|].
  simpl. destruct (Nat.ltb_spec idx (length lines)) as [Lt|Ge].
  - destruct (index_lt lines idx Lt) as (x & E1 & E2).
    rewrite E1, bind_Ok, E2, Nat.add_1_r. simpl.
    destruct (String.eqb (lower (strip x)) "endif").
    + exists (block ++ [strip x]), (S idx).
      split; [reflexivity|split; [lia|reflexivity]].
    + destruct (IH (S idx) (block ++ [strip x])) as (b & i & E & Le & G);
        [lia|].
      exists b, i. split; [exact E|split; [lia|exact G]].
  - exists block, idx. rewrite skipn_all2 by lia.
    split; [reflexivity|split; [lia|reflexivity]].
Qed.

Lemma group_lines_closed (fuel : nat) (lines : list string) :
  forall (idx : nat) (processed : list item),
    length lines - idx < fuel ->
    group_lines fuel lines idx processed
    = Ok (processed ++ groups (skipn idx lines)).
Proof.
  induction fuel as [|fuel IH]; intros idx processed L; [lia|].
  cbn [group_lines]. destruct (Nat.ltb_spec idx (length lines)) as [Lt|Ge].
  - destruct (index_lt lines idx Lt) as (x & E1 & E2).
    rewrite E1, bind_Ok, E2. cbn [groups].
    destruct (is_conditional_start (strip x)).
    + destruct (collect_block_closed (S (length lines)) lines (idx + 1)
                  [strip x]) as (b & i & E & Le & G); [lia|].
      rewrite E, bind_Ok. rewrite IH by lia.
      rewrite Nat.add_1_r in G. rewrite G, <- app_assoc. reflexivity.
    + rewrite IH by lia. rewrite Nat.add_1_r, <- app_assoc. reflexivity.
  - rewrite skipn_all2 by lia. simpl. now rewrite app_nil_r.
Qed.

Lemma route_lines_closed (fuel : nat) (lines : list string) :
  forall (i : nat) (c : ScriptGraphNode) (tb fb : list string)
         (cur : block_ref),
    length lines - i < fuel ->
    route_lines fuel lines i c tb fb cur = Ok (route (skipn i lines) c tb fb cur).
Proof.
  induction fuel as [|fuel IH]; intros i c tb fb cur L; [lia|].
  simpl. destruct (Nat.ltb_spec i (length lines)) as [Lt|Ge].
  - destruct (index_lt lines i Lt) as (x & E1 & E2).
    rewrite E1, bind_Ok, E2, Nat.add_1_r. simpl.
    destruct (String.eqb (lower (strip x)) "true:"); [apply IH; lia|].
    destruct (String.eqb (lower (strip x)) "false:"); [apply IH; lia|].
    destruct (String.eqb (lower (strip x)) "endif"); [reflexivity|].
    destruct cur; apply IH; lia.
  - rewrite skipn_all2 by lia. reflexivity.
Qed.

Lemma chain_short (ns : list ScriptGraphNode) : length ns <= 1 -> chain ns = [].
Proof. destruct ns as [|a [|b ns]]; simpl; intros L; [reflexivity..|lia]. Qed.

Lemma chain_edges_from (ns : list ScriptGraphNode) :
  forall (n j : nat) (conns : list edge),
    j + n = length ns - 1 ->
    for_each
      (fun conns j =>
         a ← index ns j;
         b ← index ns (j + 1);
         Ok (conns ++ [(node_id a, node_id b)]))
      (seq j n) conns
    = Ok (conns ++ chain (skipn j ns)).
Proof.
  induction n as [|n IH]; intros j conns E; simpl.
  - rewrite chain_short, app_nil_r; [reflexivity|].
    rewrite length_skipn. lia.
  - destruct (index_lt ns j) as (a & Ea & Sa); [lia|].
    destruct (index_lt ns (j + 1)) as (b & Eb & Sb); [lia|].
    unfold mbind, result_bind. rewrite Ea, Eb.
    fold (@mbind result _). rewrite IH by lia. rewrite Sa. rewrite Nat.add_1_r in Sb. rewrite Sb.
    simpl. now rewrite <- app_assoc.
Qed.

Lemma chain_edges_closed (ns : list ScriptGraphNode) (conns : list edge) :
  chain_edges ns conns = Ok (conns ++ chain ns).
Proof. unfold chain_edges. now rewrite chain_edges_from by lia. Qed.

Lemma branch_edges_closed (c : ScriptGraphNode) (ns : list ScriptGraphNode)
  (conns : list edge) :
  branch_edges c ns conns = Ok (conns ++ branch_conns c ns).
Proof.
  destruct ns as [|n0 ns]; [simpl; now rewrite app_nil_r|].
  unfold branch_edges, index. cbn [nth_error].
  rewrite bind_Ok, chain_edges_closed, <- app_assoc. reflexivity.
Qed.

Lemma nth_error_last {A : Type} (xs : list A) (x d : A) :
  nth_error (x :: xs) (length xs) = Some (List.last (x :: xs) d).
Proof.
  revert x. induction xs as [|y xs IH]; intros x; [reflexivity|].
  change (nth_error (y :: xs) (length xs) = Some (List.last (y :: xs) d)).
  apply IH.
Qed.

Lemma branch_tail_closed (c : ScriptGraphNode) (ns : list ScriptGraphNode) :
  branch_tail c ns = Ok (List.last ns c).
Proof.
  destruct ns as [|n0 ns]; [reflexivity|].
  unfold branch_tail, index_last, index.
  replace (length (n0 :: ns) - 1) with (length ns) by (simpl; lia).
  now rewrite (nth_error_last ns n0 c).
Qed.

Section Builder.

Context {P : Type} `{Pattern P}.
Variable node_types : list (node_type_config P).
Variable default_node_type : string.
Variable ignore_patterns : list P.

Abbreviation parse_conditional_block :=
  (parse_conditional_block node_types default_node_type).
Abbreviation conditional_result :=
  (conditional_result node_types default_node_type).
Abbreviation process_branch := (process_branch node_types default_node_type).
Abbreviation add_item := (add_item node_types default_node_type ignore_patterns).
Abbreviation add_line := (add_line node_types default_node_type ignore_patterns).
Abbreviation step := (step node_types default_node_type ignore_patterns).
Abbreviation steps := (steps node_types default_node_type ignore_patterns).
Abbreviation build_graph :=
  (build_graph node_types default_node_type ignore_patterns).
Abbreviation graph_of := (graph_of node_types default_node_type ignore_patterns).

Lemma parse_conditional_block_closed (lines : list string) (start_id : nat) :
  parse_conditional_block lines start_id
  = Ok (conditional_result lines start_id).
Proof.
  destruct lines as [|l0 ls]; [reflexivity|].
  unfold ScriptGraph.parse_conditional_block, ScriptGraph.conditional_result,
    branches, index.
  cbn [nth_error]. rewrite bind_Ok.
  rewrite route_lines_closed by (simpl; lia).
  change (skipn 1 (l0 :: ls)) with ls.
  destruct (route ls _ [] [] NoBlock) as [[c tb] fb]. rewrite bind_Ok.
  destruct (process_branch tb (start_id + 1)) as [t k].
  destruct (process_branch fb k) as [f k'].
  cbv beta iota zeta.
  rewrite branch_edges_closed, bind_Ok, branch_edges_closed, bind_Ok.
  rewrite !branch_tail_closed. reflexivity.
Qed.

Lemma add_item_closed (st : builder) (it : item) :
  add_item st it = Ok (step st it).
Proof.
  destruct it as [ls|ls]; [|reflexivity].
  unfold ScriptGraph.add_item, ScriptGraph.step.
  rewrite parse_conditional_block_closed, bind_Ok.
  destruct (conditional_result ls (node_id_counter st))
    as [[[c_nodes c_conns] l_true] l_false].
  unfold entry_edge.
  destruct (prev_node st) as [p|]; destruct c_nodes as [|c0 cs];
    unfold index; cbn [nth_error]; rewrite ?bind_Ok, ?app_nil_r, ?app_assoc;
    reflexivity.
Qed.

Lemma build_graph_closed (lines : list string) :
  build_graph lines = Ok (graph_of lines).
Proof.
  unfold ScriptGraph.build_graph, ScriptGraph.graph_of.
  rewrite group_lines_closed by lia. rewrite bind_Ok. cbn [skipn app].
  rewrite (for_each_total _ step) by apply add_item_closed.
  reflexivity.
Qed.

End Builder.

End ScriptGraphFacts.

(** ** The invariant of the section loop *)

Module BuilderInvariant.
Import Text Re Py ScriptGraph TextFacts PyFacts ScriptGraphFacts.

Lemma NoDup_fresh_ids (k n : nat) : List.NoDup (map fresh_id (seq k n)).
Proof.
  revert k. induction n as [|n IH]; intros k; [constructor|].
  cbn [seq map]. constructor; [|apply IH].
  intros I. apply in_map_iff in I as (j & E & I).
  apply fresh_id_inj in E. apply in_seq in I. lia.
Qed.

Lemma edges_within_app (ns : list ScriptGraphNode) (es1 es2 : list edge) :
  edges_within ns es1 -> edges_within ns es2 -> edges_within ns (es1 ++ es2).
Proof. unfold edges_within. intros. now apply List.Forall_app. Qed.

Lemma edges_within_mono (ns ns' : list ScriptGraphNode) (es : list edge) :
  incl ns ns' -> edges_within ns es -> edges_within ns' es.
Proof.
  unfold edges_within. intros I. apply List.Forall_impl. intros e [A B].
  split; eapply incl_map; eauto.
Qed.

Lemma edge_within (ns : list ScriptGraphNode) (a b : ScriptGraphNode) :
  In a ns -> In b ns -> edges_within ns [(node_id a, node_id b)].
Proof.
  intros A B. constructor; [|constructor].
  simpl. split; now apply in_map.
Qed.

Lemma chain_within (ns : list ScriptGraphNode) : edges_within ns (chain ns).
Proof.
  induction ns as [|a ns IH]; [constructor|].
  destruct ns as [|b ns]; [constructor|].
  change (chain (a :: b :: ns)) with ((node_id a, node_id b) :: chain (b :: ns)).
  constructor.
  - simpl. auto.
  - eapply List.Forall_impl; [|exact IH]. simpl. intros e [A B]. auto.
Qed.

Lemma branch_conns_within (c : ScriptGraphNode) (ns : list ScriptGraphNode) :
  edges_within (c :: ns) (branch_conns c ns).
Proof.
  destruct ns as [|n0 ns]; [constructor|].
  unfold branch_conns. constructor.
  - simpl. auto.
  - apply (edges_within_mono (n0 :: ns)); [|apply chain_within].
    apply incl_tl, incl_refl.
Qed.

Lemma last_in {A : Type} (xs : list A) (d : A) : In (List.last xs d) (d :: xs).
Proof.
  induction xs as [|x xs IH]; [now left|].
  destruct xs as [|y xs]; [right; now left|].
  change (List.last (x :: y :: xs) d) with (List.last (y :: xs) d).
  destruct IH as [E|I]; [now left|right; now right].
Qed.

Lemma route_id (ls : list string) :
  forall (c : ScriptGraphNode) (tb fb : list string) (cur : block_ref),
    node_id (fst (fst (route ls c tb fb cur))) = node_id c.
Proof.
  induction ls as [|l ls IH]; intros c tb fb cur; [reflexivity|].
  simpl.
  destruct (String.eqb (lower (strip l)) "true:"); [apply IH|].
  destruct (String.eqb (lower (strip l)) "false:"); [apply IH|].
  destruct (String.eqb (lower (strip l)) "endif"); [reflexivity|].
  destruct cur; rewrite IH; reflexivity.
Qed.

Section Builder.

Context {P : Type} `{Pattern P}.
Variable node_types : list (node_type_config P).
Variable default_node_type : string.
Variable ignore_patterns : list P.

Abbreviation conditional_result :=
  (conditional_result node_types default_node_type).
Abbreviation process_branch := (process_branch node_types default_node_type).
Abbreviation branch_step := (branch_step node_types default_node_type).
Abbreviation branches := (branches node_types default_node_type).
Abbreviation add_line := (add_line node_types default_node_type ignore_patterns).
Abbreviation step := (step node_types default_node_type ignore_patterns).
Abbreviation steps := (steps node_types default_node_type ignore_patterns).
Abbreviation graph_of := (graph_of node_types default_node_type ignore_patterns).

(** The nodes of a branch get the ids from [k] on, and the counter moves
    past them. *)
Lemma branch_fold_ids (k : nat) (block : list string) :
  forall (acc : list ScriptGraphNode) (c : nat),
    map node_id acc = map fresh_id (seq k (length acc)) ->
    c = k + length acc ->
    map node_id (fst (fold_left branch_step block (acc, c)))
    = map fresh_id
        (seq k (length (fst (fold_left branch_step block (acc, c)))))
    /\ snd (fold_left branch_step block (acc, c))
       = k + length (fst (fold_left branch_step block (acc, c))).
Proof.
  induction block as [|l block IH]; intros acc c I C; [now split|].
  cbn [fold_left].
  assert (exists acc' c',
             branch_step (acc, c) l = (acc', c')
             /\ map node_id acc' = map fresh_id (seq k (length acc'))
             /\ c' = k + length acc') as (acc' & c' & E & I' & C').
  { unfold ScriptGraph.branch_step.
    destruct (String.eqb (strip l) ""); [now exists acc, c|].
    eexists _, _. split; [reflexivity|]. split.
    - rewrite length_app, map_app, seq_app, map_app, I. simpl. now subst c.
    - rewrite length_app. simpl. lia. }
  rewrite E. now apply IH.
Qed.

Lemma process_branch_ids (block : list string) (k : nat) :
  map node_id (fst (process_branch block k))
  = map fresh_id (seq k (length (fst (process_branch block k))))
  /\ snd (process_branch block k) = k + length (fst (process_branch block k)).
Proof.
  apply (branch_fold_ids k block [] k); [reflexivity|simpl; lia].
Qed.

Lemma branches_ids (l0 : string) (ls : list string) (k : nat) :
  let '(c, t, f) := branches l0 ls k in
  map node_id (c :: t ++ f) = map fresh_id (seq k (length (c :: t ++ f))).
Proof.
  unfold ScriptGraph.branches.
  pose proof (route_id ls (mkNode (fresh_id k) "if_show_variant" (strip l0))
                [] [] NoBlock) as R.
  destruct (route ls _ [] [] NoBlock) as [[c tb] fb]. simpl in R.
  pose proof (process_branch_ids tb (k + 1)) as [T1 T2].
  destruct (process_branch tb (k + 1)) as [t k1]. simpl in T1, T2.
  pose proof (process_branch_ids fb k1) as [F1 _].
  destruct (process_branch fb k1) as [f k2]. simpl in F1.
  subst k1.
  cbn [map length seq]. rewrite R. f_equal.
  rewrite length_app, map_app, seq_app, map_app, T1, F1.
  now rewrite Nat.add_1_r.
Qed.

Lemma conditional_result_ids (lines : list string) (k : nat) :
  map node_id (fst (fst (fst (conditional_result lines k))))
  = map fresh_id
      (seq k (length (fst (fst (fst (conditional_result lines k)))))).
Proof.
  destruct lines as [|l0 ls]; [reflexivity|].
  unfold ScriptGraph.conditional_result.
  pose proof (branches_ids l0 ls k) as B.
  destruct (branches l0 ls k) as [[c t] f]. exact B.
Qed.

Lemma conditional_result_within (lines : list string) (k : nat) :
  let '(c_nodes, c_conns, l_true, l_false) := conditional_result lines k in
  edges_within c_nodes c_conns
  /\ (forall n, l_true = Some n -> In n c_nodes)
  /\ (forall n, l_false = Some n -> In n c_nodes).
Proof.
  destruct lines as [|l0 ls].
  - simpl. split; [constructor|]. split; intros n E; discriminate.
  - unfold ScriptGraph.conditional_result.
    destruct (branches l0 ls k) as [[c t] f].
    split; [|split].
    + apply edges_within_app.
      * apply (edges_within_mono (c :: t)); [|apply branch_conns_within].
        intros x [E|I]; [now left|right; apply in_app_iff; now left].
      * apply (edges_within_mono (c :: f)); [|apply branch_conns_within].
        intros x [E|I]; [now left|right; apply in_app_iff; now right].
    + intros n E. injection E as <-.
      destruct (last_in t c) as [E|I]; [now left|].
      right. apply in_app_iff. now left.
    + intros n E. injection E as <-.
      destruct (last_in f c) as [E|I]; [now left|].
      right. apply in_app_iff. now right.
Qed.

Lemma add_line_wf (st : builder) (line : string) :
  well_formed st -> well_formed (add_line st line).
Proof.
  intros [I C Pv E]. unfold ScriptGraph.add_line.
  destruct (is_ignored ignore_patterns line); [now constructor|].
  set (node := mkNode _ _ line).
  assert (In node (nodes st ++ [node])) as Hn
    by (apply in_app_iff; right; now left).
  assert (incl (nodes st) (nodes st ++ [node])) as Hi
    by (apply incl_appl, incl_refl).
  constructor; cbn [nodes connections node_id_counter prev_node
                    conditional_end_nodes].
  - rewrite map_app, I, Nat.add_1_r, seq_S, map_app. reflexivity.
  - assert (edges_within (nodes st ++ [node])
              (connections st
               ++ map (fun ce => (node_id ce, node_id node))
                    (conditional_end_nodes st))) as W.
    { apply edges_within_app; [now apply (edges_within_mono (nodes st))|].
      unfold edges_within. apply List.Forall_map.
      eapply List.Forall_impl; [|exact E]. intros n In_n. cbn [fst snd].
      split; [apply in_map; auto|apply (in_map node_id _ node), Hn]. }
    destruct (prev_node st) as [p|] eqn:Ep; [|exact W].
    destruct (conditional_end_nodes st); [|exact W].
    apply edges_within_app; [exact W|].
    apply edge_within; auto.
  - intros p Ep. now injection Ep as <-.
  - constructor.
Qed.

Lemma add_lines_wf (ls : list string) (st : builder) :
  well_formed st -> well_formed (fold_left add_line ls st).
Proof.
  revert st. induction ls as [|l ls IH]; intros st W; [exact W|].
  apply IH. now apply add_line_wf.
Qed.

Lemma step_wf (st : builder) (it : item) :
  well_formed st -> well_formed (step st it).
Proof.
  intros W. destruct it as [ls|ls]; [|now apply add_lines_wf].
  destruct W as [I C Pv E]. unfold ScriptGraph.step.
  pose proof (conditional_result_ids ls (node_id_counter st)) as Ids.
  pose proof (conditional_result_within ls (node_id_counter st)) as Wi.
  destruct (conditional_result ls (node_id_counter st))
    as [[[c_nodes c_conns] l_true] l_false].
  simpl in Ids. destruct Wi as (Wc & Wt & Wf).
  assert (incl (nodes st) (nodes st ++ c_nodes)) as Hl
    by (apply incl_appl, incl_refl).
  assert (incl c_nodes (nodes st ++ c_nodes)) as Hr
    by (apply incl_appr, incl_refl).
  constructor; cbn [nodes connections node_id_counter prev_node
                    conditional_end_nodes].
  - rewrite map_app, I, Ids, seq_app, map_app. reflexivity.
  - apply edges_within_app; [now apply (edges_within_mono (nodes st))|].
    apply edges_within_app; [now apply (edges_within_mono c_nodes)|].
    unfold entry_edge. destruct (prev_node st) as [p|]; [|constructor].
    destruct c_nodes as [|c0 cs]; [constructor|].
    apply edge_within; [apply Hl; auto|apply Hr; now left].
  - discriminate.
  - assert (forall ends l,
              Forall (fun n => In n (nodes st ++ c_nodes)) ends ->
              (forall n, l = Some n -> In n c_nodes) ->
              Forall (fun n => In n (nodes st ++ c_nodes))
                     (append_if_set ends l)) as A.
    { intros ends [n|] F L; [|exact F].
      apply List.Forall_app. split; [exact F|].
      constructor; [apply Hr; auto|constructor]. }
    apply A; [apply A|]; auto.
    eapply List.Forall_impl; [|exact E]. intros n; apply Hl.
Qed.

Lemma steps_wf (items : list item) (st : builder) :
  well_formed st -> well_formed (steps items st).
Proof.
  revert st. induction items as [|it items IH]; intros st W; [exact W|].
  apply IH. now apply step_wf.
Qed.

Lemma initial_wf : well_formed initial.
Proof. constructor; simpl; try constructor. discriminate. Qed.

Lemma wf_length (st : builder) :
  well_formed st -> length (nodes st) = node_id_counter st.
Proof.
  intros [I _ _ _]. apply (f_equal (@length _)) in I.
  now rewrite !length_map, length_seq in I.
Qed.

End Builder.

End BuilderInvariant.

(** ** How the section loop extends the edge list *)

Module BuilderEdges.
Import Text Re Py ScriptGraph TextFacts PyFacts ScriptGraphFacts BuilderInvariant.

Lemma targets_from_app (lo : nat) (es1 es2 : list edge) :
  targets_from lo es1 -> targets_from lo es2 -> targets_from lo (es1 ++ es2).
Proof. unfold targets_from. intros. now apply List.Forall_app. Qed.

Lemma targets_from_le (lo lo' : nat) (es : list edge) :
  lo <= lo' -> targets_from lo' es -> targets_from lo es.
Proof.
  intros L. apply List.Forall_impl. intros e (j & Lj & E).
  exists j. split; [lia|exact E].
Qed.

Lemma targets_of_ids (k : nat) (ns : list ScriptGraphNode) (es : list edge) :
  map node_id ns = map fresh_id (seq k (length ns)) ->
  Forall (fun e => In (snd e) (map node_id ns)) es ->
  targets_from k es.
Proof.
  intros I. apply List.Forall_impl. intros e In_e.
  rewrite I in In_e. apply in_map_iff in In_e as (j & E & In_j).
  apply in_seq in In_j. exists j. split; [lia|now symmetry].
Qed.

Lemma chain_targets (ns : list ScriptGraphNode) :
  Forall (fun e => In (snd e) (map node_id ns)) (chain ns).
Proof.
  induction ns as [|a ns IH]; [constructor|].
  destruct ns as [|b ns]; [constructor|].
  change (chain (a :: b :: ns)) with ((node_id a, node_id b) :: chain (b :: ns)).
  constructor; [simpl; auto|].
  eapply List.Forall_impl; [|exact IH]. intros e In_e. now right.
Qed.

Lemma branch_conns_targets (c : ScriptGraphNode) (ns : list ScriptGraphNode) :
  Forall (fun e => In (snd e) (map node_id ns)) (branch_conns c ns).
Proof.
  destruct ns as [|n0 ns]; [constructor|].
  unfold branch_conns. constructor; [simpl; auto|apply chain_targets].
Qed.

Section Builder.

Context {P : Type} `{Pattern P}.
Variable node_types : list (node_type_config P).
Variable default_node_type : string.
Variable ignore_patterns : list P.

Abbreviation conditional_result :=
  (conditional_result node_types default_node_type).
Abbreviation branches := (branches node_types default_node_type).
Abbreviation add_line := (add_line node_types default_node_type ignore_patterns).
Abbreviation step := (step node_types default_node_type ignore_patterns).
Abbreviation steps := (steps node_types default_node_type ignore_patterns).
Abbreviation is_blank_item := (is_blank_item ignore_patterns).
Abbreviation is_quiet_item := (is_quiet_item ignore_patterns).

(** The edges inside a block end at branch nodes, whose ids come after
    the condition node's. *)
Lemma conditional_result_targets (lines : list string) (k : nat) :
  targets_from (k + 1) (snd (fst (fst (conditional_result lines k)))).
Proof.
  destruct lines as [|l0 ls]; [constructor|].
  unfold ScriptGraph.conditional_result.
  pose proof (branches_ids node_types default_node_type l0 ls k) as B.
  destruct (branches l0 ls k) as [[c t] f]. cbn [fst snd].
  cbn [map length seq] in B. injection B as _ B.
  rewrite Nat.add_1_r.
  apply (targets_of_ids (S k) (t ++ f)); [exact B|].
  apply List.Forall_app. split.
  - eapply List.Forall_impl; [|apply branch_conns_targets].
    intros e In_e. rewrite map_app. apply in_app_iff. now left.
  - eapply List.Forall_impl; [|apply branch_conns_targets].
    intros e In_e. rewrite map_app. apply in_app_iff. now right.
Qed.

Lemma conditional_result_head (lines : list string) (k : nat)
  (c : ScriptGraphNode) :
  hd_error (fst (fst (fst (conditional_result lines k)))) = Some c ->
  node_id c = fresh_id k.
Proof.
  pose proof (conditional_result_ids node_types default_node_type lines k) as I.
  destruct (fst (fst (fst (conditional_result lines k)))) as [|c0 cs];
    [discriminate|].
  intros E. injection E as <-. cbn [map length seq] in I. now injection I.
Qed.

(** One line extends the node list by at most the new node and the edge
    list by edges into it. *)
Lemma add_line_extends (st : builder) (line : string) :
  exists more new,
    nodes (add_line st line) = nodes st ++ more
    /\ connections (add_line st line) = connections st ++ new
    /\ targets_from (node_id_counter st) new
    /\ node_id_counter st <= node_id_counter (add_line st line).
Proof.
  unfold ScriptGraph.add_line.
  destruct (is_ignored ignore_patterns line).
  - exists [], []. rewrite !app_nil_r.
    split; [reflexivity|split; [reflexivity|split; [apply List.Forall_nil|simpl; lia]]].
  - set (node := mkNode (fresh_id (node_id_counter st)) _ line).
    exists [node],
      (map (fun ce => (node_id ce, node_id node)) (conditional_end_nodes st)
       ++ match prev_node st, conditional_end_nodes st with
          | Some p, [] => [(node_id p, node_id node)]
          | _, _ => []
          end).
    cbn [nodes connections node_id_counter].
    split; [reflexivity|]. split; [|split; [|lia]].
    + destruct (prev_node st) as [p|]; [destruct (conditional_end_nodes st)|];
        rewrite <- ?app_assoc, ?app_nil_r; reflexivity.
    + apply targets_from_app.
      * apply List.Forall_map, List.Forall_forall. intros ce _.
        exists (node_id_counter st). split; [lia|reflexivity].
      * destruct (prev_node st) as [p|]; [|constructor].
        destruct (conditional_end_nodes st); [|constructor].
        constructor; [|constructor].
        exists (node_id_counter st). split; [lia|reflexivity].
Qed.

Lemma step_extends (st : builder) (it : item) :
  exists more new,
    nodes (step st it) = nodes st ++ more
    /\ connections (step st it) = connections st ++ new
    /\ targets_from (node_id_counter st) new
    /\ node_id_counter st <= node_id_counter (step st it).
Proof.
  destruct it as [ls|ls].
  - unfold ScriptGraph.step.
    pose proof (conditional_result_targets ls (node_id_counter st)) as T.
    assert (forall c, hd_error (fst (fst (fst (conditional_result ls
                        (node_id_counter st))))) = Some c ->
                      node_id c = fresh_id (node_id_counter st)) as Hd
      by (intros c; apply conditional_result_head).
    destruct (conditional_result ls (node_id_counter st))
      as [[[c_nodes c_conns] l_true] l_false].
    cbn [fst snd] in T, Hd. cbn [nodes connections node_id_counter].
    exists c_nodes, (c_conns ++ entry_edge (prev_node st) c_nodes).
    split; [reflexivity|]. split; [reflexivity|]. split; [|lia].
    apply targets_from_app.
    + apply (targets_from_le _ (node_id_counter st + 1)); [lia|exact T].
    + unfold entry_edge. destruct (prev_node st) as [p|]; [|constructor].
      destruct c_nodes as [|c0 cs]; [constructor|].
      constructor; [|constructor].
      exists (node_id_counter st). split; [lia|]. now apply Hd.
  - cbn [ScriptGraph.step]. revert st.
    induction ls as [|l ls IH]; intros st.
    + exists [], []. rewrite !app_nil_r.
    split; [reflexivity|split; [reflexivity|split; [apply List.Forall_nil|simpl; lia]]].
    + cbn [fold_left].
      destruct (add_line_extends st l) as (m1 & n1 & N1 & C1 & T1 & L1).
      destruct (IH (add_line st l)) as (m2 & n2 & N2 & C2 & T2 & L2).
      exists (m1 ++ m2), (n1 ++ n2).
      rewrite N2, C2, N1, C1, <- !app_assoc.
      split; [reflexivity|split; [reflexivity|split; [|lia]]].
      apply targets_from_app; [exact T1|].
      now apply (targets_from_le _ (node_id_counter (add_line st l))).
Qed.

Lemma steps_extends (items : list item) (st : builder) :
  exists more new,
    nodes (steps items st) = nodes st ++ more
    /\ connections (steps items st) = connections st ++ new
    /\ targets_from (node_id_counter st) new
    /\ node_id_counter st <= node_id_counter (steps items st).
Proof.
  revert st. induction items as [|it items IH]; intros st.
  - exists [], []. rewrite !app_nil_r.
    split; [reflexivity|split; [reflexivity|split; [apply List.Forall_nil|simpl; lia]]].
  - unfold ScriptGraph.steps. cbn [fold_left].
    destruct (step_extends st it) as (m1 & n1 & N1 & C1 & T1 & L1).
    destruct (IH (step st it)) as (m2 & n2 & N2 & C2 & T2 & L2).
    unfold ScriptGraph.steps in N2, C2, L2.
    exists (m1 ++ m2), (n1 ++ n2).
    rewrite N2, C2, N1, C1, <- !app_assoc.
    split; [reflexivity|split; [reflexivity|split; [|lia]]].
    apply targets_from_app; [exact T1|].
    now apply (targets_from_le _ (node_id_counter (step st it))).
Qed.

(** Items without a node leave the builder as it is. *)
Lemma steps_blank (items : list item) (st : builder) :
  forallb is_blank_item items = true -> steps items st = st.
Proof.
  revert st. induction items as [|it items IH]; intros st B; [reflexivity|].
  cbn [forallb] in B. apply andb_true_iff in B as [B1 B2].
  unfold ScriptGraph.steps. cbn [fold_left].
  replace (step st it) with st; [now apply IH|].
  destruct it as [ls|ls]; [discriminate|]. cbn [ScriptGraph.step].
  cbn [ScriptGraph.is_blank_item] in B1. clear IH B2.
  induction ls as [|l ls IHl]; [reflexivity|].
  cbn [forallb] in B1. apply andb_true_iff in B1 as [I1 I2].
  cbn [fold_left]. unfold ScriptGraph.add_line at 2. rewrite I1.
  now apply IHl.
Qed.

Lemma append_if_set_join (ends : list ScriptGraphNode)
  (r : list ScriptGraphNode * list edge
       * option ScriptGraphNode * option ScriptGraphNode) :
  append_if_set (append_if_set ends (snd (fst r))) (snd r)
  = ends ++ join_sources r.
Proof.
  destruct r as [[[ns es] [a|]] [b|]]; simpl;
    rewrite <- ?app_assoc, ?app_nil_r; reflexivity.
Qed.

(** The builder after a conditional block, field by field. *)
Lemma step_conditional (st : builder) (ls : list string) :
  let r := conditional_result ls (node_id_counter st) in
  let st' := step st (Conditional ls) in
  nodes st' = nodes st ++ fst (fst (fst r))
  /\ connections st'
     = connections st ++ snd (fst (fst r))
       ++ entry_edge (prev_node st) (fst (fst (fst r)))
  /\ node_id_counter st' = node_id_counter st + length (fst (fst (fst r)))
  /\ prev_node st' = None
  /\ conditional_end_nodes st' = conditional_end_nodes st ++ join_sources r.
Proof.
  intros r st'. subst st'. unfold ScriptGraph.step.
  rewrite <- (append_if_set_join (conditional_end_nodes st) r). subst r.
  destruct (conditional_result ls (node_id_counter st))
    as [[[c_nodes c_conns] l_true] l_false].
  repeat split.
Qed.

Lemma steps_app (xs ys : list item) (st : builder) :
  steps (xs ++ ys) st = steps ys (steps xs st).
Proof. apply fold_left_app. Qed.

(** The builder after the block [l0 :: ls], in terms of the condition
    node and of the nodes of the two branches: the two nodes left pending
    are the last node of each branch, the condition node standing in for
    an empty branch (line 281). *)
Lemma step_block (st : builder) (l0 : string) (ls : list string) :
  let '(c, t, f) := branches l0 ls (node_id_counter st) in
  let st' := step st (Conditional (l0 :: ls)) in
  nodes st' = nodes st ++ c :: t ++ f
  /\ node_id c = fresh_id (node_id_counter st)
  /\ connections st'
     = connections st ++ snd (fst (fst (conditional_result (l0 :: ls)
                                          (node_id_counter st))))
       ++ entry_edge (prev_node st) (c :: t ++ f)
  /\ prev_node st' = None
  /\ conditional_end_nodes st'
     = conditional_end_nodes st ++ [List.last t c; List.last f c].
Proof.
  pose proof (step_conditional st (l0 :: ls)) as S.
  pose proof (conditional_result_head (l0 :: ls) (node_id_counter st)) as Hd.
  cbv zeta in S. unfold ScriptGraph.join_sources in S.
  unfold ScriptGraph.conditional_result in S, Hd |- *.
  destruct (branches l0 ls (node_id_counter st)) as [[c t] f].
  cbn [fst snd] in S, Hd |- *. destruct S as (N & C & _ & Pv & J).
  split; [exact N|]. split; [now apply Hd|]. split; [exact C|].
  split; [exact Pv|]. exact J.
Qed.

(** Items at which the main line gets no node only add to the pending
    nodes. *)
Lemma steps_quiet (items : list item) :
  forall st : builder,
    forallb is_quiet_item items = true ->
    exists more,
      conditional_end_nodes (steps items st)
      = conditional_end_nodes st ++ more.
Proof.
  induction items as [|it items IH]; intros st Q.
  - exists []. now rewrite app_nil_r.
  - cbn [forallb] in Q. apply andb_true_iff in Q as [Q1 Q2].
    unfold ScriptGraph.steps. cbn [fold_left].
    destruct (IH (step st it) Q2) as [more2 E2].
    unfold ScriptGraph.steps in E2. rewrite E2.
    destruct it as [b|item_lines].
    + destruct (step_conditional st b) as (_ & _ & _ & _ & J).
      rewrite J. rewrite <- app_assoc. eauto.
    + replace (step st (Normal item_lines)) with st; [eauto|].
      symmetry. apply (steps_blank [Normal item_lines] st).
      cbn [forallb]. now rewrite andb_true_r.
Qed.

(** The blocks of the pre-scan have a first line. *)
Lemma groups_blocks (lines : list string) :
  (forall b, In (Conditional b) (groups lines) -> b <> [])
  /\ (forall cb b, cb <> [] -> In (Conditional b) (groups_in cb lines) ->
                   b <> []).
Proof.
  induction lines as [|l lines [IH1 IH2]].
  - split; [intros b []|]. intros cb b N [E|[]]. now injection E as <-.
  - split.
    + intros b I. cbn [groups] in I.
      destruct (is_conditional_start (strip l)).
      * apply (IH2 [strip l] b); [discriminate|exact I].
      * destruct I as [E|I]; [discriminate|now apply IH1].
    + intros cb b N I. cbn [groups_in] in I.
      destruct (String.eqb (lower (strip l)) "endif").
      * destruct I as [E|I]; [|now apply IH1].
        injection E as <-. now destruct cb.
      * apply (IH2 (cb ++ [strip l]) b); [now destruct cb|exact I].
Qed.

End Builder.

End BuilderEdges.

(** ** A block that the end of the section closes *)

Module OpenBlock.
Import Text Re Py ScriptGraph TextFacts PyFacts ScriptGraphFacts.

Lemma lower_char_inv (c d : ascii) :
  lower_char c = d -> c = d \/ c = ascii_of_nat (nat_of_ascii d - 32).
Proof.
  intros <-. destruct c as [[] [] [] [] [] [] [] []]; vm_compute; auto.
Qed.

(** A line that reads [endif] does not open a conditional block. *)
Lemma endif_not_start (s : string) :
  lower s = "endif" -> is_conditional_start s = false.
Proof.
  destruct s as [|c1 [|c2 [|c3 [|c4 [|c5 [|c6 s]]]]]]; simpl; intros E;
    try discriminate E.
  injection E as E1 E2 E3 E4 E5.
  apply lower_char_inv in E1, E2, E3, E4, E5.
  destruct E1 as [-> | ->], E2 as [-> | ->], E3 as [-> | ->],
    E4 as [-> | ->], E5 as [-> | ->]; vm_compute; reflexivity.
Qed.

Lemma start_not_endif (s : string) :
  is_conditional_start s = true -> String.eqb (lower s) "endif" = false.
Proof.
  intros St. destruct (String.eqb_spec (lower s) "endif") as [E|]; [|reflexivity].
  apply endif_not_start in E. congruence.
Qed.

Lemma route_close (ls : list string) :
  forall (c : ScriptGraphNode) (tb fb : list string) (cur : block_ref),
    route (ls ++ ["endif"]) c tb fb cur = route ls c tb fb cur.
Proof.
  induction ls as [|l ls IH]; intros c tb fb cur; [reflexivity|].
  cbn [app route].
  destruct (String.eqb (lower (strip l)) "true:"); [apply IH|].
  destruct (String.eqb (lower (strip l)) "false:"); [apply IH|].
  destruct (String.eqb (lower (strip l)) "endif"); [reflexivity|].
  destruct cur; apply IH.
Qed.

Lemma groups_in_open (ls : list string) :
  forall block : list string,
    Forall (fun l => String.eqb (lower (strip l)) "endif" = false) ls ->
    groups_in block ls = [Conditional (block ++ map strip ls)]
    /\ groups_in block (ls ++ ["endif"])
       = [Conditional ((block ++ map strip ls) ++ ["endif"])].
Proof.
  induction ls as [|x ls IH]; intros block F.
  - simpl. rewrite app_nil_r. split; reflexivity.
  - apply List.Forall_cons_iff in F as [Fx F].
    cbn [app groups_in map]. rewrite Fx.
    destruct (IH (block ++ [strip x]) F) as [A B].
    rewrite A, B, <- !app_assoc. split; reflexivity.
Qed.

(** When a line that opens a block is followed by no [endif], the last
    group is a block that runs from some opening line at or before it to
    the last line; an [endif] added at the end only closes that block. *)
Lemma groups_open (l : string) (rest : list string) :
  is_conditional_start (strip l) = true ->
  Forall (fun l => String.eqb (lower (strip l)) "endif" = false) rest ->
  forall pre : list string,
    (exists processed j,
        j <= length pre
        /\ groups (pre ++ l :: rest)
           = processed ++ [Conditional (map strip (skipn j (pre ++ l :: rest)))]
        /\ groups ((pre ++ l :: rest) ++ ["endif"])
           = processed
             ++ [Conditional (map strip (skipn j (pre ++ l :: rest))
                              ++ ["endif"])])
    /\ (forall block,
          exists processed blk,
            groups_in block (pre ++ l :: rest) = processed ++ [Conditional blk]
            /\ groups_in block ((pre ++ l :: rest) ++ ["endif"])
               = processed ++ [Conditional (blk ++ ["endif"])]
            /\ (blk = block ++ map strip (pre ++ l :: rest)
                \/ exists j,
                     j <= length pre
                     /\ blk = map strip (skipn j (pre ++ l :: rest)))).
Proof.
  intros St F. pose proof (start_not_endif _ St) as Nl.
  induction pre as [|x pre [IH1 IH2]].
  - split.
    + exists [], 0. split; [lia|].
      cbn [app groups skipn]. rewrite St.
      destruct (groups_in_open rest [strip l] F) as [A B].
      rewrite A, B. split; reflexivity.
    + intros block. exists [], (block ++ map strip (l :: rest)).
      destruct (groups_in_open (l :: rest) block) as [A B];
        [constructor; assumption|].
      cbn [app] in *. rewrite A, B. split; [reflexivity|].
      split; [reflexivity|]. now left.
  - split.
    + cbn [app groups].
      destruct (is_conditional_start (strip x)).
      * destruct (IH2 [strip x]) as (pr & blk & A & B & [E | (j & Lj & E)]).
        -- exists pr, 0. split; [lia|]. rewrite A, B, E. split; reflexivity.
        -- exists pr, (S j). split; [simpl; lia|]. rewrite A, B, E.
           split; reflexivity.
      * destruct IH1 as (pr & j & Lj & A & B).
        exists (Normal [strip x] :: pr), (S j). split; [simpl; lia|].
        rewrite A, B. split; reflexivity.
    + intros block. cbn [app groups_in].
      destruct (String.eqb (lower (strip x)) "endif").
      * destruct IH1 as (pr & j & Lj & A & B).
        exists (Conditional (block ++ [strip x]) :: pr),
          (map strip (skipn j (pre ++ l :: rest))).
        rewrite A, B. split; [reflexivity|]. split; [reflexivity|].
        right. exists (S j). split; [simpl; lia|reflexivity].
      * destruct (IH2 (block ++ [strip x]))
          as (pr & blk & A & B & [E | (j & Lj & E)]).
        -- exists pr, blk. split; [exact A|]. split; [exact B|].
           left. rewrite E, <- app_assoc. reflexivity.
        -- exists pr, blk. split; [exact A|]. split; [exact B|].
           right. exists (S j). split; [simpl; lia|exact E].
Qed.

Section Builder.

Context {P : Type} `{Pattern P}.
Variable node_types : list (node_type_config P).
Variable default_node_type : string.
Variable ignore_patterns : list P.

Abbreviation conditional_result :=
  (conditional_result node_types default_node_type).
Abbreviation step := (step node_types default_node_type ignore_patterns).

(** The block parser stops at an [endif] as it stops at the end. *)
Lemma conditional_result_close (blk : list string) (k : nat) :
  blk <> [] ->
  conditional_result (blk ++ ["endif"]) k = conditional_result blk k.
Proof.
  destruct blk as [|l0 ls]; [congruence|]. intros _.
  cbn [app]. unfold ScriptGraph.conditional_result, branches.
  now rewrite route_close.
Qed.

Lemma step_close (st : builder) (blk : list string) :
  blk <> [] ->
  step st (Conditional (blk ++ ["endif"])) = step st (Conditional blk).
Proof.
  intros N. unfold ScriptGraph.step.
  now rewrite conditional_result_close.
Qed.

End Builder.

End OpenBlock.

(** ** Facts about searching in strings *)

Module SearchFacts.
Import Text TextFacts.

Lemma append_empty_r (s : string) : s +:+ "" = s.
Proof.
  induction s as [|c s IH]; [reflexivity|].
  change (String c (s +:+ "") = String c s). now rewrite IH.
Qed.

Lemma prefix_length (p s : string) :
  String.prefix p s = true -> String.length p <= String.length s.
Proof.
  revert s. induction p as [|c p IH]; intros [|d s]; simpl; intros E;
    try lia; try discriminate.
  destruct (ascii_dec c d); [|discriminate]. apply IH in E. lia.
Qed.

Lemma prefix_append (p r : string) : String.prefix p (p +:+ r) = true.
Proof.
  induction p as [|c p IH]; [now destruct r|].
  change (String.prefix (String c p) (String c (p +:+ r)) = true).
  simpl. destruct (ascii_dec c c); [exact IH|congruence].
Qed.

Lemma drop_append (q : nat) (a b : string) :
  q <= String.length a -> drop q (a +:+ b) = drop q a +:+ b.
Proof.
  revert q. induction a as [|c a IH]; intros q L.
  - assert (q = 0) as -> by (simpl in L; lia). now destruct b.
  - destruct q as [|q]; [reflexivity|].
    change (drop q (a +:+ b) = drop q a +:+ b). apply IH. simpl in L. lia.
Qed.

Lemma endswith_drop (s suf : string) :
  endswith s suf = true ->
  exists q, q + String.length suf = String.length s /\ drop q s = suf.
Proof.
  induction s as [|c s IH]; cbn [endswith]; intros E.
  - apply orb_true_iff in E as [E|E]; [|discriminate].
    apply String.eqb_eq in E as <-. now exists 0.
  - apply orb_true_iff in E as [E|E].
    + apply String.eqb_eq in E as <-. now exists 0.
    + destruct (IH E) as (q & Lq & Dq). exists (S q). simpl. split; [lia|exact Dq].
Qed.

Lemma rfind_Some (s sub : string) (p : nat) :
  rfind s sub = Some p ->
  p <= String.length s /\ String.prefix sub (drop p s) = true.
Proof.
  revert p. induction s as [|c s IH]; intros p; cbn [rfind].
  - destruct (String.prefix sub "") eqn:E; [|discriminate].
    intros [= <-]. split; [simpl; lia|exact E].
  - destruct (rfind s sub) as [k|].
    + intros [= <-]. destruct (IH k eq_refl) as [L Pk]. simpl. split; [lia|exact Pk].
    + destruct (String.prefix sub (String c s)) eqn:E; [|discriminate].
      intros [= <-]. split; [simpl; lia|exact E].
Qed.

Lemma rfind_ge (s sub : string) :
  forall q : nat,
    q <= String.length s ->
    String.prefix sub (drop q s) = true ->
    exists p, rfind s sub = Some p /\ q <= p.
Proof.
  induction s as [|c s IH]; intros q L E.
  - assert (q = 0) as -> by (simpl in L; lia).
    cbn [rfind]. cbn [drop] in E. rewrite E. now exists 0.
  - cbn [rfind]. destruct q as [|q].
    + cbn [drop] in E. destruct (rfind s sub) as [k|].
      * exists (S k). split; [reflexivity|lia].
      * rewrite E. now exists 0.
    + cbn [drop] in E. destruct (IH q) as (p & R & Lp); [simpl in L; lia|exact E|].
      rewrite R. exists (S p). split; [reflexivity|lia].
Qed.

(** An occurrence that ends at [cp] in the first [cp] characters is an
    occurrence in the whole string, so [rfind] finds one at least as far
    to the right. *)
Lemma rfind_after_suffix (s sub : string) (cp : nat) :
  cp <= String.length s ->
  endswith (take cp s) sub = true ->
  exists p,
    rfind s sub = Some p
    /\ cp <= p + String.length sub
    /\ p + String.length sub <= String.length s.
Proof.
  intros L E. apply endswith_drop in E as (q & Lq & Dq).
  rewrite length_take, Nat.min_l in Lq by exact L.
  assert (String.prefix sub (drop q s) = true) as Pq.
  { rewrite <- (take_drop cp s) at 1.
    rewrite drop_append by (rewrite length_take; lia).
    rewrite Dq. apply prefix_append. }
  destruct (rfind_ge s sub q) as (p & R & Lp); [lia|exact Pq|].
  exists p. split; [exact R|]. split; [lia|].
  apply rfind_Some in R as [Lp' Pp]. apply prefix_length in Pp.
  rewrite length_drop in Pp. lia.
Qed.

End SearchFacts.

(** ** Claims about the graph builder *)

Module GraphClaims.
Import Text Re Py ScriptGraph TextFacts PyFacts ScriptGraphFacts BuilderInvariant
  BuilderEdges OpenBlock.

Section Builder.

Context {P : Type} `{Pattern P}.
Variable node_types : list (node_type_config P).
Variable default_node_type : string.
Variable ignore_patterns : list P.

Abbreviation build_graph :=
  (build_graph node_types default_node_type ignore_patterns).
Abbreviation graph_of := (graph_of node_types default_node_type ignore_patterns).
Abbreviation steps := (steps node_types default_node_type ignore_patterns).
Abbreviation step := (step node_types default_node_type ignore_patterns).
Abbreviation conditional_result :=
  (conditional_result node_types default_node_type).
Abbreviation is_blank_item := (is_blank_item ignore_patterns).
Abbreviation is_quiet_item := (is_quiet_item ignore_patterns).
Abbreviation branches := (branches node_types default_node_type).
Abbreviation add_item := (add_item node_types default_node_type ignore_patterns).

Lemma groups_empty_branch :
  groups ["if X"; "true:"; "A"; "endif"; "C"]
  = [Conditional ["if X"; "true:"; "A"; "endif"]; Normal ["C"]].
Proof. vm_compute. reflexivity. Qed.

(** C1. For the section lines [if X], [true:], [A], [endif], [C], where
    [C] is a normal (not ignored) line, the builder returns the nodes
    [cond], [A], [C] and exactly the edges (cond,A), (A,C), (cond,C). *)
Theorem empty_branch_join :
  is_ignored ignore_patterns "C" = false ->
  exists cond a c,
    build_graph ["if X"; "true:"; "A"; "endif"; "C"]
    = Ok ([cond; a; c],
          [(node_id cond, node_id a); (node_id a, node_id c);
           (node_id cond, node_id c)])
    /\ node_type cond = "if_show_variant" /\ content cond = "if X"
    /\ content a = "A" /\ content c = "C".
Proof.
  intros I. rewrite build_graph_closed. unfold ScriptGraph.graph_of.
  rewrite groups_empty_branch.
  unfold ScriptGraph.steps. cbn [fold_left].
  set (cond := mkNode "n_0" "if_show_variant" "if X").
  set (a := mkNode "n_1" (branch_line_type node_types default_node_type "A") "A").
  replace (step initial (Conditional _))
    with (mkBuilder [cond; a] [(node_id cond, node_id a)] 2 None [a; cond])
    by (vm_compute; reflexivity).
  cbn [ScriptGraph.step fold_left]. unfold ScriptGraph.add_line. rewrite I.
  exists cond, a, (mkNode "n_2" (main_line_type node_types default_node_type "C") "C").
  repeat split.
Qed.
(** C2. For every section, the node ids of the builder's output are
    [n_0], [n_1], ... in the order of the node list (the counter is
    threaded through the main line and the branches), hence pairwise
    distinct. *)
Theorem node_ids_in_emission_order (lines : list string) :
  exists ns es,
    build_graph lines = Ok (ns, es)
    /\ map node_id ns = map fresh_id (seq 0 (length ns))
    /\ List.NoDup (map node_id ns).
Proof.
  rewrite build_graph_closed. unfold ScriptGraph.graph_of.
  set (st := ScriptGraph.steps _ _ _ (groups lines) initial).
  assert (well_formed st) as W by apply steps_wf, initial_wf.
  exists (nodes st), (connections st). split; [reflexivity|].
  assert (map node_id (nodes st) = map fresh_id (seq 0 (length (nodes st))))
    as E by (rewrite (wf_length st W); apply (wf_ids st W)).
  split; [exact E|]. rewrite E. apply NoDup_fresh_ids.
Qed.

(** C3. For every section, both ends of every edge of the builder's
    output are ids of nodes of the same output. *)
Theorem edges_reference_nodes (lines : list string) :
  exists ns es,
    build_graph lines = Ok (ns, es)
    /\ forall from_id to_id,
         In (from_id, to_id) es ->
         (exists n, In n ns /\ node_id n = from_id)
         /\ (exists n, In n ns /\ node_id n = to_id).
Proof.
  rewrite build_graph_closed. unfold ScriptGraph.graph_of.
  set (st := ScriptGraph.steps _ _ _ (groups lines) initial).
  assert (well_formed st) as W by apply steps_wf, initial_wf.
  exists (nodes st), (connections st). split; [reflexivity|].
  intros a b I.
  pose proof (wf_connections st W) as C. unfold edges_within in C.
  rewrite List.Forall_forall in C. destruct (C _ I) as [A B].
  simpl in A, B. apply in_map_iff in A as (n & En & In_n).
  apply in_map_iff in B as (m & Em & In_m).
  split; [now exists n|now exists m].
Qed.

(** C10. When a conditional run is followed by another one with no
    node-making line between them, no edge of the output ends at the
    second run's condition node; the join sources of both runs (for each
    run the last node of its true branch and the last node of its false
    branch, the condition node standing in for an empty branch) are
    pending after the second run, after those that were pending before
    the first; and each of the four has an edge to the first normal node
    that follows, if there is one, whatever further conditional runs and
    ignored lines stand before it. *)
Theorem consecutive_conditionals (lines : list string) (pre : list item)
  (b1 : list string) (mids : list item) (b2 : list string)
  (post : list item) :
  group_lines (S (length lines)) lines 0 []
  = Ok (pre ++ Conditional b1 :: mids ++ Conditional b2 :: post) ->
  forallb is_blank_item mids = true ->
  let s1 := steps pre initial in
  let s2 := steps (pre ++ Conditional b1 :: mids) initial in
  let s3 := step s2 (Conditional b2) in
  exists ns es l1 ls1 l2 ls2,
    build_graph lines = Ok (ns, es)
    /\ b1 = l1 :: ls1 /\ b2 = l2 :: ls2
    /\ for_each add_item (pre ++ Conditional b1 :: mids ++ [Conditional b2])
         initial
       = Ok s3
    /\ let '(c1, t1, f1) := branches l1 ls1 (node_id_counter s1) in
       let '(c2, t2, f2) := branches l2 ls2 (node_id_counter s2) in
       let ends :=
         [List.last t1 c1; List.last f1 c1; List.last t2 c2; List.last f2 c2] in
       In c2 ns
       /\ node_id c2 = fresh_id (node_id_counter s2)
       /\ (forall from_id, ~ In (from_id, node_id c2) es)
       /\ Forall (fun js => In js ns) ends
       /\ conditional_end_nodes s3 = conditional_end_nodes s1 ++ ends
       /\ (forall more l post',
             post = more ++ Normal [l] :: post' ->
             forallb is_quiet_item more = true ->
             is_ignored ignore_patterns l = false ->
             exists node,
               In node ns /\ content node = l
               /\ node_id node = fresh_id (node_id_counter (steps more s3))
               /\ Forall (fun js => In (node_id js, node_id node) es) ends).
Proof.
  intros G B s1 s2 s3.
  rewrite group_lines_closed in G by lia. injection G as G.
  change (skipn 0 lines) with lines in G. cbn [app] in G.
  (* the blocks have a first line *)
  destruct (groups_blocks lines) as [Nb _].
  assert (b1 <> []) as Nb1.
  { apply Nb. rewrite G. apply in_app_iff. right. now left. }
  assert (b2 <> []) as Nb2.
  { apply Nb. rewrite G. apply in_app_iff. right. right.
    apply in_app_iff. right. now left. }
  destruct b1 as [|l1 ls1]; [congruence|].
  destruct b2 as [|l2 ls2]; [congruence|].
  clear Nb Nb1 Nb2.
  rewrite build_graph_closed. unfold ScriptGraph.graph_of. rewrite G.
  (* the states of the loop *)
  assert (steps (pre ++ Conditional (l1 :: ls1) :: mids
                 ++ Conditional (l2 :: ls2) :: post) initial
          = steps post s3) as E3.
  { change (Conditional (l1 :: ls1) :: mids ++ Conditional (l2 :: ls2) :: post)
      with ((Conditional (l1 :: ls1) :: mids)
            ++ Conditional (l2 :: ls2) :: post).
    rewrite app_assoc, steps_app. reflexivity. }
  assert (s2 = step s1 (Conditional (l1 :: ls1))) as E2.
  { subst s2. rewrite steps_app. fold s1.
    change (Conditional (l1 :: ls1) :: mids)
      with ([Conditional (l1 :: ls1)] ++ mids).
    rewrite steps_app. now apply steps_blank. }
  assert (well_formed s2) as W2 by apply steps_wf, initial_wf.
  pose proof (step_block node_types default_node_type ignore_patterns
                s1 l1 ls1) as S1.
  pose proof (step_block node_types default_node_type ignore_patterns
                s2 l2 ls2) as S2.
  pose proof (conditional_result_targets node_types default_node_type
                (l2 :: ls2) (node_id_counter s2)) as Tg2.
  rewrite E3.
  exists (nodes (steps post s3)), (connections (steps post s3)),
    l1, ls1, l2, ls2.
  split; [reflexivity|]. split; [reflexivity|]. split; [reflexivity|].
  split.
  { rewrite (for_each_total _ step) by apply add_item_closed.
    f_equal. subst s3 s2.
    change (Conditional (l1 :: ls1) :: mids ++ [Conditional (l2 :: ls2)])
      with ((Conditional (l1 :: ls1) :: mids) ++ [Conditional (l2 :: ls2)]).
    rewrite app_assoc. apply fold_left_app. }
  destruct (branches l1 ls1 (node_id_counter s1)) as [[c1 t1] f1].
  destruct (branches l2 ls2 (node_id_counter s2)) as [[c2 t2] f2].
  cbv zeta in S1, S2. rewrite <- E2 in S1. fold s3 in S2.
  destruct S1 as (N1 & _ & _ & P1 & J1).
  destruct S2 as (N3 & Id & C3 & _ & J3).
  rewrite P1 in C3. unfold entry_edge in C3. rewrite app_nil_r in C3.
  destruct (steps_extends node_types default_node_type ignore_patterns
              post s3) as (more & new & N & C & T & L).
  assert (In c2 (nodes s3)) as In_c2.
  { rewrite N3. apply in_app_iff. right. now left. }
  assert (Forall (fun js => In js (nodes s3))
            [List.last t1 c1; List.last f1 c1;
             List.last t2 c2; List.last f2 c2]) as In_ends.
  { assert (forall (t : list ScriptGraphNode) c f pre_ns,
               In (List.last t c) (pre_ns ++ c :: t ++ f)) as Lt.
    { intros t c f pre_ns. apply in_app_iff. right.
      destruct (last_in t c) as [E|I]; [left; exact E|].
      right. apply in_app_iff. now left. }
    assert (forall (t : list ScriptGraphNode) c f pre_ns,
               In (List.last f c) (pre_ns ++ c :: t ++ f)) as Lf.
    { intros t c f pre_ns. apply in_app_iff. right.
      destruct (last_in f c) as [E|I]; [left; exact E|].
      right. apply in_app_iff. now right. }
    repeat constructor; rewrite N3.
    - apply in_app_iff. left. rewrite N1. apply Lt.
    - apply in_app_iff. left. rewrite N1. apply Lf.
    - apply Lt.
    - apply Lf. }
  assert (conditional_end_nodes s3
          = conditional_end_nodes s1
            ++ [List.last t1 c1; List.last f1 c1;
                List.last t2 c2; List.last f2 c2]) as J.
  { rewrite J3, J1, <- app_assoc. reflexivity. }
  cbv zeta.
  split; [rewrite N; apply in_app_iff; now left|].
  split; [exact Id|]. split; [|split; [|split; [exact J|]]].
  - (* no edge into the second condition node *)
    intros from_id I. rewrite C, C3 in I. rewrite Id in I.
    apply in_app_iff in I as [I|I]; [apply in_app_iff in I as [I|I]|].
    + pose proof (wf_connections s2 W2) as Wc. unfold edges_within in Wc.
      rewrite List.Forall_forall in Wc. destruct (Wc _ I) as [_ Tg].
      cbn [snd] in Tg. rewrite (wf_ids s2 W2) in Tg.
      apply in_map_iff in Tg as (j & Ej & Ij).
      apply fresh_id_inj in Ej. apply in_seq in Ij. lia.
    + unfold targets_from in Tg2. rewrite List.Forall_forall in Tg2.
      destruct (Tg2 _ I) as (j & Lj & Ej). cbn [snd] in Ej.
      apply fresh_id_inj in Ej. lia.
    + assert (node_id_counter s2 < node_id_counter s3) as Lt.
      { pose proof (wf_length s3) as L3. pose proof (wf_length s2 W2) as L2.
        assert (well_formed s3) as W3 by (apply step_wf; exact W2).
        rewrite <- (L3 W3), <- L2, N3, length_app. simpl. lia. }
      unfold targets_from in T. rewrite List.Forall_forall in T.
      destruct (T _ I) as (j & Lj & Ej). cbn [snd] in Ej.
      apply fresh_id_inj in Ej. lia.
  - (* the join sources are nodes of the output *)
    eapply List.Forall_impl; [|exact In_ends].
    intros js I. rewrite N. apply in_app_iff. now left.
  - (* fan-in at the next normal node *)
    intros quiet l post' -> Q Il. clear more new N C T L.
    set (s4 := steps quiet s3).
    assert (steps (quiet ++ Normal [l] :: post') s3
            = steps post' (ScriptGraph.add_line node_types default_node_type
                             ignore_patterns s4 l)) as E4.
    { rewrite steps_app. reflexivity. }
    rewrite E4.
    destruct (steps_quiet node_types default_node_type ignore_patterns
                quiet s3 Q) as [extra Je].
    fold s4 in Je.
    destruct (steps_extends node_types default_node_type ignore_patterns
                post' (ScriptGraph.add_line node_types default_node_type
                         ignore_patterns s4 l))
      as (more & new & N & C & _ & _).
    rewrite N, C. unfold ScriptGraph.add_line. rewrite Il.
    cbn [nodes connections]. eexists. split; [|split; [|split]].
    + apply in_app_iff. left. apply in_app_iff. right. now left.
    + reflexivity.
    + reflexivity.
    + cbn [node_id]. apply List.Forall_forall. intros js Ijs.
      assert (In js (conditional_end_nodes s4)) as Ie.
      { rewrite Je, J. apply in_app_iff. left. apply in_app_iff. now right. }
      apply in_app_iff. left.
      assert (In (node_id js, fresh_id (node_id_counter s4))
                (connections s4
                 ++ map (fun ce => (node_id ce, fresh_id (node_id_counter s4)))
                      (conditional_end_nodes s4))) as Ic.
      { apply in_app_iff. right.
        apply (in_map (fun ce => (node_id ce, fresh_id (node_id_counter s4)))
                 _ js Ie). }
      destruct (prev_node s4); [destruct (conditional_end_nodes s4)|];
        try exact Ic.
      apply in_app_iff. now left.
Qed.

Lemma skipn_middle {A : Type} (xs ys : list A) (y : A) :
  skipn (S (length xs)) (xs ++ y :: ys) = ys.
Proof. induction xs as [|x xs IH]; [reflexivity|exact IH]. Qed.

(** C8. When a line that opens a conditional block is followed by no
    [endif], the pre-scan ends with a block that runs through the last
    line of the section, the builder returns (it raises nothing and its
    loops stay within their bounds) a graph with distinct ids and no
    dangling edge, and that graph is the one it returns when an [endif]
    is added at the end of the section. *)
Theorem missing_endif_implicit_close (lines : list string) (i : nat)
  (l : string) :
  nth_error lines i = Some l ->
  is_conditional_start (strip l) = true ->
  Forall (fun l' => String.eqb (lower (strip l')) "endif" = false)
         (skipn (S i) lines) ->
  exists processed j ns es,
    j <= i
    /\ group_lines (S (length lines)) lines 0 []
       = Ok (processed ++ [Conditional (map strip (skipn j lines))])
    /\ build_graph lines = Ok (ns, es)
    /\ List.NoDup (map node_id ns)
    /\ edges_within ns es
    /\ build_graph (lines ++ ["endif"]) = Ok (ns, es).
Proof.
  intros N St F.
  apply nth_error_split in N as (pre & rest & -> & <-).
  rewrite skipn_middle in F.
  destruct (groups_open l rest St F pre) as [(pr & j & Lj & A & B) _].
  set (lines := pre ++ l :: rest) in *.
  set (st := steps (groups lines) initial).
  assert (well_formed st) as W by apply steps_wf, initial_wf.
  exists pr, j, (nodes st), (connections st).
  split; [exact Lj|]. split; [|split; [|split; [|split]]].
  - rewrite group_lines_closed by lia.
    change (skipn 0 lines) with lines. now rewrite A.
  - now rewrite build_graph_closed.
  - rewrite (wf_ids st W). apply NoDup_fresh_ids.
  - apply (wf_connections st W).
  - rewrite build_graph_closed. unfold ScriptGraph.graph_of.
    rewrite B. subst st. rewrite A, !steps_app.
    unfold ScriptGraph.steps at 1 3. cbn [fold_left].
    rewrite step_close; [reflexivity|].
    intros E. apply (f_equal (@length _)) in E.
    rewrite length_map, length_skipn in E. subst lines.
    rewrite length_app in E. simpl in E. lia.
Qed.

End Builder.

(** The instance of C1 at the fallback configuration. *)
Lemma empty_branch_join_default :
  is_ignored default_ignore_patterns "C" = false
  /\ exists cond a c,
       ScriptGraph.build_graph default_node_types default_default_node_type
         default_ignore_patterns ["if X"; "true:"; "A"; "endif"; "C"]
       = Ok ([cond; a; c],
             [(node_id cond, node_id a); (node_id a, node_id c);
              (node_id cond, node_id c)])
       /\ node_type cond = "if_show_variant" /\ content cond = "if X"
       /\ content a = "A" /\ content c = "C".
Proof.
  split; [vm_compute; reflexivity|].
  apply (empty_branch_join default_node_types default_default_node_type
           default_ignore_patterns).
  vm_compute. reflexivity.
Defined.

(** The instance of C8 at the section [A], [if X], [true:], [B] under the
    fallback configuration. *)
Lemma missing_endif_example :
  exists processed j ns es,
    j <= 1
    /\ group_lines 5 ["A"; "if X"; "true:"; "B"] 0 []
       = Ok (processed
             ++ [Conditional (map strip (skipn j ["A"; "if X"; "true:"; "B"]))])
    /\ ScriptGraph.build_graph default_node_types default_default_node_type
         default_ignore_patterns ["A"; "if X"; "true:"; "B"]
       = Ok (ns, es)
    /\ List.NoDup (map node_id ns)
    /\ edges_within ns es
    /\ ScriptGraph.build_graph default_node_types default_default_node_type
         default_ignore_patterns (["A"; "if X"; "true:"; "B"] ++ ["endif"])
       = Ok (ns, es).
Proof.
  apply (missing_endif_implicit_close default_node_types
           default_default_node_type default_ignore_patterns
           ["A"; "if X"; "true:"; "B"] 1 "if X").
  - reflexivity.
  - vm_compute. reflexivity.
  - simpl. repeat (constructor; [vm_compute; reflexivity|]). constructor.
Defined.

(** The instance of C10 at a section with two conditional runs separated
    by a blank line and followed by a third run and then the line [C],
    under the fallback configuration. *)
Lemma consecutive_conditionals_example :
  let cfg_steps :=
    ScriptGraph.steps default_node_types default_default_node_type
      default_ignore_patterns in
  let cfg_branches :=
    ScriptGraph.branches default_node_types default_default_node_type in
  let lines :=
    ["if X"; "true:"; "A"; "endif"; ""; "if Y"; "false:"; "B"; "endif";
     "if Z"; "endif"; "C"] in
  let b1 := ["if X"; "true:"; "A"; "endif"] in
  let b2 := ["if Y"; "false:"; "B"; "endif"] in
  let post := [Conditional ["if Z"; "endif"]; Normal ["C"]] in
  let s1 := cfg_steps [] initial in
  let s2 := cfg_steps ([] ++ Conditional b1 :: [Normal [""]]) initial in
  let s3 :=
    ScriptGraph.step default_node_types default_default_node_type
      default_ignore_patterns s2 (Conditional b2) in
  exists ns es l1 ls1 l2 ls2,
    ScriptGraph.build_graph default_node_types default_default_node_type
      default_ignore_patterns lines
    = Ok (ns, es)
    /\ b1 = l1 :: ls1 /\ b2 = l2 :: ls2
    /\ for_each
         (ScriptGraph.add_item default_node_types default_default_node_type
            default_ignore_patterns)
         ([] ++ Conditional b1 :: [Normal [""]] ++ [Conditional b2]) initial
       = Ok s3
    /\ let '(c1, t1, f1) := cfg_branches l1 ls1 (node_id_counter s1) in
       let '(c2, t2, f2) := cfg_branches l2 ls2 (node_id_counter s2) in
       let ends :=
         [List.last t1 c1; List.last f1 c1; List.last t2 c2; List.last f2 c2] in
       In c2 ns
       /\ node_id c2 = fresh_id (node_id_counter s2)
       /\ (forall from_id, ~ In (from_id, node_id c2) es)
       /\ Forall (fun js => In js ns) ends
       /\ conditional_end_nodes s3 = conditional_end_nodes s1 ++ ends
       /\ (forall more l post',
             post = more ++ Normal [l] :: post' ->
             forallb (ScriptGraph.is_quiet_item default_ignore_patterns) more
             = true ->
             is_ignored default_ignore_patterns l = false ->
             exists node,
               In node ns /\ content node = l
               /\ node_id node = fresh_id (node_id_counter (cfg_steps more s3))
               /\ Forall (fun js => In (node_id js, node_id node) es) ends).
Proof.
  apply (consecutive_conditionals default_node_types
           default_default_node_type default_ignore_patterns
           ["if X"; "true:"; "A"; "endif"; ""; "if Y"; "false:"; "B";
            "endif"; "if Z"; "endif"; "C"]
           [] ["if X"; "true:"; "A"; "endif"] [Normal [""]]
           ["if Y"; "false:"; "B"; "endif"]
           [Conditional ["if Z"; "endif"]; Normal ["C"]]).
  - vm_compute. reflexivity.
  - vm_compute. reflexivity.
Defined.

(** The graph of that section: the second and the third condition node
    have no incoming edge, and the line [C] is reached from the last node
    of each branch of the three runs, the condition node for a branch
    that is empty. *)
Example three_runs_fan_in :
  ScriptGraph.build_graph default_node_types default_default_node_type
    default_ignore_patterns
    ["if X"; "true:"; "A"; "endif"; ""; "if Y"; "false:"; "B"; "endif";
     "if Z"; "endif"; "C"]
  = Ok ([mkNode "n_0" "if_show_variant" "if X";
         mkNode "n_1" "dialogue" "A";
         mkNode "n_2" "if_show_variant" "if Y";
         mkNode "n_3" "dialogue" "B";
         mkNode "n_4" "if_show_variant" "if Z";
         mkNode "n_5" "dialogue" "C"],
        [("n_0", "n_1"); ("n_2", "n_3");
         ("n_1", "n_5"); ("n_0", "n_5"); ("n_2", "n_5"); ("n_3", "n_5");
         ("n_4", "n_5"); ("n_4", "n_5")]).
Proof. vm_compute. reflexivity. Qed.

(** C5 at a concrete section, under the fallback configuration: the line
    [call foo] gets the type [function] on the main line but keeps the
    alias [function_call] inside a branch. *)
Example function_call_alias_in_branch :
  ScriptGraph.build_graph default_node_types default_default_node_type
    default_ignore_patterns
    ["call foo"; "if X"; "true:"; "call foo"; "endif"]
  = Ok ([mkNode "n_0" "function" "call foo";
         mkNode "n_1" "if_show_variant" "if X";
         mkNode "n_2" "function_call" "call foo"],
        [("n_1", "n_2"); ("n_0", "n_1")]).
Proof. vm_compute. reflexivity. Qed.

(** C6 at a concrete section, under the fallback configuration: the line
    [name: hidden] matches an ignore pattern and makes no node on the main
    line, but makes a node inside a branch. *)
Example ignored_line_in_branch :
  is_ignored default_ignore_patterns "name: hidden" = true
  /\ ScriptGraph.build_graph default_node_types default_default_node_type
       default_ignore_patterns
       ["name: hidden"; "if X"; "true:"; "name: hidden"; "endif"]
     = Ok ([mkNode "n_0" "if_show_variant" "if X";
            mkNode "n_1" "dialogue" "name: hidden"],
           [("n_0", "n_1")]).
Proof. split; vm_compute; reflexivity. Qed.

End GraphClaims.

(** ** Claims about the section splitter *)

Module SplitterClaims.
Import Text Re Py ScriptGraph TextFacts PyFacts ScriptGraphFacts.

Lemma enumerate_from_In {A : Type} (xs : list A) :
  forall (k i : nat) (x : A),
    In (i, x) (enumerate_from k xs) -> k <= i /\ nth_error xs (i - k) = Some x.
Proof.
  induction xs as [|y xs IH]; intros k i x I; [contradiction|].
  destruct I as [E|I].
  - injection E as <- <-. rewrite Nat.sub_diag. split; [lia|reflexivity].
  - apply IH in I as [L N]. split; [lia|].
    replace (i - k) with (S (i - S k)) by lia. exact N.
Qed.

Section Builder.

Context {P : Type} `{Pattern P}.
Variable node_types : list (node_type_config P).
Variable default_node_type : string.
Variable ignore_patterns : list P.

Abbreviation graph_of := (graph_of node_types default_node_type ignore_patterns).
Abbreviation section_loop :=
  (section_loop node_types default_node_type ignore_patterns).
Abbreviation parse_script_content :=
  (parse_script_content node_types default_node_type ignore_patterns).

(** The section loop adds one tab per non-empty stripped block, named by
    [name_of] at the block's index in the split. *)
Lemma section_loop_names (sections : list string) :
  forall (i : nat) (tabs : list tab),
    exists more,
      section_loop i sections tabs = Ok (tabs ++ more)
      /\ map section_name more
         = map (fun ib => name_of (fst ib) (snd ib))
             (List.filter (fun ib => negb (String.eqb (snd ib) ""))
                (enumerate_from i (map strip sections))).
Proof.
  induction sections as [|s sections IH]; intros i tabs.
  - exists []. rewrite app_nil_r. split; reflexivity.
  - cbn [ScriptGraph.section_loop map enumerate_from List.filter snd].
    rewrite Nat.add_1_r.
    destruct (String.eqb (strip s) ""); cbn [negb].
    + apply IH.
    + rewrite build_graph_closed, bind_Ok.
      destruct (graph_of (split (strip s) nl)) as [ns es].
      destruct (IH (S i) (tabs ++ [mkTab (name_of i (strip s)) ns es]))
        as (more & E & N).
      exists (mkTab (name_of i (strip s)) ns es :: more).
      rewrite E, <- app_assoc. split; [reflexivity|].
      cbn [map section_name fst snd]. now rewrite N.
Qed.

(** C4, as the code has it. The splitter cuts the document at the
    separator, strips each block and drops the empty ones; a block without
    a [name:] header is named [Section N] where [N] is one more than the
    block's index in the split, empty blocks counted. *)
Theorem default_name_uses_split_index (content : string) :
  exists tabs,
    parse_script_content content = Ok tabs
    /\ map section_name tabs
       = map (fun ib => name_of (fst ib) (snd ib)) (emitted_blocks content)
    /\ forall i b,
         In (i, b) (emitted_blocks content) ->
         b <> ""
         /\ (exists raw,
                nth_error (split content separator) i = Some raw
                /\ strip raw = b)
         /\ (search_name true b = None ->
             name_of i b = "Section " +:+ decimal (i + 1)).
Proof.
  unfold ScriptGraph.parse_script_content.
  destruct (section_loop_names (split content separator) 0 [])
    as (tabs & E & N).
  exists tabs. split; [exact E|]. split; [exact N|].
  intros i b I. unfold emitted_blocks in I.
  apply filter_In in I as [I Ne]. cbn [snd] in Ne.
  apply enumerate_from_In in I as [_ Nth]. rewrite Nat.sub_0_r in Nth.
  split; [|split].
  - intros ->. discriminate.
  - rewrite nth_error_map in Nth.
    destruct (nth_error (split content separator) i) as [raw|];
      [|discriminate].
    exists raw. split; [reflexivity|]. now injection Nth.
  - intros S. unfold name_of. now rewrite S.
Qed.

End Builder.

(** C4 as stated fails when an empty block comes before a block without
    a header: the document [a], separator, separator, [b] has the blocks
    [a], (empty), [b]; the second tab is made from the third block and is
    named [Section 3], not [Section 2]. *)
Lemma default_name_counts_empty_blocks :
  split ("a" +:+ separator +:+ separator +:+ "b") separator = ["a"; ""; "b"]
  /\ ScriptGraph.parse_script_content default_node_types
       default_default_node_type default_ignore_patterns
       ("a" +:+ separator +:+ separator +:+ "b")
     = Ok [mkTab "Section 1" [mkNode "n_0" "dialogue" "a"] [];
           mkTab "Section 3" [mkNode "n_0" "dialogue" "b"] []]
  /\ search_name true "b" = None
  /\ "Section 3" <> "Section 2".
Proof.
  repeat split; try (vm_compute; reflexivity). discriminate.
Qed.

End SplitterClaims.

(** ** Claims about the fold ranges *)

Module FoldingClaims.
Import Folding.

Lemma compute_folded_iff (doc : list string) (ed : editor) (s : nat) :
  s ∈ folded (compute_fold_ranges doc ed)
  <-> s ∈ folded ed /\ s ∈ dom (fold_ranges (compute_fold_ranges doc ed)).
Proof.
  unfold compute_fold_ranges. cbn [folded fold_ranges].
  rewrite elem_of_filter. tauto.
Qed.

Lemma toggle_keeps_subset (n : nat) (ed : editor) :
  folded ed ⊆ dom (fold_ranges ed) ->
  folded (toggle_fold_at_line n ed)
  ⊆ dom (fold_ranges (toggle_fold_at_line n ed)).
Proof.
  intros Sub. unfold toggle_fold_at_line.
  destruct (decide (n ∈ dom (fold_ranges ed))) as [In_n|]; [|exact Sub].
  destruct (decide (n ∈ folded ed)); cbn [folded fold_ranges]; intros s In_s.
  - apply elem_of_difference in In_s as [In_s _]. now apply Sub.
  - apply elem_of_union in In_s as [In_s|In_s]; [|now apply Sub].
    apply elem_of_singleton in In_s. now subst s.
Qed.

Lemma handle_keeps_subset (ed : editor) (e : event) :
  folded ed ⊆ dom (fold_ranges ed) ->
  folded (handle ed e) ⊆ dom (fold_ranges (handle ed e)).
Proof.
  intros Sub. destruct e as [doc|n]; cbn [handle].
  - intros s In_s. now apply compute_folded_iff in In_s.
  - now apply toggle_keeps_subset.
Qed.

Lemma events_keep_subset (events : list event) (ed : editor) :
  folded ed ⊆ dom (fold_ranges ed) ->
  folded (fold_left handle events ed)
  ⊆ dom (fold_ranges (fold_left handle events ed)).
Proof.
  revert ed. induction events as [|e events IH]; intros ed Sub; [exact Sub|].
  cbn [fold_left]. now apply IH, handle_keeps_subset.
Qed.

(** C9. A recomputation of the fold ranges keeps in the folded set exactly
    the folded lines that are keys of the new mapping; so, after any
    sequence of text changes and gutter clicks, the folded set is a subset
    of the keys of the current mapping; and a line that is no key after a
    recomputation is not folded either. *)
Theorem folded_within_fold_ranges :
  (forall (doc : list string) (ed : editor) (s : nat),
      s ∈ folded (compute_fold_ranges doc ed)
      <-> s ∈ folded ed /\ s ∈ dom (fold_ranges (compute_fold_ranges doc ed)))
  /\ (forall events : list event,
        folded (run events) ⊆ dom (fold_ranges (run events)))
  /\ (forall (doc : list string) (ed : editor) (s : nat),
        s ∉ dom (fold_ranges (compute_fold_ranges doc ed)) ->
        s ∉ folded (compute_fold_ranges doc ed)).
Proof.
  split; [|split].
  - apply compute_folded_iff.
  - intros events. apply events_keep_subset. intros s In_s.
    now apply not_elem_of_empty in In_s.
  - intros doc ed s Out In_s. apply compute_folded_iff in In_s. tauto.
Qed.

(** The pruning at work: a header block is folded, then its lines are
    deleted. *)
Example fold_pruned_after_edit :
  let before := run [TextChanged ["name: A"; "x"; "y"]; GutterClicked 0] in
  let after := handle before (TextChanged ["x"; "y"]) in
  fold_ranges before !! 0 = Some 2 /\ 0 ∈ folded before
  /\ fold_ranges after !! 0 = None /\ 0 ∉ folded after.
Proof.
  cbv zeta. split; [vm_compute; reflexivity|]. split; [|split].
  - apply (bool_decide_unpack _). vm_compute. reflexivity.
  - vm_compute. reflexivity.
  - apply (bool_decide_unpack _). vm_compute. reflexivity.
Qed.

End FoldingClaims.

(** ** Claims about the autocomplete *)

Module AutocompleteClaims.
Import Text Py Autocomplete TextFacts SearchFacts.

Section Editor.

Variable jump_to_prefix : string.
Variable end_of_line : string -> nat -> nat.

Abbreviation show_autocomplete := (show_autocomplete jump_to_prefix).
Abbreviation insert_autocomplete_item :=
  (insert_autocomplete_item jump_to_prefix end_of_line).

(** The text before the cursor ends with the prefix: the prefix occurs in
    the line, so that [rfind] finds its last occurrence. *)
Lemma prefix_before_cursor_found (current_line : string) (cursor_pos : nat) :
  endswith (lower (take cursor_pos current_line)) (lower jump_to_prefix)
  = true ->
  exists prefix_pos,
    rfind (lower current_line) (lower jump_to_prefix) = Some prefix_pos.
Proof.
  intros E.
  assert (exists cp, cp <= String.length current_line
                     /\ take cursor_pos current_line = take cp current_line)
    as (cp & L & T).
  { destruct (Nat.le_gt_cases cursor_pos (String.length current_line))
      as [L|L]; [now exists cursor_pos|].
    exists (String.length current_line). split; [lia|].
    now rewrite !take_all by lia. }
  rewrite T, lower_take in E.
  destruct (rfind_after_suffix (lower current_line) (lower jump_to_prefix) cp)
    as (p & R & _); [now rewrite length_lower|exact E|].
  now exists p.
Qed.


End Editor.



End AutocompleteClaims.

(* ================================================================== *)
(** * Further properties                                               *)
(* ================================================================== *)

(** ** The pre-scan *)

Module PrescanProps.
Import Text Re Py ScriptGraph GraphShape TextFacts PyFacts ScriptGraphFacts.

Lemma groups_flat (ls : list string) :
  concat (map item_lines (groups ls)) = map strip ls
  /\ forall block,
       concat (map item_lines (groups_in block ls)) = block ++ map strip ls.
Proof.
  induction ls as [|l ls [IH1 IH2]].
  - split; [reflexivity|]. intros block. simpl. now rewrite !app_nil_r.
  - split.
    + cbn [groups]. destruct (is_conditional_start (strip l)).
      * now rewrite IH2.
      * cbn [map concat item_lines app]. now rewrite IH1.
    + intros block. cbn [groups_in].
      destruct (String.eqb (lower (strip l)) "endif").
      * cbn [map concat item_lines]. rewrite IH1, <- app_assoc. reflexivity.
      * rewrite IH2, <- app_assoc. reflexivity.
Qed.

(** The pre-scan loses no line and keeps their order: the lines of its
    groups, one group after the other, are the stripped lines of the
    section. *)
Theorem prescan_keeps_lines (lines : list string) :
  exists items,
    group_lines (S (length lines)) lines 0 [] = Ok items
    /\ concat (map item_lines items) = map strip lines.
Proof.
  exists (groups lines). split.
  - now rewrite group_lines_closed by lia.
  - apply groups_flat.
Qed.

Lemma forallb_removelast {A : Type} (p : A -> bool) (xs : list A) :
  forallb p xs = true -> forallb p (removelast xs) = true.
Proof.
  induction xs as [|x xs IH]; [reflexivity|].
  cbn [forallb]. intros E. apply andb_true_iff in E as [E1 E2].
  destruct xs as [|y xs]; [reflexivity|].
  change (removelast (x :: y :: xs)) with (x :: removelast (y :: xs)).
  cbn [forallb]. rewrite E1. now apply IH.
Qed.

Lemma groups_shape (ls : list string) :
  forallb well_grouped (groups ls) = true
  /\ forall l0 blk,
       is_conditional_start l0 = true ->
       forallb (fun l => negb (is_endif l)) blk = true ->
       forallb well_grouped (groups_in (l0 :: blk) ls) = true.
Proof.
  induction ls as [|l ls [IH1 IH2]].
  - split; [reflexivity|]. intros l0 blk St Ne.
    cbn [groups_in forallb well_grouped]. rewrite St.
    now rewrite forallb_removelast.
  - split.
    + cbn [groups]. destruct (is_conditional_start (strip l)) eqn:St.
      * now apply IH2.
      * cbn [forallb well_grouped]. now rewrite St, IH1.
    + intros l0 blk St Ne. cbn [groups_in].
      destruct (String.eqb (lower (strip l)) "endif") eqn:E.
      * cbn [forallb well_grouped app]. rewrite St, removelast_last, Ne, IH1.
        reflexivity.
      * apply (IH2 l0 (blk ++ [strip l]) St).
        rewrite forallb_app, Ne. cbn [forallb]. unfold is_endif.
        now rewrite E.
Qed.

(** Every normal group of the pre-scan is one line that does not open a
    block, and every block starts with a line that opens one and contains
    no [endif] before its last line. *)
Theorem prescan_groups_well_formed (lines : list string) :
  exists items,
    group_lines (S (length lines)) lines 0 [] = Ok items
    /\ forallb well_grouped items = true.
Proof.
  exists (groups lines). split.
  - now rewrite group_lines_closed by lia.
  - apply groups_shape.
Qed.

End PrescanProps.

(** ** The block parser *)

Module BlockProps.
Import Text Re Py ScriptGraph GraphShape TextFacts PyFacts ScriptGraphFacts
  BuilderInvariant.

(** Once a branch is open, the condition node is not touched any more. *)
Lemma route_in_branch (ls : list string) :
  forall (c : ScriptGraphNode) (tb fb : list string) (cur : block_ref),
    cur <> NoBlock -> fst (fst (route ls c tb fb cur)) = c.
Proof.
  induction ls as [|l ls IH]; intros c tb fb cur N; [reflexivity|].
  cbn [route].
  destruct (String.eqb (lower (strip l)) "true:"); [now apply IH|].
  destruct (String.eqb (lower (strip l)) "false:"); [now apply IH|].
  destruct (String.eqb (lower (strip l)) "endif"); [reflexivity|].
  destruct cur; [congruence|now apply IH..].
Qed.

Lemma route_preamble (ls : list string) :
  forall c : ScriptGraphNode,
    fst (fst (route ls c [] [] NoBlock))
    = mkNode (node_id c) (node_type c)
        (join_content (content c) (preamble ls)).
Proof.
  induction ls as [|l ls IH]; intros c; [now destruct c|].
  cbn [route preamble]. unfold is_marker.
  destruct (String.eqb (lower (strip l)) "true:");
    [cbn [orb]; rewrite route_in_branch by discriminate; now destruct c|].
  destruct (String.eqb (lower (strip l)) "false:");
    [cbn [orb]; rewrite route_in_branch by discriminate; now destruct c|].
  destruct (String.eqb (lower (strip l)) "endif"); [now destruct c|].
  cbn [orb]. rewrite IH. reflexivity.
Qed.

Section Builder.

Context {P : Type} `{Pattern P}.
Variable node_types : list (node_type_config P).
Variable default_node_type : string.

Abbreviation parse_conditional_block :=
  (parse_conditional_block node_types default_node_type).
Abbreviation process_branch := (process_branch node_types default_node_type).
Abbreviation branch_step := (branch_step node_types default_node_type).
Abbreviation branch_nodes_of := (branch_nodes_of node_types default_node_type).

(** The condition node of a block has the next id, the type
    [if_show_variant], and as content the block's first line followed by
    the lines before the first [true:], [false:] or [endif], each after a
    line feed. *)
Theorem condition_node_content (l0 : string) (ls : list string) (k : nat) :
  exists c rest conns l_true l_false,
    parse_conditional_block (l0 :: ls) k
    = Ok (c :: rest, conns, l_true, l_false)
    /\ node_id c = fresh_id k
    /\ node_type c = "if_show_variant"
    /\ content c = join_content (strip l0) (preamble ls).
Proof.
  rewrite parse_conditional_block_closed.
  unfold conditional_result, branches.
  pose proof (route_preamble ls
                (mkNode (fresh_id k) "if_show_variant" (strip l0))) as R.
  destruct (route ls _ [] [] NoBlock) as [[c tb] fb]. cbn [fst] in R.
  destruct (ScriptGraph.process_branch _ _ tb (k + 1)) as [t k1].
  destruct (ScriptGraph.process_branch _ _ fb k1) as [f k2].
  eexists c, _, _, _, _. split; [reflexivity|]. now subst c.
Qed.

Lemma enumerate_from_app {A : Type} (xs ys : list A) (k : nat) :
  enumerate_from k (xs ++ ys)
  = enumerate_from k xs ++ enumerate_from (k + length xs) ys.
Proof.
  revert k. induction xs as [|x xs IH]; intros k; simpl.
  - now rewrite Nat.add_0_r.
  - rewrite IH. now replace (S k + length xs) with (k + S (length xs)) by lia.
Qed.

Lemma branch_fold_nodes (k : nat) (block : list string) :
  forall done : list string,
    (forall l, In l done -> String.eqb (strip l) "" = false) ->
    fold_left branch_step block (branch_nodes_of k done, k + length done)
    = (branch_nodes_of k (done ++ block),
       k + length done
       + length (List.filter (fun l => negb (String.eqb (strip l) "")) block)).
Proof.
  induction block as [|l block IH]; intros done D.
  - cbn [fold_left List.filter length]. now rewrite app_nil_r, Nat.add_0_r.
  - cbn [fold_left List.filter]. unfold ScriptGraph.branch_step at 2.
    destruct (String.eqb (strip l) "") eqn:E; cbn [negb].
    + rewrite (IH done D). f_equal. unfold GraphShape.branch_nodes_of.
      rewrite !List.filter_app. cbn [List.filter]. now rewrite E.
    + assert (List.filter (fun l => negb (String.eqb (strip l) "")) done = done)
        as Fd.
      { clear -D. induction done as [|d done IHd]; [reflexivity|].
        cbn [List.filter]. rewrite (D d) by now left. cbn [negb].
        rewrite IHd; [reflexivity|]. intros x I. apply D. now right. }
      replace (branch_nodes_of k done
               ++ [mkNode (fresh_id (k + length done))
                     (branch_line_type node_types default_node_type l) l])
        with (branch_nodes_of k (done ++ [l])).
      * replace (k + length done + 1) with (k + length (done ++ [l]))
          by (rewrite length_app; simpl; lia).
        rewrite IH.
        -- rewrite <- app_assoc. cbn [app length]. rewrite length_app.
           cbn [length]. f_equal. lia.
        -- intros x I. apply in_app_iff in I as [I|[<-|[]]]; [now apply D|exact E].
      * unfold GraphShape.branch_nodes_of.
        rewrite List.filter_app, Fd. cbn [List.filter]. rewrite E. cbn [negb].
        rewrite enumerate_from_app, map_app. reflexivity.
Qed.

(** The nodes of a branch are, in order, its lines that are not blank:
    each keeps its text, gets the next id and the name of the first rule
    that matches it (no alias is rewritten and no ignore pattern is
    consulted). *)
Theorem branch_nodes_are_nonblank_lines (block : list string) (k : nat) :
  process_branch block k
  = (branch_nodes_of k block,
     k + length (List.filter (fun l => negb (String.eqb (strip l) "")) block)).
Proof.
  unfold ScriptGraph.process_branch.
  pose proof (branch_fold_nodes k block []) as F.
  cbn [app length] in F. rewrite Nat.add_0_r in F.
  apply F. intros l [].
Qed.

End Builder.

End BlockProps.

(** ** The shape of the graph *)

Module ShapeProps.
Import Text Re Py ScriptGraph GraphShape TextFacts PyFacts ScriptGraphFacts
  BuilderInvariant BuilderEdges.

Lemma between_mono (lo hi hi' : nat) (e : edge) :
  hi <= hi' -> between lo hi e -> between lo hi' e.
Proof.
  intros L (i & j & A & B & C & D & E). exists i, j.
  repeat split; try assumption; lia.
Qed.

Lemma between_weaken (lo lo' hi : nat) (e : edge) :
  lo' <= lo -> between lo hi e -> between lo' hi e.
Proof.
  intros L (i & j & A & B & C & D & E). exists i, j.
  repeat split; try assumption; lia.
Qed.

Lemma id_index (ns : list ScriptGraphNode) (a : nat) (n : ScriptGraphNode) :
  map node_id ns = map fresh_id (seq a (length ns)) ->
  In n ns ->
  exists i, a <= i /\ i < a + length ns /\ node_id n = fresh_id i.
Proof.
  intros I In_n. apply (in_map node_id) in In_n. rewrite I in In_n.
  apply in_map_iff in In_n as (i & E & In_i). apply in_seq in In_i.
  exists i. split; [lia|]. split; [lia|now symmetry].
Qed.

Lemma chain_between (ns : list ScriptGraphNode) :
  forall a : nat,
    map node_id ns = map fresh_id (seq a (length ns)) ->
    Forall (between a (a + length ns)) (chain ns).
Proof.
  induction ns as [|x ns IH]; intros a I; [constructor|].
  destruct ns as [|y ns]; [constructor|].
  change (chain (x :: y :: ns)) with ((node_id x, node_id y) :: chain (y :: ns)).
  cbn [map length seq] in I. injection I as Ix Iy I.
  constructor.
  - exists a, (S a). cbn [fst snd length]. repeat split; try assumption; lia.
  - assert (map node_id (y :: ns) = map fresh_id (seq (S a) (length (y :: ns))))
      as I' by (cbn [map length seq]; now rewrite Iy, I).
    eapply List.Forall_impl; [|exact (IH (S a) I')].
    intros e B. apply (between_weaken (S a)); [lia|].
    eapply between_mono; [|exact B]. simpl. lia.
Qed.

Lemma branch_conns_between (c : ScriptGraphNode) (ns : list ScriptGraphNode)
  (k a : nat) :
  node_id c = fresh_id k -> k < a ->
  map node_id ns = map fresh_id (seq a (length ns)) ->
  Forall (between k (a + length ns)) (branch_conns c ns).
Proof.
  intros Ic L I. destruct ns as [|n0 ns]; [constructor|].
  unfold branch_conns. constructor.
  - cbn [map length seq] in I. injection I as I0 _.
    exists k, a. cbn [fst snd length]. repeat split; try assumption; lia.
  - eapply List.Forall_impl; [|exact (chain_between _ a I)].
    intros e B. apply (between_weaken a); [lia|exact B].
Qed.

Section Builder.

Context {P : Type} `{Pattern P}.
Variable node_types : list (node_type_config P).
Variable default_node_type : string.
Variable ignore_patterns : list P.

Abbreviation build_graph :=
  (build_graph node_types default_node_type ignore_patterns).
Abbreviation conditional_result :=
  (conditional_result node_types default_node_type).
Abbreviation branches := (branches node_types default_node_type).
Abbreviation add_line := (add_line node_types default_node_type ignore_patterns).
Abbreviation step := (step node_types default_node_type ignore_patterns).
Abbreviation steps := (steps node_types default_node_type ignore_patterns).
Abbreviation main_line_type := (main_line_type node_types default_node_type).

Lemma conditional_result_between (lines : list string) (k : nat) :
  Forall (between k (k + length (fst (fst (fst (conditional_result lines k))))))
         (snd (fst (fst (conditional_result lines k)))).
Proof.
  destruct lines as [|l0 ls]; [constructor|].
  unfold ScriptGraph.conditional_result.
  pose proof (branches_ids node_types default_node_type l0 ls k) as B.
  destruct (branches l0 ls k) as [[c t] f]. cbn [fst snd].
  cbn [map length seq] in B. injection B as Ic B.
  rewrite length_app, map_app, seq_app, map_app in B.
  apply app_inj_1 in B as [Bt Bf]; [|now rewrite !length_map, length_seq].
  apply List.Forall_app. split.
  - eapply List.Forall_impl;
      [|exact (branch_conns_between c t k (S k) Ic (Nat.lt_succ_diag_r k) Bt)].
    intros e Be. eapply between_mono; [|exact Be].
    cbn [length]. rewrite length_app. lia.
  - assert (k < S k + length t) as L by lia.
    eapply List.Forall_impl;
      [|exact (branch_conns_between c f k (S k + length t) Ic L Bf)].
    intros e Be. eapply between_mono; [|exact Be].
    cbn [length]. rewrite length_app. lia.
Qed.

Lemma add_line_forward (st : builder) (line : string) :
  well_formed st ->
  Forall (between 0 (node_id_counter st)) (connections st) ->
  Forall (between 0 (node_id_counter (add_line st line)))
         (connections (add_line st line)).
Proof.
  intros W F. pose proof W as [I _ Pv E].
  unfold ScriptGraph.add_line.
  destruct (is_ignored ignore_patterns line); [exact F|].
  cbn [connections node_id_counter node_id].
  assert (forall p, In p (nodes st) ->
                    between 0 (node_id_counter st + 1)
                      (node_id p, fresh_id (node_id_counter st))) as Edge.
  { intros p In_p. rewrite <- (wf_length st W) in I.
    destruct (id_index (nodes st) 0 p I In_p) as (i & _ & Li & Ei).
    rewrite (wf_length st W) in Li.
    exists i, (node_id_counter st). cbn [fst snd].
    repeat split; try assumption; lia. }
  assert (Forall (between 0 (node_id_counter st + 1))
            (connections st
             ++ map (fun ce => (node_id ce, fresh_id (node_id_counter st)))
                  (conditional_end_nodes st))) as Base.
  { apply List.Forall_app. split.
    - eapply List.Forall_impl; [|exact F].
      intros e. apply between_mono. lia.
    - apply List.Forall_map. eapply List.Forall_impl; [|exact E].
      intros n In_n. now apply Edge. }
  destruct (prev_node st) as [p|] eqn:Ep; [|exact Base].
  destruct (conditional_end_nodes st); [|exact Base].
  apply List.Forall_app. split; [exact Base|].
  constructor; [|constructor]. apply Edge. now apply Pv.
Qed.

Lemma step_forward (st : builder) (it : item) :
  well_formed st ->
  Forall (between 0 (node_id_counter st)) (connections st) ->
  Forall (between 0 (node_id_counter (step st it))) (connections (step st it)).
Proof.
  intros W F. destruct it as [ls|ls].
  - pose proof (conditional_result_between ls (node_id_counter st)) as B.
    pose proof (conditional_result_head node_types default_node_type ls
                  (node_id_counter st)) as Hd.
    destruct (step_conditional node_types default_node_type ignore_patterns
                st ls) as (_ & C & K & _ & _).
    rewrite C, K.
    set (r := conditional_result ls (node_id_counter st)) in *.
    apply List.Forall_app. split; [|apply List.Forall_app; split].
    + eapply List.Forall_impl; [|exact F]. intros e. apply between_mono. lia.
    + eapply List.Forall_impl; [|exact B]. intros e.
      apply between_weaken. lia.
    + unfold entry_edge. destruct (prev_node st) as [p|] eqn:Ep; [|constructor].
      destruct (fst (fst (fst r))) as [|c0 cs] eqn:Ec; [constructor|].
      constructor; [|constructor].
      pose proof W as [I _ Pv _]. rewrite <- (wf_length st W) in I.
      destruct (id_index (nodes st) 0 p I (Pv p Ep)) as (i & _ & Li & Ei).
      rewrite (wf_length st W) in Li.
      exists i, (node_id_counter st). cbn [fst snd length].
      repeat split; try assumption; try lia. now apply Hd.
  - cbn [ScriptGraph.step]. revert st W F.
    induction ls as [|l ls IH]; intros st W F; [exact F|].
    cbn [fold_left]. apply IH.
    + now apply add_line_wf.
    + now apply add_line_forward.
Qed.

Lemma steps_forward (items : list item) (st : builder) :
  well_formed st ->
  Forall (between 0 (node_id_counter st)) (connections st) ->
  Forall (between 0 (node_id_counter (steps items st)))
         (connections (steps items st)).
Proof.
  revert st. induction items as [|it items IH]; intros st W F; [exact F|].
  unfold ScriptGraph.steps. cbn [fold_left]. apply IH.
  - now apply step_wf.
  - now apply step_forward.
Qed.

(** Every edge of the builder's output goes from a node to a node made
    later: from [n_i] to [n_j] with [i < j]. The graph has no loop and no
    cycle. *)
Theorem edges_go_forward (lines : list string) :
  exists ns es,
    build_graph lines = Ok (ns, es)
    /\ forall from_id to_id,
         In (from_id, to_id) es ->
         exists i j,
           i < j /\ j < length ns
           /\ from_id = fresh_id i /\ to_id = fresh_id j.
Proof.
  rewrite build_graph_closed. unfold ScriptGraph.graph_of.
  set (st := ScriptGraph.steps _ _ _ (groups lines) initial).
  assert (well_formed st) as W by apply steps_wf, initial_wf.
  assert (Forall (between 0 (node_id_counter st)) (connections st)) as F
    by (apply steps_forward; [apply initial_wf|constructor]).
  exists (nodes st), (connections st). split; [reflexivity|].
  intros a b I. rewrite List.Forall_forall in F.
  destruct (F _ I) as (i & j & _ & Lij & Lj & Ea & Eb).
  exists i, j. rewrite (wf_length st W). now repeat split.
Qed.

(** *** Sections without a conditional block *)

Lemma groups_no_start (lines : list string) :
  Forall (fun l => is_conditional_start (strip l) = false) lines ->
  groups lines = map (fun l => Normal [strip l]) lines.
Proof.
  induction 1 as [|l ls Hl _ IH]; [reflexivity|].
  cbn [groups map]. now rewrite Hl, IH.
Qed.

Lemma steps_normal (ls : list string) (st : builder) :
  steps (map (fun l => Normal [strip l]) ls) st
  = fold_left add_line (map strip ls) st.
Proof.
  revert st. induction ls as [|l ls IH]; intros st; [reflexivity|].
  unfold ScriptGraph.steps in *. cbn [map fold_left ScriptGraph.step].
  apply IH.
Qed.

Lemma chain_snoc (ns : list ScriptGraphNode) (n : ScriptGraphNode) :
  chain (ns ++ [n])
  = chain ns
    ++ match last ns with
       | Some p => [(node_id p, node_id n)]
       | None => []
       end.
Proof.
  induction ns as [|a ns IH]; [reflexivity|].
  destruct ns as [|b ns]; [reflexivity|].
  change (chain ((a :: b :: ns) ++ [n]))
    with ((node_id a, node_id b) :: chain ((b :: ns) ++ [n])).
  rewrite IH. reflexivity.
Qed.

Lemma add_lines_straight (ls : list string) :
  forall st : builder,
    straight node_types default_node_type st ->
    straight node_types default_node_type (fold_left add_line ls st)
    /\ map content (nodes (fold_left add_line ls st))
       = map content (nodes st)
         ++ List.filter (fun l => negb (is_ignored ignore_patterns l)) ls.
Proof.
  induction ls as [|l ls IH]; intros st S.
  - split; [exact S|]. cbn [List.filter fold_left]. now rewrite app_nil_r.
  - cbn [fold_left List.filter]. unfold ScriptGraph.add_line at 2 4.
    destruct (is_ignored ignore_patterns l); cbn [negb]; [now apply IH|].
    destruct S as (E & C & Pv & T).
    set (node := mkNode _ _ l).
    destruct (IH (mkBuilder (nodes st ++ [node])
                    (match prev_node st, conditional_end_nodes st with
                     | Some p, [] =>
                         (connections st
                          ++ map (fun ce => (node_id ce, node_id node))
                               (conditional_end_nodes st))
                         ++ [(node_id p, node_id node)]
                     | _, _ =>
                         connections st
                         ++ map (fun ce => (node_id ce, node_id node))
                              (conditional_end_nodes st)
                     end)
                    (node_id_counter st + 1) (Some node) [])) as [S' M].
    + split; [reflexivity|]. cbn [nodes connections prev_node].
      split; [|split].
      * rewrite chain_snoc, E, C, <- Pv. cbn [map].
        destruct (prev_node st); now rewrite ?app_nil_r.
      * now rewrite last_snoc.
      * apply List.Forall_app. split; [exact T|].
        constructor; [reflexivity|constructor].
    + split; [exact S'|]. rewrite M. cbn [nodes].
      rewrite map_app, <- app_assoc. reflexivity.
Qed.

(** A section in which no line opens a conditional block gives a path:
    one node per stripped line that is not ignored, in order, typed by
    the first matching rule, each node linked to the next and to nothing
    else. *)
Theorem straight_line_section (lines : list string) :
  Forall (fun l => is_conditional_start (strip l) = false) lines ->
  exists ns,
    build_graph lines = Ok (ns, chain ns)
    /\ map content ns
       = List.filter (fun l => negb (is_ignored ignore_patterns l))
           (map strip lines)
    /\ Forall (fun n => node_type n = main_line_type (content n)) ns.
Proof.
  intros N. rewrite build_graph_closed. unfold ScriptGraph.graph_of.
  rewrite (groups_no_start lines N), steps_normal.
  destruct (add_lines_straight (map strip lines) initial) as [S M].
  { repeat split. constructor. }
  destruct S as (_ & C & _ & T).
  eexists. split; [now rewrite C|]. split; [exact M|exact T].
Qed.

End Builder.

(** A section of four plain lines under the fallback configuration. *)
Lemma straight_line_example :
  exists ns,
    ScriptGraph.build_graph default_node_types default_default_node_type
      default_ignore_patterns ["START"; ""; " Hello "; "jump to X"]
    = Ok (ns, chain ns)
    /\ map content ns
       = List.filter (fun l => negb (is_ignored default_ignore_patterns l))
           (map strip ["START"; ""; " Hello "; "jump to X"])
    /\ Forall
         (fun n =>
            node_type n
            = ScriptGraph.main_line_type default_node_types
                default_default_node_type (content n)) ns.
Proof.
  apply (straight_line_section default_node_types default_default_node_type
           default_ignore_patterns).
  repeat (constructor; [vm_compute; reflexivity|]). constructor.
Defined.

End ShapeProps.

(** ** The section splitter *)

Module SplitterProps.
Import Text Re Py ScriptGraph GraphShape TextFacts PyFacts ScriptGraphFacts
  SearchFacts.

Lemma lower_append (a b : string) : lower (a +:+ b) = lower a +:+ lower b.
Proof.
  induction a as [|c a IH]; [reflexivity|].
  change (String (lower_char c) (lower (a +:+ b))
          = String (lower_char c) (lower a +:+ lower b)).
  now rewrite IH.
Qed.

Lemma drop_length_append (a b : string) : drop (String.length a) (a +:+ b) = b.
Proof.
  induction a as [|c a IH]; [now destruct b|exact IH].
Qed.

Lemma lstrip_spaces (w : string) (c : ascii) (v : string) :
  all_space w = true -> is_space c = false ->
  lstrip (w +:+ String c v) = String c v.
Proof.
  intros W C. induction w as [|d w IH].
  - change (lstrip (String c v) = String c v). cbn [lstrip]. now rewrite C.
  - cbn [all_space] in W. apply andb_true_iff in W as [D W].
    change (lstrip (String d (w +:+ String c v)) = String c v).
    cbn [lstrip]. rewrite D. now apply IH.
Qed.

(** A [name:] header at the start of a block, in any case: the white
    space after the colon is skipped, line feeds included, and the name is
    the rest of the line on which the first other character stands,
    stripped. A header with nothing after the colon therefore takes the
    next line that is not blank as the name. *)
Theorem name_from_header (i : nat) (h w : string) (c : ascii) (v : string) :
  lower h = "name:" ->
  all_space w = true ->
  is_space c = false ->
  name_of i (h +:+ w +:+ String c v) = strip (line_head (String c v)).
Proof.
  intros Hh W C.
  assert (String.length h = 5) as L
    by (rewrite <- length_lower, Hh; reflexivity).
  unfold name_of. destruct (h +:+ w +:+ String c v) as [|x s] eqn:E.
  - destruct h; discriminate.
  - rewrite <- E. clear x s E.
    assert (search_name true (h +:+ w +:+ String c v)
            = Some (line_head (String c v))) as S.
    { assert (name_group_at (h +:+ w +:+ String c v)
              = Some (line_head (String c v))) as G.
      { unfold name_group_at.
        rewrite lower_append, Hh, prefix_append.
        change 5 with (String.length "name:"). rewrite <- Hh, length_lower.
        rewrite drop_length_append, lstrip_spaces by assumption.
        reflexivity. }
      destruct (h +:+ w +:+ String c v); cbn [search_name]; now rewrite G. }
    now rewrite S.
Qed.

(** The header [NAME:] followed by a line feed and the line [  Intro ]. *)
Lemma name_from_next_line :
  name_of 0 ("NAME:" +:+ nl +:+ String "I" "ntro  " +:+ nl +:+ "x")
  = strip (line_head (String "I" "ntro  " +:+ nl +:+ "x"))
  /\ strip (line_head (String "I" "ntro  " +:+ nl +:+ "x")) = "Intro".
Proof.
  split; [|vm_compute; reflexivity].
  apply (name_from_header 0 "NAME:" nl "I" ("ntro  " +:+ nl +:+ "x"));
    vm_compute; reflexivity.
Defined.

Section Builder.

Context {P : Type} `{Pattern P}.
Variable node_types : list (node_type_config P).
Variable default_node_type : string.
Variable ignore_patterns : list P.

Abbreviation build_graph :=
  (build_graph node_types default_node_type ignore_patterns).
Abbreviation graph_of := (graph_of node_types default_node_type ignore_patterns).
Abbreviation section_loop :=
  (section_loop node_types default_node_type ignore_patterns).
Abbreviation parse_script_content :=
  (parse_script_content node_types default_node_type ignore_patterns).

Lemma section_loop_graphs (sections : list string) :
  forall (i : nat) (tabs : list tab),
    exists more,
      section_loop i sections tabs = Ok (tabs ++ more)
      /\ Forall2
           (fun t ib =>
              build_graph (split (snd ib) nl)
              = Ok (tab_nodes t, tab_connections t))
           more
           (List.filter (fun ib => negb (String.eqb (snd ib) ""))
              (enumerate_from i (map strip sections))).
Proof.
  induction sections as [|s sections IH]; intros i tabs.
  - exists []. rewrite app_nil_r. split; [reflexivity|constructor].
  - cbn [ScriptGraph.section_loop map enumerate_from List.filter snd].
    rewrite Nat.add_1_r.
    destruct (String.eqb (strip s) ""); cbn [negb].
    + apply IH.
    + rewrite build_graph_closed, bind_Ok.
      destruct (graph_of (split (strip s) nl)) as [ns es] eqn:G.
      destruct (IH (S i) (tabs ++ [mkTab (name_of i (strip s)) ns es]))
        as (more & E & F).
      exists (mkTab (name_of i (strip s)) ns es :: more).
      rewrite E, <- app_assoc. split; [reflexivity|].
      constructor; [|exact F].
      cbn [snd tab_nodes tab_connections].
      now rewrite build_graph_closed, G.
Qed.

(** The sections of a document are built one by one and independently:
    there is one tab per block that is not empty after stripping, in
    order, and it holds the graph the builder returns for the lines of
    that block alone (so the ids start at [n_0] in every tab). *)
Theorem sections_built_independently (content : string) :
  exists tabs,
    parse_script_content content = Ok tabs
    /\ Forall2
         (fun t ib =>
            build_graph (split (snd ib) nl)
            = Ok (tab_nodes t, tab_connections t))
         tabs (emitted_blocks content).
Proof.
  unfold ScriptGraph.parse_script_content.
  destruct (section_loop_graphs (split content separator) 0 [])
    as (tabs & E & F).
  now exists tabs.
Qed.

End Builder.

End SplitterProps.

(** ** Facts about the patterns of the fold computer *)

Module RegexFacts.
Import Text Re Folding Visibility.

Lemma match_from_Void (s : string) :
  forall prev, match_from prev Void s = false.
Proof. induction s as [|c s IH]; intros prev; [reflexivity|apply IH]. Qed.

(** A pattern [^\s*body] whose body needs a first character accepted by
    [ok] only matches lines whose first character after the white space
    is accepted by [ok]. *)
Lemma leading_spaces_then (body : regex) (ok : ascii -> bool) :
  (forall prev rest, nullable prev rest body = false) ->
  (forall prev rest c, ok c = false -> deriv prev rest body c = Void) ->
  (forall c, is_space c = true -> ok c = false) ->
  forall s,
    re_match (Cat Bol (Cat (Star Space) body)) s = true ->
    exists c, first_char s = Some c /\ ok c = true.
Proof.
  intros N D Sp.
  assert (forall s prev,
             match_from prev (Cat (Star Space) body) s = true ->
             exists c, first_char s = Some c /\ ok c = true) as Inner.
  { induction s as [|c s IH]; intros prev M.
    - cbn [match_from nullable] in M. rewrite N in M. discriminate.
    - cbn [match_from nullable deriv] in M. rewrite N in M. cbn [andb orb] in M.
      unfold first_char. cbn [lstrip].
      destruct (is_space c) eqn:Ec.
      + rewrite (D _ _ c (Sp c Ec)) in M. cbn [cat alt] in M.
        apply IH in M. exact M.
      + cbn [cat alt] in M. destruct (ok c) eqn:Ok; [now exists c|].
        rewrite (D _ _ c Ok), match_from_Void in M. discriminate. }
  intros s M. apply (Inner s None).
  unfold re_match in M. destruct s as [|c s]; cbn [match_from nullable] in *.
  - exact M.
  - cbn [deriv nullable cat alt andb] in M. exact M.
Qed.

Lemma space_not_letter (c : ascii) :
  is_space c = true ->
  starts_e c = false /\ starts_i c = false /\ starts_f_or_c c = false.
Proof.
  destruct c as [[] [] [] [] [] [] [] []]; vm_compute; intros E;
    try discriminate E; now repeat split.
Qed.

Lemma function_end_first (s : string) :
  re_match function_end s = true ->
  exists c, first_char s = Some c /\ starts_e c = true.
Proof.
  apply (leading_spaces_then (Cat (lit "end") (Cat Wb Eps)) starts_e).
  - reflexivity.
  - intros prev rest c Ok. unfold starts_e in Ok.
    cbn [deriv lit nullable andb]. rewrite Ok. reflexivity.
  - intros c Ec. now apply space_not_letter.
Qed.

Lemma variant_end_first (s : string) :
  re_match variant_end s = true ->
  exists c, first_char s = Some c /\ starts_e c = true.
Proof.
  apply (leading_spaces_then (Cat (lit "endif") (Cat Wb Eps)) starts_e).
  - reflexivity.
  - intros prev rest c Ok. unfold starts_e in Ok.
    cbn [deriv lit nullable andb]. rewrite Ok. reflexivity.
  - intros c Ec. now apply space_not_letter.
Qed.

Lemma function_start_first (s : string) :
  re_match function_start s = true ->
  exists c, first_char s = Some c /\ starts_f_or_c c = true.
Proof.
  apply (leading_spaces_then
           (Cat (Alt (lit "function") (lit "call")) (Cat Wb Eps))
           starts_f_or_c).
  - reflexivity.
  - intros prev rest c Ok. unfold starts_f_or_c in Ok.
    apply orb_false_iff in Ok as [Of Oc].
    cbn [deriv lit nullable andb orb]. rewrite Of, Oc. reflexivity.
  - intros c Ec. now apply space_not_letter.
Qed.

Lemma variant_start_first (s : string) :
  re_match variant_start s = true ->
  exists c, first_char s = Some c /\ starts_i c = true.
Proof.
  apply (leading_spaces_then
           (cats [lit "If"; plus Space; lit "Show"; plus Space;
                  lit "Variant"; Wb])
           starts_i).
  - reflexivity.
  - intros prev rest c Ok. unfold starts_i in Ok.
    cbn [cats deriv lit nullable andb]. rewrite Ok. reflexivity.
  - intros c Ec. now apply space_not_letter.
Qed.

(** No line both opens and closes a function block, or an
    [If Show Variant] block. *)
Lemma start_excludes_end (s : string) :
  (re_match function_start s = true -> re_match function_end s = false)
  /\ (re_match variant_start s = true -> re_match variant_end s = false).
Proof.
  split; intros St.
  - destruct (re_match function_end s) eqn:En; [|reflexivity].
    apply function_start_first in St as (c & Fc & Oc).
    apply function_end_first in En as (d & Fd & Od).
    rewrite Fc in Fd. injection Fd as <-.
    unfold starts_f_or_c in Oc. unfold starts_e in Od.
    apply Ascii.eqb_eq in Od. rewrite <- Od in Oc. discriminate Oc.
  - destruct (re_match variant_end s) eqn:En; [|reflexivity].
    apply variant_start_first in St as (c & Fc & Oc).
    apply variant_end_first in En as (d & Fd & Od).
    rewrite Fc in Fd. injection Fd as <-.
    unfold starts_i in Oc. unfold starts_e in Od.
    apply Ascii.eqb_eq in Od. rewrite <- Od in Oc. discriminate Oc.
Qed.

End RegexFacts.

(** ** The fold computer *)

Module FoldProps.
Import Text Re Folding Visibility RegexFacts.

Lemma scan_ok_push_func (n bf bi line_no : nat) (text : string) (st : scan) :
  scan_ok n bf bi st -> bf <= line_no ->
  scan_ok n (S line_no) bi
    (mkScan (ranges st) ((line_no, text) :: func_stack st) (if_stack st)).
Proof.
  intros (R & F & I) L. split; [exact R|]. split; [|exact I].
  constructor; [simpl; lia|].
  eapply List.Forall_impl; [|exact F]. intros p Lp. cbv beta in *. lia.
Qed.

Lemma scan_ok_push_if (n bf bi line_no : nat) (text : string) (st : scan) :
  scan_ok n bf bi st -> bi <= line_no ->
  scan_ok n bf (S line_no)
    (mkScan (ranges st) (func_stack st) ((line_no, text) :: if_stack st)).
Proof.
  intros (R & F & I) L. split; [exact R|]. split; [exact F|].
  constructor; [simpl; lia|].
  eapply List.Forall_impl; [|exact I]. intros p Lp. cbv beta in *. lia.
Qed.

Lemma scan_ok_insert (n bf bi s e : nat) (st : scan)
  (fstack istack : list (nat * string)) :
  map_Forall (fun s e => s < e /\ e < n) (ranges st) ->
  s < e -> e < n ->
  Forall (fun p => fst p < bf) fstack -> Forall (fun p => fst p < bi) istack ->
  scan_ok n bf bi (mkScan (<[s := e]> (ranges st)) fstack istack).
Proof.
  intros R Ls Le F I. split; [|split; assumption].
  cbn [ranges]. apply map_Forall_insert_2; [split; assumption|exact R].
Qed.

Lemma scan_ok_weaken (n bf bi bf' bi' : nat) (st : scan) :
  scan_ok n bf bi st -> bf <= bf' -> bi <= bi' -> scan_ok n bf' bi' st.
Proof.
  intros (R & F & I) Lf Li. split; [exact R|]. split.
  - eapply List.Forall_impl; [|exact F]. intros p Lp. cbv beta in *. lia.
  - eapply List.Forall_impl; [|exact I]. intros p Lp. cbv beta in *. lia.
Qed.

Lemma name_block_end_lt (following : list string) :
  forall i end_line,
    end_line < i -> name_block_end following i end_line < i + length following.
Proof.
  induction following as [|t following IH]; intros i e L; cbn [name_block_end].
  - simpl. lia.
  - destruct (re_match separator_line t || re_match name_header t).
    + simpl. lia.
    + specialize (IH (i + 1) i). cbn [length]. lia.
Qed.

Lemma scan_block_ok (n line_no : nat) (text : string)
  (following : list string) (st : scan) :
  n = line_no + 1 + length following ->
  scan_ok n line_no line_no st ->
  scan_ok n (S line_no) (S line_no) (scan_block line_no text following st).
Proof.
  intros En Ok. unfold scan_block.
  destruct (start_excludes_end text) as [Xf Xv].
  (* function ... end *)
  assert (scan_ok n (S line_no) line_no
            (let st :=
               if re_match function_start text
               then mkScan (ranges st) ((line_no, text) :: func_stack st)
                      (if_stack st)
               else st in
             if re_match function_end text then
               match func_stack st with
               | (start, _) :: stack' =>
                   mkScan (<[start := line_no]> (ranges st)) stack' (if_stack st)
               | [] => st
               end
             else st)) as Ok1.
  { destruct (re_match function_start text).
    - rewrite (Xf eq_refl). cbv zeta. apply (scan_ok_push_func n line_no line_no); [exact Ok|lia].
    - cbv zeta. destruct (re_match function_end text);
        [|apply (scan_ok_weaken _ _ _ _ _ _ Ok); lia].
      destruct (func_stack st) as [|[start t] stack'] eqn:Es;
        [apply (scan_ok_weaken _ _ _ _ _ _ Ok); lia|].
      destruct Ok as (R & F & I). rewrite Es in F.
      apply List.Forall_cons_iff in F as [Fs F]. cbn [fst] in Fs.
      apply scan_ok_insert; [exact R|lia|lia| |exact I].
      eapply List.Forall_impl; [|exact F]. intros p Lp. cbv beta in *. lia. }
  cbv zeta in Ok1.
  set (st1 := if re_match function_end text then _ else _) in *.
  clearbody st1. clear Ok st Xf.
  (* If Show Variant ... endif *)
  assert (scan_ok n (S line_no) (S line_no)
            (let st :=
               if re_match variant_start text
               then mkScan (ranges st1) (func_stack st1)
                      ((line_no, text) :: if_stack st1)
               else st1 in
             if re_match variant_end text then
               match if_stack st with
               | (start, _) :: stack' =>
                   mkScan (<[start := line_no]> (ranges st)) (func_stack st)
                     stack'
               | [] => st
               end
             else st)) as Ok2.
  { destruct (re_match variant_start text).
    - rewrite (Xv eq_refl). cbv zeta. apply (scan_ok_push_if n (S line_no) line_no); [exact Ok1|lia].
    - cbv zeta. destruct (re_match variant_end text);
        [|apply (scan_ok_weaken _ _ _ _ _ _ Ok1); lia].
      destruct (if_stack st1) as [|[start t] stack'] eqn:Es;
        [apply (scan_ok_weaken _ _ _ _ _ _ Ok1); lia|].
      destruct Ok1 as (R & F & I). rewrite Es in I.
      apply List.Forall_cons_iff in I as [Is I]. cbn [fst] in Is.
      apply scan_ok_insert; [exact R|lia|lia|exact F|].
      eapply List.Forall_impl; [|exact I]. intros p Lp. cbv beta in *. lia. }
  cbv zeta in Ok2.
  set (st2 := if re_match variant_end text then _ else _) in *.
  clearbody st2. clear Ok1 st1 Xv.
  (* name: *)
  destruct (re_match name_header text); [|exact Ok2].
  pose proof (name_block_end_lt following (line_no + 1) line_no) as Lt.
  destruct (Nat.ltb_spec line_no
              (name_block_end following (line_no + 1) line_no)) as [L|L];
    [|exact Ok2].
  destruct Ok2 as (R & F & I).
  apply scan_ok_insert; [exact R|exact L|lia|exact F|exact I].
Qed.

Lemma scan_blocks_ok (n : nat) (blocks : list string) :
  forall (line_no : nat) (st : scan),
    n = line_no + length blocks ->
    scan_ok n line_no line_no st ->
    map_Forall (fun s e => s < e /\ e < n)
      (ranges (scan_blocks line_no blocks st)).
Proof.
  induction blocks as [|text following IH]; intros line_no st En Ok.
  - now destruct Ok.
  - cbn [scan_blocks]. apply IH; [cbn [length] in En; lia|].
    rewrite Nat.add_1_r. apply scan_block_ok; [cbn [length] in En; lia|exact Ok].
Qed.

(** Every fold range the fold computer records ends after the line it
    starts at, and ends inside the document. *)
Theorem fold_ranges_within_document (doc : list string) (ed : editor)
  (start end_line : nat) :
  fold_ranges (compute_fold_ranges doc ed) !! start = Some end_line ->
  start < end_line /\ end_line < length doc.
Proof.
  revert start end_line.
  change (map_Forall
            (fun start end_line => start < end_line /\ end_line < length doc)
            (fold_ranges (compute_fold_ranges doc ed))).
  unfold compute_fold_ranges. cbn [fold_ranges].
  apply scan_blocks_ok; [reflexivity|].
  split; [apply map_Forall_empty|]. split; constructor.
Qed.

(** The range of a function block of three lines. *)
Lemma fold_range_example :
  0 < 2 /\ 2 < length ["function a"; "x"; "end"].
Proof.
  apply (fold_ranges_within_document ["function a"; "x"; "end"] new_editor 0 2).
  vm_compute. reflexivity.
Defined.

Lemma scan_blocks_no_opener (blocks : list string) :
  forall line_no : nat,
    Forall (fun t => re_match function_start t = false
                     /\ re_match variant_start t = false
                     /\ re_match name_header t = false) blocks ->
    scan_blocks line_no blocks (mkScan ∅ [] []) = mkScan ∅ [] [].
Proof.
  induction blocks as [|t following IH]; intros line_no F; [reflexivity|].
  apply List.Forall_cons_iff in F as [(Ff & Fv & Fn) F].
  cbn [scan_blocks]. unfold scan_block. rewrite Ff, Fv, Fn.
  cbn [func_stack if_stack].
  destruct (re_match function_end t), (re_match variant_end t); now apply IH.
Qed.

(** Lines that close a block ([end], [endif]) without a line that opens
    one are passed over: a document in which no line opens a function
    block, an [If Show Variant] block or a [name:] block has no fold
    range, and nothing stays folded. *)
Theorem no_opener_no_range (doc : list string) (ed : editor) :
  Forall (fun t => re_match function_start t = false
                   /\ re_match variant_start t = false
                   /\ re_match name_header t = false) doc ->
  compute_fold_ranges doc ed = new_editor.
Proof.
  intros F. unfold compute_fold_ranges, new_editor.
  rewrite (scan_blocks_no_opener doc 0 F). cbn [ranges]. f_equal.
  apply set_eq. intros s. rewrite elem_of_filter, dom_empty.
  split; [now intros [E _]|intros E; now apply not_elem_of_empty in E].
Qed.

(** A document of closing lines only, with a line folded before. *)
Lemma no_opener_example :
  compute_fold_ranges ["end"; "  endif"; "hello"; "ending"]
    (mkEditor {[0 := 2]} {[0]})
  = new_editor.
Proof.
  apply (no_opener_no_range ["end"; "  endif"; "hello"; "ending"]).
  repeat (constructor; [repeat split; vm_compute; reflexivity|]). constructor.
Defined.

(** *** Toggling *)

Lemma toggle_outside (n : nat) (ed : editor) :
  n ∉ dom (fold_ranges ed) -> toggle_fold_at_line n ed = ed.
Proof. intros D. unfold toggle_fold_at_line. now rewrite decide_False. Qed.

Lemma toggle_folded (n : nat) (ed : editor) :
  n ∈ dom (fold_ranges ed) -> n ∈ folded ed ->
  toggle_fold_at_line n ed = mkEditor (fold_ranges ed) (folded ed ∖ {[n]}).
Proof.
  intros D F. unfold toggle_fold_at_line. now rewrite !decide_True.
Qed.

Lemma toggle_unfolded (n : nat) (ed : editor) :
  n ∈ dom (fold_ranges ed) -> n ∉ folded ed ->
  toggle_fold_at_line n ed = mkEditor (fold_ranges ed) ({[n]} ∪ folded ed).
Proof.
  intros D F. unfold toggle_fold_at_line.
  now rewrite decide_True, decide_False.
Qed.

Lemma toggle_ranges (n : nat) (ed : editor) :
  fold_ranges (toggle_fold_at_line n ed) = fold_ranges ed.
Proof.
  unfold toggle_fold_at_line. now repeat destruct (decide _).
Qed.

Lemma toggle_other (n m : nat) (ed : editor) :
  m <> n -> m ∈ folded (toggle_fold_at_line n ed) <-> m ∈ folded ed.
Proof.
  intros Ne. unfold toggle_fold_at_line.
  repeat destruct (decide _); cbn [folded];
    rewrite ?elem_of_difference, ?elem_of_union, ?elem_of_singleton; tauto.
Qed.

Lemma toggle_flips (n : nat) (ed : editor) :
  n ∈ dom (fold_ranges ed) ->
  n ∈ folded (toggle_fold_at_line n ed) <-> n ∉ folded ed.
Proof.
  intros D. destruct (decide (n ∈ folded ed)) as [F|F].
  - rewrite (toggle_folded n ed D F). cbn [folded].
    rewrite elem_of_difference, elem_of_singleton. tauto.
  - rewrite (toggle_unfolded n ed D F). cbn [folded].
    rewrite elem_of_union, elem_of_singleton. tauto.
Qed.

Lemma toggle_involutive (n : nat) (ed : editor) :
  toggle_fold_at_line n (toggle_fold_at_line n ed) = ed.
Proof.
  destruct (decide (n ∈ dom (fold_ranges ed))) as [D|D];
    [|now rewrite !(toggle_outside n ed D)].
  destruct (decide (n ∈ folded ed)) as [F|F].
  - rewrite (toggle_folded n ed D F).
    rewrite toggle_unfolded;
      [|exact D|cbn [folded]; rewrite elem_of_difference, elem_of_singleton;
                tauto].
    destruct ed as [rs fd]. cbn [fold_ranges folded] in *. f_equal.
    apply set_eq. intros m.
    rewrite elem_of_union, elem_of_difference, elem_of_singleton.
    split; [intros [->|[E _]]; assumption|].
    intros E. destruct (decide (m = n)) as [->|Ne]; [now left|now right].
  - rewrite (toggle_unfolded n ed D F).
    rewrite toggle_folded;
      [|exact D|cbn [folded]; rewrite elem_of_union, elem_of_singleton;
                tauto].
    destruct ed as [rs fd]. cbn [fold_ranges folded] in *. f_equal.
    apply set_eq. intros m.
    rewrite elem_of_difference, elem_of_union, elem_of_singleton.
    split; [intros [[->|E] Ne]; [contradiction|exact E]|].
    intros E. split; [now right|]. intros ->. contradiction.
Qed.

(** Clicking the same gutter line twice restores the folding state; a
    click changes the folded set at the clicked line only and never the
    fold ranges; on a line without a range it changes nothing. *)
Theorem toggle_twice (n : nat) (ed : editor) :
  toggle_fold_at_line n (toggle_fold_at_line n ed) = ed
  /\ fold_ranges (toggle_fold_at_line n ed) = fold_ranges ed
  /\ (forall m, m <> n ->
        (m ∈ folded (toggle_fold_at_line n ed) <-> m ∈ folded ed))
  /\ (n ∈ dom (fold_ranges ed) ->
        (n ∈ folded (toggle_fold_at_line n ed) <-> n ∉ folded ed))
  /\ (n ∉ dom (fold_ranges ed) -> toggle_fold_at_line n ed = ed).
Proof.
  split; [apply toggle_involutive|].
  split; [apply toggle_ranges|].
  split; [intros m; apply toggle_other|].
  split; [apply toggle_flips|apply toggle_outside].
Qed.

Lemma toggles_keep_ranges (clicks : list nat) (ed : editor) :
  fold_ranges (fold_left (fun e n => toggle_fold_at_line n e) clicks ed)
  = fold_ranges ed
  /\ (folded ed ⊆ dom (fold_ranges ed) ->
      folded (fold_left (fun e n => toggle_fold_at_line n e) clicks ed)
      ⊆ dom (fold_ranges ed)).
Proof.
  revert ed. induction clicks as [|n clicks IH]; intros ed; [now split|].
  cbn [fold_left]. destruct (IH (toggle_fold_at_line n ed)) as [R S].
  pose proof (toggle_ranges n ed) as Rn.
  rewrite Rn in R, S. split; [exact R|]. intros Sub. apply S.
  rewrite <- Rn. now apply FoldingClaims.toggle_keeps_subset.
Qed.

(** A recomputation on a document that has not changed unfolds nothing:
    after a recomputation and any gutter clicks, a second recomputation on
    the same document leaves the ranges and the folded set as they
    are. *)
Theorem recompute_keeps_folds (doc : list string) (ed : editor)
  (clicks : list nat) :
  let st :=
    fold_left (fun e n => toggle_fold_at_line n e) clicks
      (compute_fold_ranges doc ed) in
  compute_fold_ranges doc st = st.
Proof.
  intros st.
  destruct (toggles_keep_ranges clicks (compute_fold_ranges doc ed)) as [R S].
  fold st in R, S.
  assert (folded st ⊆ dom (fold_ranges st)) as Sub.
  { rewrite R. apply S. intros s In_s.
    now apply FoldingClaims.compute_folded_iff in In_s. }
  destruct st as [rs fd]. cbn [fold_ranges folded] in *.
  unfold compute_fold_ranges at 1. cbn [folded].
  unfold compute_fold_ranges in R. cbn [fold_ranges] in R. rewrite <- R.
  f_equal. apply set_eq. intros s. rewrite elem_of_filter.
  split; [tauto|]. intros E. split; [now apply Sub|exact E].
Qed.

End FoldProps.

(** ** The kinds of the fold ranges *)

Module FoldKinds.
Import Text Re Folding Visibility.

Section Document.

Variable doc : list string.

Lemma kinds_push_func (l : nat) (t : string) (st : scan) :
  scan_kinds doc st -> doc !! l = Some t ->
  re_match function_start t = true ->
  scan_kinds doc (mkScan (ranges st) ((l, t) :: func_stack st) (if_stack st)).
Proof.
  intros (R & F & I) D M. split; [exact R|]. split; [|exact I].
  constructor; [now split|exact F].
Qed.

Lemma kinds_push_if (l : nat) (t : string) (st : scan) :
  scan_kinds doc st -> doc !! l = Some t ->
  re_match variant_start t = true ->
  scan_kinds doc (mkScan (ranges st) (func_stack st) ((l, t) :: if_stack st)).
Proof.
  intros (R & F & I) D M. split; [exact R|]. split; [exact F|].
  constructor; [now split|exact I].
Qed.

Lemma kinds_pop_func (l : nat) (t : string) (st : scan) :
  scan_kinds doc st -> doc !! l = Some t ->
  re_match function_end t = true ->
  scan_kinds doc
    (match func_stack st with
     | (start, _) :: stack' =>
         mkScan (<[start := l]> (ranges st)) stack' (if_stack st)
     | [] => st
     end).
Proof.
  intros K D M.
  destruct (func_stack st) as [|[start t0] stack'] eqn:Es; [exact K|].
  destruct K as (R & F & I). rewrite Es in F.
  apply List.Forall_cons_iff in F as [[D0 M0] F]. cbn [fst snd] in D0, M0.
  split; [|split; assumption]. cbn [ranges].
  apply map_Forall_insert_2; [|exact R].
  exists t0. split; [exact D0|]. left. split; [exact M0|]. now exists t.
Qed.

Lemma kinds_pop_if (l : nat) (t : string) (st : scan) :
  scan_kinds doc st -> doc !! l = Some t ->
  re_match variant_end t = true ->
  scan_kinds doc
    (match if_stack st with
     | (start, _) :: stack' =>
         mkScan (<[start := l]> (ranges st)) (func_stack st) stack'
     | [] => st
     end).
Proof.
  intros K D M.
  destruct (if_stack st) as [|[start t0] stack'] eqn:Es; [exact K|].
  destruct K as (R & F & I). rewrite Es in I.
  apply List.Forall_cons_iff in I as [[D0 M0] I]. cbn [fst snd] in D0, M0.
  split; [|split; assumption]. cbn [ranges].
  apply map_Forall_insert_2; [|exact R].
  exists t0. split; [exact D0|]. right. left. split; [exact M0|]. now exists t.
Qed.

Lemma kinds_name (l e : nat) (t : string) (st : scan) :
  scan_kinds doc st -> doc !! l = Some t ->
  re_match name_header t = true ->
  scan_kinds doc
    (mkScan (<[l := e]> (ranges st)) (func_stack st) (if_stack st)).
Proof.
  intros (R & F & I) D M. split; [|split; assumption]. cbn [ranges].
  apply map_Forall_insert_2; [|exact R].
  exists t. split; [exact D|]. now right; right.
Qed.

Lemma scan_block_kinds (line_no : nat) (text : string)
  (following : list string) (st : scan) :
  doc !! line_no = Some text ->
  scan_kinds doc st ->
  scan_kinds doc (scan_block line_no text following st).
Proof.
  intros D K. unfold scan_block. cbv zeta.
  set (st1 := if re_match function_start text then _ else st).
  assert (scan_kinds doc st1) as K1.
  { subst st1. destruct (re_match function_start text) eqn:M; [|exact K].
    now apply kinds_push_func. }
  clearbody st1.
  set (st2 := if re_match function_end text then _ else st1).
  assert (scan_kinds doc st2) as K2.
  { subst st2. destruct (re_match function_end text) eqn:M; [|exact K1].
    now apply kinds_pop_func with (t := text). }
  clearbody st2.
  set (st3 := if re_match variant_start text then _ else st2).
  assert (scan_kinds doc st3) as K3.
  { subst st3. destruct (re_match variant_start text) eqn:M; [|exact K2].
    now apply kinds_push_if. }
  clearbody st3.
  set (st4 := if re_match variant_end text then _ else st3).
  assert (scan_kinds doc st4) as K4.
  { subst st4. destruct (re_match variant_end text) eqn:M; [|exact K3].
    now apply kinds_pop_if with (t := text). }
  clearbody st4.
  destruct (re_match name_header text) eqn:M; [|exact K4].
  destruct (_ <? _); [|exact K4].
  now apply kinds_name with (t := text).
Qed.

Lemma scan_blocks_kinds (blocks : list string) :
  forall (line_no : nat) (st : scan),
    (forall i t, blocks !! i = Some t -> doc !! (line_no + i) = Some t) ->
    scan_kinds doc st ->
    scan_kinds doc (scan_blocks line_no blocks st).
Proof.
  induction blocks as [|text following IH]; intros line_no st D K; [exact K|].
  cbn [scan_blocks]. apply IH.
  - intros i t Ei. replace (line_no + 1 + i) with (line_no + S i) by lia.
    now apply D.
  - apply scan_block_kinds; [|exact K].
    rewrite <- (Nat.add_0_r line_no). now apply D.
Qed.

(** Every fold range is the range of a block of the document: it starts
    at a line that opens a function block and ends at an [end] line, or
    starts at an [If Show Variant] line and ends at an [endif] line, or
    starts at a [name:] line. *)
Theorem fold_ranges_are_blocks (ed : editor) (start end_line : nat) :
  fold_ranges (compute_fold_ranges doc ed) !! start = Some end_line ->
  exists text,
    doc !! start = Some text
    /\ ((re_match function_start text = true
         /\ exists end_text,
              doc !! end_line = Some end_text
              /\ re_match function_end end_text = true)
        \/ (re_match variant_start text = true
            /\ exists end_text,
                 doc !! end_line = Some end_text
                 /\ re_match variant_end end_text = true)
        \/ re_match name_header text = true).
Proof.
  revert start end_line.
  change (map_Forall (range_kind doc)
            (fold_ranges (compute_fold_ranges doc ed))).
  unfold compute_fold_ranges. cbn [fold_ranges].
  apply scan_blocks_kinds.
  - intros i t Ei. exact Ei.
  - split; [apply map_Forall_empty|]. split; constructor.
Qed.

End Document.

(** The range of a variant block inside a function block. *)
Lemma fold_range_kind_example :
  let doc := ["function a"; "If Show Variant"; "x"; "endif"; "end"] in
  exists text,
    doc !! 1 = Some text
    /\ ((re_match function_start text = true
         /\ exists end_text,
              doc !! 3 = Some end_text
              /\ re_match function_end end_text = true)
        \/ (re_match variant_start text = true
            /\ exists end_text,
                 doc !! 3 = Some end_text
                 /\ re_match variant_end end_text = true)
        \/ re_match name_header text = true).
Proof.
  cbv zeta.
  apply (fold_ranges_are_blocks
           ["function a"; "If Show Variant"; "x"; "endif"; "end"]
           new_editor 1 3).
  vm_compute. reflexivity.
Defined.

End FoldKinds.

(** ** Folding and the visibility of lines *)

Module VisibilityProps.
Import Text Re Folding Visibility FoldProps.

Lemma hide_all (c : nat) (xs : list nat) :
  forall (h : gset nat) (m : nat),
    m ∈ fold_left (set_visible c false) xs h <-> m ∈ h \/ (In m xs /\ m < c).
Proof.
  induction xs as [|x xs IH]; intros h m; cbn [fold_left].
  - simpl. tauto.
  - rewrite IH. unfold set_visible. cbn [In].
    destruct (Nat.ltb_spec x c) as [L|L].
    + rewrite elem_of_union, elem_of_singleton.
      split; [intros [[->|E]|[I Lm]]|intros [E|[[->|I] Lm]]]; auto.
    + split; [intros [E|[I Lm]]|intros [E|[[->|I] Lm]]]; auto. lia.
Qed.

Lemma show_all (c : nat) (xs : list nat) :
  forall (h : gset nat) (m : nat),
    m ∈ fold_left (set_visible c true) xs h <-> m ∈ h /\ ~ (In m xs /\ m < c).
Proof.
  induction xs as [|x xs IH]; intros h m; cbn [fold_left].
  - simpl. tauto.
  - rewrite IH. unfold set_visible. cbn [In].
    destruct (Nat.ltb_spec x c) as [L|L].
    + rewrite elem_of_difference, elem_of_singleton.
      split.
      * intros [[E Ne] N]. split; [exact E|].
        intros [[->|I] Lm]; [now apply Ne|now apply N].
      * intros [E N]. split; [split; [exact E|]|].
        -- intros ->. apply N. split; [now left|exact L].
        -- intros [I Lm]. apply N. split; [now right|exact Lm].
    + split.
      * intros [E N]. split; [exact E|].
        intros [[->|I] Lm]; [lia|now apply N].
      * intros [E N]. split; [exact E|].
        intros [I Lm]. apply N. split; [now right|exact Lm].
Qed.

Lemma apply_fold_spec (ed : editor) (c n e : nat) (unfold : bool)
  (h : gset nat) (m : nat) :
  fold_ranges ed !! n = Some e ->
  m ∈ apply_fold ed c n unfold h
  <-> if unfold then m ∈ h /\ ~ (n < m <= e /\ m < c)
      else m ∈ h \/ (n < m <= e /\ m < c).
Proof.
  intros R. unfold apply_fold. rewrite R.
  destruct (Nat.leb_spec e n) as [L|L].
  - destruct unfold; [|split; [now left|intros [E|[Lm _]]; [exact E|lia]]].
    split; [intros E; split; [exact E|lia]|now intros [E _]].
  - destruct unfold; [rewrite show_all|rewrite hide_all]; rewrite in_seq.
    + split; intros [E N]; (split; [exact E|]); intros [Lm Lc]; apply N;
        (split; [lia|exact Lc]).
    + split; (intros [E|[Lm Lc]]; [now left|right; split; [lia|exact Lc]]).
Qed.

Lemma toggle_fold_editor (c n : nat) (v : view) :
  view_editor (toggle_fold c n v) = toggle_fold_at_line n (view_editor v).
Proof.
  unfold toggle_fold, toggle_fold_at_line. cbv zeta.
  repeat destruct (decide _); reflexivity.
Qed.

Lemma toggle_fold_hidden (c n e : nat) (v : view) (m : nat) :
  fold_ranges (view_editor v) !! n = Some e ->
  m ∈ hidden (toggle_fold c n v)
  <-> if decide (n ∈ folded (view_editor v))
      then m ∈ hidden v /\ ~ (n < m <= e /\ m < c)
      else m ∈ hidden v \/ (n < m <= e /\ m < c).
Proof.
  intros R.
  assert (n ∈ dom (fold_ranges (view_editor v))) as D
    by (apply elem_of_dom; now exists e).
  unfold toggle_fold. cbv zeta. rewrite (decide_True _ _ D).
  destruct (decide (n ∈ folded (view_editor v))); cbn [hidden].
  - now rewrite (apply_fold_spec _ c n e true _ m R).
  - now rewrite (apply_fold_spec _ c n e false _ m R).
Qed.

(** Folding a line hides the lines after it up to the end of its range,
    as far as the document has them, and leaves the other lines as they
    are; unfolding shows the same lines. The folding state changes as
    [toggle_fold_at_line] says. *)
Theorem toggle_sets_visibility (c n e : nat) (v : view) :
  fold_ranges (view_editor v) !! n = Some e ->
  view_editor (toggle_fold c n v) = toggle_fold_at_line n (view_editor v)
  /\ forall m,
       m ∈ hidden (toggle_fold c n v)
       <-> if decide (n ∈ folded (view_editor v))
           then m ∈ hidden v /\ ~ (n < m <= e /\ m < c)
           else m ∈ hidden v \/ (n < m <= e /\ m < c).
Proof.
  intros R. split; [apply toggle_fold_editor|].
  intros m. now apply toggle_fold_hidden.
Qed.

(** Unfolding shows every line of the range, whatever hid it: when an
    inner range is folded, then the range around it is folded and unfolded
    again, the inner range is still marked as folded but its lines are
    visible. *)
Theorem unfold_outer_shows_inner (c a ea b eb : nat) (v : view) :
  fold_ranges (view_editor v) !! a = Some ea ->
  fold_ranges (view_editor v) !! b = Some eb ->
  a < b -> b < eb -> eb <= ea -> eb < c ->
  a ∉ folded (view_editor v) -> b ∉ folded (view_editor v) ->
  let v' := toggle_fold c a (toggle_fold c a (toggle_fold c b v)) in
  b ∈ folded (view_editor v')
  /\ forall m, b < m <= eb -> m ∉ hidden v'.
Proof.
  intros Ra Rb Lab Lb Le Lc Fa Fb v'.
  assert (b ∈ dom (fold_ranges (view_editor v))) as Db
    by (apply elem_of_dom; now exists eb).
  set (v1 := toggle_fold c b v) in *.
  pose proof (toggle_fold_editor c b v) as E1. fold v1 in E1.
  assert (fold_ranges (view_editor v1) !! a = Some ea) as Ra1
    by (rewrite E1, toggle_ranges; exact Ra).
  assert (b ∈ folded (view_editor v1)) as Fb1
    by (rewrite E1; now apply toggle_flips).
  assert (a ∉ folded (view_editor v1)) as Fa1
    by (rewrite E1, toggle_other; [exact Fa|lia]).
  assert (a ∈ dom (fold_ranges (view_editor v1))) as Da
    by (apply elem_of_dom; now exists ea).
  set (v2 := toggle_fold c a v1) in *.
  pose proof (toggle_fold_editor c a v1) as E2. fold v2 in E2.
  assert (fold_ranges (view_editor v2) !! a = Some ea) as Ra2
    by (rewrite E2, toggle_ranges; exact Ra1).
  assert (a ∈ folded (view_editor v2)) as Fa2
    by (rewrite E2; now apply toggle_flips).
  pose proof (toggle_fold_editor c a v2) as E3. fold v' in E3.
  split.
  - rewrite E3, toggle_other by lia. rewrite E2, toggle_other by lia.
    exact Fb1.
  - intros m Lm In_m. unfold v' in In_m.
    apply (toggle_fold_hidden c a ea v2 m Ra2) in In_m.
    rewrite (decide_True _ _ Fa2) in In_m. destruct In_m as [_ N].
    apply N. lia.
Qed.

(** A function block of three lines in a document of three lines, folded
    from a state in which nothing is hidden. *)
Lemma toggle_visibility_example :
  let v := mkView (compute_fold_ranges ["function a"; "x"; "end"] new_editor)
                  ∅ in
  view_editor (toggle_fold 3 0 v) = toggle_fold_at_line 0 (view_editor v)
  /\ forall m,
       m ∈ hidden (toggle_fold 3 0 v)
       <-> if decide (0 ∈ folded (view_editor v))
           then m ∈ hidden v /\ ~ (0 < m <= 2 /\ m < 3)
           else m ∈ hidden v \/ (0 < m <= 2 /\ m < 3).
Proof.
  cbv zeta.
  apply (toggle_sets_visibility 3 0 2
           (mkView (compute_fold_ranges ["function a"; "x"; "end"] new_editor)
                   ∅)).
  vm_compute. reflexivity.
Defined.

(** Two nested function blocks: the inner one is folded, then the outer
    one is folded and unfolded. *)
Lemma unfold_outer_example :
  let doc := ["function a"; "function b"; "x"; "end"; "end"] in
  let v := mkView (compute_fold_ranges doc new_editor) ∅ in
  let v' := toggle_fold 5 0 (toggle_fold 5 0 (toggle_fold 5 1 v)) in
  1 ∈ folded (view_editor v') /\ forall m, 1 < m <= 3 -> m ∉ hidden v'.
Proof.
  cbv zeta.
  apply (unfold_outer_shows_inner 5 0 4 1 3
           (mkView (compute_fold_ranges
                      ["function a"; "function b"; "x"; "end"; "end"]
                      new_editor) ∅));
    try (vm_compute; reflexivity); try lia;
    apply (bool_decide_unpack _); vm_compute; reflexivity.
Defined.

End VisibilityProps.

(** ** The completions of the editor *)

Module CompletionProps.
Import Text Py Autocomplete TextFacts SearchFacts.

Lemma get_within (s : string) :
  forall i, i < String.length s -> exists c, String.get i s = Some c.
Proof.
  induction s as [|c s IH]; intros i L; [simpl in L; lia|].
  destruct i as [|i]; [now exists c|].
  cbn [String.get]. apply IH. simpl in L. lia.
Qed.

(** The backward loop stops right after the last delimiter before
    position [n], or at the start of the line, and it does not index the
    line out of its range. *)
Lemma word_start_spec (line : string) :
  forall n,
    n <= String.length line ->
    exists s,
      word_start line n = Ok s
      /\ s <= n
      /\ (forall i c, s <= i < n -> String.get i line = Some c ->
                      is_delimiter c = false)
      /\ (s = 0 \/ exists c, String.get (s - 1) line = Some c
                             /\ is_delimiter c = true).
Proof.
  induction n as [|n IH]; intros L.
  - exists 0. split; [reflexivity|]. split; [lia|]. split; [|now left].
    intros i c Li. lia.
  - cbn [word_start]. unfold char_at.
    destruct (get_within line n) as [c Gc]; [lia|]. rewrite Gc.
    unfold mbind, result_bind.
    destruct (is_delimiter c) eqn:Dc.
    + exists (n + 1). split; [reflexivity|]. split; [lia|].
      split; [intros i c' Li; lia|]. right. exists c.
      replace (n + 1 - 1) with n by lia. now split.
    + destruct IH as (s & W & Ls & No & At); [lia|].
      exists s. split; [exact W|]. split; [lia|]. split; [|exact At].
      intros i c' Li G.
      destruct (Nat.eq_dec i n) as [->|Ne].
      * rewrite Gc in G. now injection G as <-.
      * apply (No i c'); [lia|exact G].
Qed.

Section Editor.

Variable jump_to_prefix : string.
Variable end_of_line : string -> nat -> nat.

(** Whatever the line, the cursor position and the candidate lists,
    [_show_autocomplete] does not raise: the test of the cursor position
    against the length of the line keeps the backward loop inside the
    line. It never clears the flag and never hides the popup. *)
Theorem show_autocomplete_never_raises
  (parent : option parent_window) (current_line : string)
  (cursor_pos : nat) (st : popup_state) :
  exists st',
    show_autocomplete jump_to_prefix parent current_line cursor_pos st = Ok st'
    /\ (is_autocomplete_active st = true -> is_autocomplete_active st' = true)
    /\ (popup_visible st = true -> popup_visible st' = true).
Proof.
  unfold show_autocomplete. destruct parent as [w|]; [|now exists st].
  destruct (endswith _ _).
  { destruct (dialog_cache w) as [|d ds]; [now exists st|].
    eexists. split; [reflexivity|]. now split. }
  destruct (0 <? cursor_pos) eqn:E0; cbn [andb]; [|now exists st].
  destruct (Nat.leb_spec cursor_pos (String.length current_line)) as [L|L];
    [|now exists st].
  destruct (word_start_spec current_line cursor_pos L) as (s & W & _).
  rewrite W. unfold mbind, result_bind.
  destruct (slice s cursor_pos current_line) as [|c0 word] eqn:Ew;
    [now exists st|].
  destruct (is_alpha c0 && (2 <=? String.length (String c0 word)));
    [|now exists st].
  set (st1 := if String.length (strip (take s current_line)) =? 0
              then match filter_prefix (String c0 word) (snil_commands w) with
                   | [] => st
                   | c :: cs => show_items (c :: cs) st
                   end
              else st).
  assert ((is_autocomplete_active st = true ->
           is_autocomplete_active st1 = true)
          /\ (popup_visible st = true -> popup_visible st1 = true))
    as [A1 V1].
  { subst st1. destruct (_ =? 0); [|now split].
    destruct (filter_prefix _ (snil_commands w)); now split. }
  destruct (filter_prefix _ (character_cache w)) as [|x xs];
    [now exists st1|].
  destruct (is_autocomplete_active st1) eqn:Ea.
  - eexists. split; [reflexivity|]. cbn [is_autocomplete_active popup_visible].
    now split.
  - eexists. split; [reflexivity|]. now split.
Qed.



(** From an inactive state, a word of at least two characters that
    starts with a letter, typed after nothing but white space, and of
    which some command is a completion, shows the popup with the matching
    commands first and the matching character names after them. *)
Theorem commands_before_characters
  (w : parent_window) (current_line : string) (cursor_pos start_pos : nat)
  (c0 : ascii) (word : string) (st : popup_state) :
  is_autocomplete_active st = false ->
  endswith (lower (take cursor_pos current_line)) (lower jump_to_prefix)
  = false ->
  cursor_pos <= String.length current_line ->
  word_start current_line cursor_pos = Ok start_pos ->
  slice start_pos cursor_pos current_line = String c0 word ->
  is_alpha c0 = true ->
  word <> "" ->
  strip (take start_pos current_line) = "" ->
  filter_prefix (String c0 word) (snil_commands w) <> [] ->
  show_autocomplete jump_to_prefix (Some w) current_line cursor_pos st
  = Ok (mkPopup true
          (filter_prefix (String c0 word) (snil_commands w)
           ++ filter_prefix (String c0 word) (character_cache w))
          true).
Proof.
  intros A E L W Sl Al Nw Sp Nc.
  unfold show_autocomplete. rewrite E.
  assert (0 < cursor_pos) as P.
  { destruct cursor_pos; [|lia]. unfold slice in Sl. cbn [take] in Sl.
    destruct current_line; destruct start_pos; discriminate. }
  destruct (Nat.ltb_spec 0 cursor_pos) as [_|]; [|lia].
  destruct (Nat.leb_spec cursor_pos (String.length current_line)) as [_|];
    [|lia].
  cbn [andb]. rewrite W. unfold mbind, result_bind. rewrite Sl, Al, Sp.
  assert ((2 <=? String.length (String c0 word)) = true) as ->.
  { apply Nat.leb_le. destruct word; [congruence|simpl; lia]. }
  cbn [andb String.length Nat.eqb].
  destruct (filter_prefix (String c0 word) (snil_commands w)) as [|x xs];
    [congruence|].
  cbn [show_items is_autocomplete_active popup_items popup_visible].
  destruct (filter_prefix (String c0 word) (character_cache w)) as [|y ys].
  - now rewrite app_nil_r.
  - reflexivity.
Qed.

(** With the flag set and the popup hidden, as the Escape key leaves
    them, a character name alone does not show the popup again: unless
    the text before the cursor ends with the jump prefix or a command
    completes the word on an otherwise blank line, the popup stays hidden,
    and the matching names are appended to the items it had. *)
Theorem characters_do_not_reopen
  (w : parent_window) (current_line : string) (cursor_pos : nat)
  (st : popup_state) :
  is_autocomplete_active st = true ->
  popup_visible st = false ->
  endswith (lower (take cursor_pos current_line)) (lower jump_to_prefix)
  = false ->
  (forall start_pos,
      word_start current_line cursor_pos = Ok start_pos ->
      strip (take start_pos current_line) <> ""
      \/ filter_prefix (slice start_pos cursor_pos current_line)
           (snil_commands w) = []) ->
  exists names,
    show_autocomplete jump_to_prefix (Some w) current_line cursor_pos st
    = Ok (mkPopup true (popup_items st ++ names) false).
Proof.
  intros A V E H.
  assert (st = mkPopup true (popup_items st) false) as Est
    by (destruct st; cbn in *; congruence).
  assert (Ok st = Ok (mkPopup true (popup_items st ++ []) false)) as Same
    by (rewrite app_nil_r; congruence).
  unfold show_autocomplete. rewrite E.
  destruct (0 <? cursor_pos) eqn:E0; cbn [andb]; [|now exists []].
  destruct (Nat.leb_spec cursor_pos (String.length current_line)) as [L|L];
    [|now exists []].
  destruct (word_start_spec current_line cursor_pos L) as (s & W & _).
  rewrite W. unfold mbind, result_bind.
  specialize (H s W).
  destruct (slice s cursor_pos current_line) as [|c0 word] eqn:Ew;
    [now exists []|].
  destruct (is_alpha c0 && (2 <=? String.length (String c0 word)));
    [|now exists []].
  assert ((if String.length (strip (take s current_line)) =? 0
           then match filter_prefix (String c0 word) (snil_commands w) with
                | [] => st
                | c :: cs => show_items (c :: cs) st
                end
           else st) = st) as ->.
  { destruct (Nat.eqb_spec (String.length (strip (take s current_line))) 0)
      as [Z|Z]; [|reflexivity].
    destruct H as [H|H]; [|now rewrite H].
    destruct (strip (take s current_line)); [congruence|discriminate]. }
  destruct (filter_prefix _ (character_cache w)) as [|x xs] eqn:Ef;
    [now exists []|].
  rewrite A, V. now exists (x :: xs).
Qed.

End Editor.



(** The word [sh] after two spaces, with a command and a character name
    that complete it. *)
Lemma commands_before_characters_example :
  show_autocomplete default_jump_to_prefix
    (Some (mkParent [] ["Show"; "Hide"] ["Sheila"])) "  sh" 4
    (mkPopup false [] false)
  = Ok (mkPopup true
          (filter_prefix "sh" ["Show"; "Hide"] ++ filter_prefix "sh" ["Sheila"])
          true).
Proof.
  apply (commands_before_characters default_jump_to_prefix
           (mkParent [] ["Show"; "Hide"] ["Sheila"]) "  sh" 4 2 "s" "h"
           (mkPopup false [] false)).
  - reflexivity.
  - vm_compute. reflexivity.
  - vm_compute. lia.
  - vm_compute. reflexivity.
  - vm_compute. reflexivity.
  - vm_compute. reflexivity.
  - discriminate.
  - vm_compute. reflexivity.
  - vm_compute. discriminate.
Defined.

(** The word [Al] after Escape, with no commands. *)
Lemma characters_do_not_reopen_example :
  exists names,
    show_autocomplete default_jump_to_prefix
      (Some (mkParent [] [] ["Alice"])) "Al" 2 (mkPopup true ["Bob"] false)
    = Ok (mkPopup true (["Bob"] ++ names) false).
Proof.
  apply (characters_do_not_reopen default_jump_to_prefix
           (mkParent [] [] ["Alice"]) "Al" 2 (mkPopup true ["Bob"] false)).
  - reflexivity.
  - reflexivity.
  - vm_compute. reflexivity.
  - intros start_pos _. right. reflexivity.
Defined.

End CompletionProps.

(** ** Moving through the popup *)

Module PopupProps.
Import Popup.
Local Open Scope Z_scope.

Lemma key_down_row (p : list_widget) :
  0 <= current_row p < count p ->
  key_down p = mkList (items p) ((current_row p + 1) mod count p).
Proof.
  intros R. unfold key_down, set_current_row. cbv zeta.
  destruct (Z.ltb_spec (current_row p) (count p - 1)) as [L|L].
  - destruct (Z.leb_spec 0 (current_row p + 1)); [|lia].
    destruct (Z.ltb_spec (current_row p + 1) (count p)); [|lia].
    cbn [andb]. now rewrite Z.mod_small by lia.
  - destruct (Z.ltb_spec 0 (count p)); [|lia]. cbn [Z.leb andb].
    replace (current_row p + 1) with (count p) by lia.
    now rewrite Z.mod_same by lia.
Qed.

Lemma key_up_row (p : list_widget) :
  0 <= current_row p < count p ->
  key_up p = mkList (items p) ((current_row p - 1) mod count p).
Proof.
  intros R. unfold key_up, set_current_row. cbv zeta.
  destruct (Z.ltb_spec 0 (current_row p)) as [L|L].
  - destruct (Z.leb_spec 0 (current_row p - 1)); [|lia].
    destruct (Z.ltb_spec (current_row p - 1) (count p)); [|lia].
    cbn [andb]. now rewrite Z.mod_small by lia.
  - destruct (Z.leb_spec 0 (count p - 1)); [|lia].
    destruct (Z.ltb_spec (count p - 1) (count p)); [|lia].
    cbn [andb]. f_equal.
    replace (current_row p - 1) with (count p - 1 + (-1) * count p) by lia.
    rewrite Z.mod_add by lia. now rewrite Z.mod_small by lia.
Qed.

(** With an item selected, the Up and the Down key undo each other, and
    each leaves an item of the list selected: the selection wraps around
    at both ends. *)
Theorem up_and_down_are_inverse (p : list_widget) :
  0 <= current_row p < count p ->
  key_up (key_down p) = p
  /\ key_down (key_up p) = p
  /\ 0 <= current_row (key_down p) < count p
  /\ 0 <= current_row (key_up p) < count p.
Proof.
  intros R.
  assert (0 <= (current_row p + 1) mod count p < count p) as Rd
    by (apply Z.mod_pos_bound; lia).
  assert (0 <= (current_row p - 1) mod count p < count p) as Ru
    by (apply Z.mod_pos_bound; lia).
  rewrite (key_down_row p R), (key_up_row p R).
  split; [|split; [|split; [exact Rd|exact Ru]]].
  - rewrite key_up_row by exact Rd. cbn [items current_row].
    unfold count at 1. cbn [items]. fold (count p).
    destruct p as [xs r]. cbn [items current_row] in *. f_equal.
    rewrite Zminus_mod_idemp_l.
    replace (r + 1 - 1) with r by lia. now apply Z.mod_small.
  - rewrite key_down_row by exact Ru. cbn [items current_row].
    unfold count at 1. cbn [items]. fold (count p).
    destruct p as [xs r]. cbn [items current_row] in *. f_equal.
    rewrite Zplus_mod_idemp_l.
    replace (r - 1 + 1) with r by lia. now apply Z.mod_small.
Qed.

(** After [update_items] with at least one text the first item is
    selected, and [k] presses of the Down key select the item at index
    [k] modulo the number of items. *)
Theorem down_selects_cyclically (texts : list string) (p : list_widget)
  (k : nat) :
  texts <> [] ->
  press key_down k (update_items texts p)
  = mkList texts (Z.of_nat (k mod length texts))
  /\ current_item (press key_down k (update_items texts p))
     = List.nth_error texts (k mod length texts)%nat.
Proof.
  intros N.
  assert (0 < length texts)%nat as Lt
    by (destruct texts; [congruence|simpl; lia]).
  assert (press key_down k (update_items texts p)
          = mkList texts (Z.of_nat (k mod length texts))) as E.
  { induction k as [|k IH].
    - change (press key_down 0 (update_items texts p))
        with (update_items texts p).
      unfold update_items, set_current_row, count.
      cbv zeta. cbn [items].
      destruct (Z.ltb_spec 0 (Z.of_nat (length texts))); [|lia].
      cbn [Z.leb andb]. now rewrite Nat.Div0.mod_0_l.
    - change (press key_down (S k) (update_items texts p))
        with (key_down (press key_down k (update_items texts p))).
      rewrite IH.
      assert (k mod length texts < length texts)%nat
        by (apply Nat.mod_upper_bound; lia).
      rewrite key_down_row
        by (unfold count; cbn [items current_row]; lia).
      unfold count. cbn [items current_row]. f_equal.
      replace (Z.of_nat (k mod length texts) + 1)
        with (Z.of_nat (k mod length texts + 1)) by lia.
      rewrite <- Nat2Z.inj_mod. f_equal.
      replace (S k) with (k + 1)%nat by lia.
      now rewrite Nat.Div0.add_mod_idemp_l. }
  split; [exact E|]. rewrite E. unfold current_item. cbn [items current_row].
  destruct (Z.leb_spec 0 (Z.of_nat (k mod length texts))); [|lia].
  now rewrite Nat2Z.id.
Qed.

(** The row [1] of three items. *)
Lemma up_and_down_example :
  let p := mkList ["a"; "b"; "c"]%string 1 in
  key_up (key_down p) = p
  /\ key_down (key_up p) = p
  /\ 0 <= current_row (key_down p) < count p
  /\ 0 <= current_row (key_up p) < count p.
Proof.
  cbv zeta.
  apply (up_and_down_are_inverse (mkList ["a"; "b"; "c"]%string 1)).
  vm_compute. split; [discriminate|reflexivity].
Defined.

(** Five presses of Down in a popup of three items. *)
Lemma down_selects_example :
  press key_down 5 (update_items ["a"; "b"; "c"]%string (mkList [] (-1)))
  = mkList ["a"; "b"; "c"]%string (Z.of_nat (5 mod 3))
  /\ current_item
       (press key_down 5 (update_items ["a"; "b"; "c"]%string (mkList [] (-1))))
     = List.nth_error ["a"; "b"; "c"]%string (5 mod 3)%nat.
Proof.
  apply (down_selects_cyclically ["a"; "b"; "c"]%string (mkList [] (-1)) 5).
  discriminate.
Defined.

End PopupProps.

(** ** The renderer of a node *)

Module RendererProps.
Import Text Renderers.

Section Factory.

Variable renderer : Type.

Lemma renderer_key_built_in (node_type node_content : string) :
  built_in (renderer_key node_type node_content) = true.
Proof.
  unfold renderer_key. cbv zeta.
  destruct (_ || _ || _); [reflexivity|].
  destruct (_ || _ || _); reflexivity.
Qed.

Lemma register_all_keeps (regs : list (string * renderer)) :
  forall (f : factory renderer) (name : string),
    is_Some (f !! name) -> is_Some (register_all renderer regs f !! name).
Proof.
  induction regs as [|[k r] regs IH]; intros f name H; [exact H|].
  cbn [register_all fold_left fst snd]. apply IH.
  unfold register_renderer, factory in *.
  destruct (decide (k = name)) as [->|Ne].
  - rewrite lookup_insert_eq. eauto.
  - now rewrite lookup_insert_ne.
Qed.

Lemma register_all_other (regs : list (string * renderer)) :
  forall (f : factory renderer) (name : string),
    Forall (fun p => fst p <> name) regs ->
    register_all renderer regs f !! name = f !! name.
Proof.
  induction regs as [|[k r] regs IH]; intros f name H; [reflexivity|].
  cbn [register_all fold_left fst snd].
  apply Forall_cons in H as [Hk H]. cbn [fst] in Hk.
  fold (register_all renderer regs (register_renderer renderer k r f)).
  rewrite IH by exact H.
  unfold register_renderer, factory in *. now rewrite lookup_insert_ne.
Qed.

(** Whatever renderers have been registered since the factory was
    created, [get_renderer] finds a renderer for every node type and
    content: the three names it looks up are never missing. *)
Theorem get_renderer_never_fails
  (standard condition if_show_variant : renderer)
  (regs : list (string * renderer)) (node_type node_content : string) :
  is_Some (get_renderer renderer
             (register_all renderer regs
                (init renderer standard condition if_show_variant))
             node_type node_content).
Proof.
  unfold get_renderer. apply register_all_keeps.
  pose proof (renderer_key_built_in node_type node_content) as B.
  unfold built_in in B. unfold init, factory.
  apply orb_true_iff in B as [B|B]; [apply orb_true_iff in B as [B|B]|];
    apply String.eqb_eq in B; rewrite B.
  - rewrite lookup_insert_eq. eauto.
  - rewrite lookup_insert_ne by discriminate. rewrite lookup_insert_eq. eauto.
  - do 2 (rewrite lookup_insert_ne by discriminate).
    rewrite lookup_insert_eq. eauto.
Qed.

(** A renderer registered under a name other than [standard],
    [condition] and [if_show_variant] is never returned by the lookup of
    this name: after any such registrations, [get_renderer] answers as
    before them for every node type and content, also for a node whose
    type is the registered name. *)
Theorem custom_renderers_are_never_used
  (f : factory renderer) (regs : list (string * renderer))
  (node_type node_content : string) :
  Forall (fun p => built_in (fst p) = false) regs ->
  get_renderer renderer (register_all renderer regs f) node_type node_content
  = get_renderer renderer f node_type node_content.
Proof.
  intros H. unfold get_renderer. apply register_all_other.
  pose proof (renderer_key_built_in node_type node_content) as B.
  eapply List.Forall_impl; [|exact H].
  intros p Hp E. cbv beta in Hp. rewrite E in Hp. congruence.
Qed.

End Factory.

(** A renderer registered for the type [choice] and a node of this
    type. *)
Lemma custom_renderer_example :
  get_renderer nat (register_all nat [("choice", 3)] (init nat 0 1 2))
    "choice" "pick one"
  = get_renderer nat (init nat 0 1 2) "choice" "pick one".
Proof.
  apply (custom_renderers_are_never_used nat (init nat 0 1 2)
           [("choice", 3)] "choice" "pick one").
  repeat constructor.
Defined.

End RendererProps.

(** ** The links on the canvas *)

Module LayoutProps.
Import Text Re Py ScriptGraph GraphShape Layout TextFacts PyFacts
  ScriptGraphFacts BuilderInvariant BuilderEdges ShapeProps.

Lemma find_node_index (ns : list ScriptGraphNode) :
  forall (k i : nat) (x : Z),
    map node_id ns = map fresh_id (seq k (length ns)) ->
    i < length ns ->
    exists n,
      List.nth_error ns i = Some n
      /\ find_node (fresh_id (k + i)) (arrange_from x ns)
         = Some (mkPlaced n (x + (node_width + 120) * Z.of_nat i)%Z).
Proof.
  induction ns as [|n ns IH]; intros k i x I L; [simpl in L; lia|].
  cbn [map length seq] in I. injection I as In_ Is.
  cbn [arrange_from]. unfold find_node. cbn [List.find placed_node].
  destruct i as [|i].
  - exists n. split; [reflexivity|].
    rewrite Nat.add_0_r, In_, String.eqb_refl. do 2 f_equal. lia.
  - destruct (String.eqb_spec (node_id n) (fresh_id (k + S i))) as [E|_].
    + rewrite In_ in E. apply fresh_id_inj in E. lia.
    + destruct (IH (S k) i (x + (node_width + 120))%Z Is) as (m & Nm & Fm);
        [simpl in L; lia|].
      exists m. split; [exact Nm|].
      replace (k + S i) with (S k + i) by lia.
      unfold find_node in Fm. rewrite Fm. do 2 f_equal. lia.
Qed.

Section Builder.

Context {P : Type} `{Pattern P}.
Variable node_types : list (node_type_config P).
Variable default_node_type : string.
Variable ignore_patterns : list P.

(** On the canvas every link runs from left to right: [_draw_link] finds
    both nodes of every edge of a section's graph, and after
    [_arrange_horizontal] the exit port of the first lies at least the
    spacing of [120] to the left of the enter port of the second. *)
Theorem links_run_left_to_right (lines : list string) :
  exists ns es,
    build_graph node_types default_node_type ignore_patterns lines
    = Ok (ns, es)
    /\ forall from_id to_id,
         In (from_id, to_id) es ->
         exists n1 n2,
           find_node from_id (arrange_horizontal ns) = Some n1
           /\ find_node to_id (arrange_horizontal ns) = Some n2
           /\ node_id (placed_node n1) = from_id
           /\ node_id (placed_node n2) = to_id
           /\ (exit_port_x n1 + 120 <= enter_port_x n2)%Z.
Proof.
  rewrite build_graph_closed. unfold ScriptGraph.graph_of.
  set (st := ScriptGraph.steps _ _ _ (groups lines) initial).
  assert (well_formed st) as W by apply steps_wf, initial_wf.
  assert (Forall (between 0 (node_id_counter st)) (connections st)) as F
    by (apply steps_forward; [apply initial_wf|constructor]).
  exists (nodes st), (connections st). split; [reflexivity|].
  intros a b I. rewrite List.Forall_forall in F.
  destruct (F _ I) as (i & j & _ & Lij & Lj & Ea & Eb).
  cbn [fst snd] in Ea, Eb.
  pose proof (wf_ids st W) as Ids. rewrite <- (wf_length st W) in Ids, Lj.
  destruct (find_node_index (nodes st) 0 i 100%Z Ids) as (n1 & N1 & F1);
    [lia|].
  destruct (find_node_index (nodes st) 0 j 100%Z Ids) as (n2 & N2 & F2);
    [lia|].
  cbn [Nat.add] in F1, F2. unfold arrange_horizontal.
  rewrite Ea, Eb, F1, F2. eexists. eexists.
  split; [reflexivity|]. split; [reflexivity|].
  cbn [placed_node]. unfold exit_port_x, enter_port_x, node_width.
  cbn [node_x].
  assert (forall k n, List.nth_error (nodes st) k = Some n ->
                      node_id n = fresh_id k) as Idx.
  { intros k n Nk.
    apply (map_nth_error node_id) in Nk. rewrite Ids in Nk.
    rewrite nth_error_map in Nk.
    assert (k < length (nodes st)) as Lk.
    { apply nth_error_Some. intros E.
      apply (f_equal (option_map node_id)) in E.
      rewrite <- nth_error_map, Ids, nth_error_map in E.
      rewrite E in Nk. discriminate. }
    rewrite (nth_error_nth' _ 0) in Nk by (rewrite length_seq; exact Lk).
    rewrite seq_nth in Nk by exact Lk. cbn in Nk. congruence. }
  split; [now apply Idx|]. split; [now apply Idx|]. lia.
Qed.

End Builder.

End LayoutProps.
